(** * UniThrift checkout: payload normalisation, price resolution, order total

    A shallow embedding of the [POST /api/cart/checkout] handler of
    [src/server/index.js] (lines 194-278) together with the fragment of the
    JavaScript runtime it relies on: the JSON values found in [req.body],
    the coercions [String(...)], [Number(...)], [x.toString()], the
    operators [||], [??], [?.], and [Number.isFinite], [Math.round],
    [Math.max], [String.prototype.trim].

    Modelling conventions.
    - A JavaScript number is [NaN], [+Infinity], [-Infinity] or a finite
      value.  A finite value is an IEEE-754 binary64 number, held as the
      decimal [mant * 10^expo] that equals it (every binary64 number has
      a finite decimal expansion).  [+] and [*] round the exact result to
      the nearest binary64 number, ties to even, with overflow to an
      infinity and gradual underflow ([binary64]); number literals and
      [Number(string)] round in the same way, and [String(number)] prints
      the shortest digits that read back as the number.  The sign of zero
      is not represented.  The delivery estimate alone ([ceil_quot],
      [fee_of]) is computed on the exact quotient, product and sum.
    - A JavaScript string is held as its UTF-8 encoding, a [string] of
      bytes; the white space stripped by [trim] and by [Number(string)]
      is the [WhiteSpace] and [LineTerminator] of ECMA-262, U+00A0,
      U+2028 and U+FEFF included.  A string with an unpaired surrogate
      has no such encoding and is not represented.
    - A thrown [TypeError] is the [Throw] outcome of the [result] monad;
      the handler's [try/catch] turns it into the 500 response.
    - The persistence layer (Prisma) is an explicit store that is passed
      through the handler, with a log of the calls made to it.  Both
      calls of the checkout handler can fail: the catalog read
      ([reads]) and the order creation ([accepts]). *)

From Stdlib Require Import ZArith List String Ascii Bool Lia DecimalString.
Import ListNotations.
Local Open Scope string_scope.
Local Open Scope list_scope.
Local Open Scope Z_scope.

(** ** The error monad: a computation returns a value or throws *)

Inductive result (A : Type) : Type :=
| Ok (a : A)
| Throw.
Arguments Ok {A} a.
Arguments Throw {A}.

Definition bind {A B : Type} (r : result A) (k : A -> result B) : result B :=
  match r with
  | Ok a => k a
  | Throw => Throw
  end.

Notation "'let*' x ':=' r 'in' k" := (bind r (fun x => k))
  (at level 10, x name, r at level 200, k at level 200).

Fixpoint mapM {A B : Type} (f : A -> result B) (l : list A) : result (list B) :=
  match l with
  | [] => Ok []
  | x :: r =>
      let* y := f x in
      let* ys := mapM f r in
      Ok (y :: ys)
  end.

(** ** Numbers *)

(** A finite number, [mant * 10^expo].  The canonical form has no trailing
    zero in [mant], and [expo = 0] when [mant = 0]. *)
Record dec : Set := Dec { mant : Z; expo : Z }.

Inductive num : Set :=
| NaN
| PInf
| NInf
| Fin (d : dec).

Fixpoint strip_zeros (fuel : nat) (m e : Z) : dec :=
  match fuel with
  | O => Dec m e
  | S fuel' =>
      if m =? 0 then Dec 0 0
      else if m mod 10 =? 0 then strip_zeros fuel' (m / 10) (e + 1)
      else Dec m e
  end.

Definition canon (m e : Z) : dec :=
  strip_zeros (S (Z.to_nat (Z.log2 (Z.abs m)))) m e.

Definition dec_of_Z (z : Z) : dec := canon z 0.
Definition num_of_Z (z : Z) : num := Fin (dec_of_Z z).

(** Both mantissas brought to the smaller exponent. *)
Definition align (a b : dec) : Z * Z * Z :=
  let e := Z.min (expo a) (expo b) in
  (mant a * 10 ^ (expo a - e), mant b * 10 ^ (expo b - e), e).

Definition dec_add (a b : dec) : dec :=
  let '(ma, mb, e) := align a b in canon (ma + mb) e.

Definition dec_mul (a b : dec) : dec :=
  canon (mant a * mant b) (expo a + expo b).

Definition dec_ltb (a b : dec) : bool :=
  let '(ma, mb, _) := align a b in ma <? mb.

Definition dec_sign (a : dec) : Z := Z.sgn (mant a).

(** Nearest integer, ties towards [+Infinity]: [floor (x + 1/2)]. *)
Definition dec_round (a : dec) : dec :=
  if 0 <=? expo a then a
  else
    let p := 10 ^ (- expo a) in
    canon ((2 * mant a + p) / (2 * p)) 0.

Definition num_sign (n : num) : Z :=
  match n with
  | NaN => 0
  | PInf => 1
  | NInf => -1
  | Fin d => dec_sign d
  end.

(** The sum of two numbers as a real number, before any rounding. *)
Definition exact_add (x y : num) : num :=
  match x, y with
  | NaN, _ | _, NaN => NaN
  | PInf, NInf | NInf, PInf => NaN
  | PInf, _ | _, PInf => PInf
  | NInf, _ | _, NInf => NInf
  | Fin a, Fin b => Fin (dec_add a b)
  end.

(** The product of two numbers as a real number, before any rounding. *)
Definition exact_mul (x y : num) : num :=
  match x, y with
  | NaN, _ | _, NaN => NaN
  | Fin a, Fin b => Fin (dec_mul a b)
  | _, _ =>
      match num_sign x * num_sign y with
      | Z0 => NaN
      | Zpos _ => PInf
      | Zneg _ => NInf
      end
  end.

(** For positive [N] and [D], the [k] with [2^k <= N / D < 2^(k+1)]. *)
Definition binade (N D : Z) : Z :=
  let k0 := Z.log2 N - Z.log2 D in
  let below :=
    if 0 <=? k0 then N <? D * 2 ^ k0 else N * 2 ^ (- k0) <? D in
  if below then k0 - 1 else k0.

(** [N / D] in units of [2^q], rounded to the nearest integer, a tie to
    the even one. *)
Definition nearest_even (N D q : Z) : Z :=
  let A := if 0 <=? q then N else N * 2 ^ (- q) in
  let B := if 0 <=? q then D * 2 ^ q else D in
  let t := A / B in
  let r := A mod B in
  if (B <? 2 * r) || ((B =? 2 * r) && Z.odd t) then t + 1 else t.

(** The IEEE-754 binary64 number nearest to [m * 10^e], ties to the even
    significand; an infinity from [2^1024 - 2^970] on, subnormal numbers
    and 0 below [2^-1022].  With [N / D] the absolute value and [2^k] the
    power of two at or below it, the significand is [N / D] in units of
    [2^q], [q = max (k - 52) (-1074)], rounded to an integer [t]; the
    number found, [t * 2^q], is given back as a decimal.  The sign of a
    zero is not kept: no operation of this program tells [-0] from
    [0]. *)
Definition binary64 (d : dec) : num :=
  let m := mant d in
  let e := expo d in
  if m =? 0 then Fin (Dec 0 0)
  else
    let N := if 0 <=? e then Z.abs m * 10 ^ e else Z.abs m in
    let D := if 0 <=? e then 1 else 10 ^ (- e) in
    let q := Z.max (binade N D - 52) (-1074) in
    let t := nearest_even N D q in
    if (971 <? q) || ((q =? 971) && (2 ^ 53 <=? t)) then
      if m <? 0 then NInf else PInf
    else
      let v := Z.sgn m * t in
      if 0 <=? q then Fin (canon (v * 2 ^ q) 0)
      else Fin (canon (v * 5 ^ (- q)) q).

(** A real number rounded to a number of JavaScript. *)
Definition to_binary64 (x : num) : num :=
  match x with
  | Fin d => binary64 d
  | _ => x
  end.

(** [x + y] on numbers: the binary64 sum. *)
Definition num_add (x y : num) : num := to_binary64 (exact_add x y).

(** [x * y] on numbers: the binary64 product. *)
Definition num_mul (x y : num) : num := to_binary64 (exact_mul x y).

(** [x < y] on numbers; false as soon as one side is [NaN]. *)
Definition num_ltb (x y : num) : bool :=
  match x, y with
  | NaN, _ | _, NaN => false
  | _, NInf => false
  | NInf, _ => true
  | PInf, _ => false
  | _, PInf => true
  | Fin a, Fin b => dec_ltb a b
  end.

(** [x > y] is [y < x]. *)
Definition num_gtb (x y : num) : bool := num_ltb y x.

Definition num_isFinite (n : num) : bool :=
  match n with
  | Fin _ => true
  | _ => false
  end.

Definition zero : num := num_of_Z 0.
Definition one : num := num_of_Z 1.

(** [Math.round(x)]. *)
Definition Math_round (x : num) : num :=
  match x with
  | Fin d => Fin (dec_round d)
  | _ => x
  end.

(** [Math.max(x, y)]: [NaN] if either argument is, else the larger one. *)
Definition Math_max (x y : num) : num :=
  match x, y with
  | NaN, _ | _, NaN => NaN
  | _, _ => if num_ltb x y then y else x
  end.

(** ** Strings *)

(** The white space of [trim] and of [Number(string)] (the [WhiteSpace]
    and [LineTerminator] of ECMA-262), a string being held as its UTF-8
    encoding.  With one byte: TAB, LF, VT, FF, CR and SPACE. *)
Definition is_space (c : ascii) : bool :=
  let n := N_of_ascii c in
  ((9 <=? n)%N && (n <=? 13)%N) || (n =? 32)%N.

(** With two bytes: U+00A0. *)
Definition is_space2 (a b : ascii) : bool :=
  (N_of_ascii a =? 194)%N && (N_of_ascii b =? 160)%N.

(** With three bytes: U+1680, U+2000 to U+200A, U+2028, U+2029, U+202F,
    U+205F, U+3000 and U+FEFF. *)
Definition is_space3 (a b c : ascii) : bool :=
  let x := N_of_ascii a in
  let y := N_of_ascii b in
  let z := N_of_ascii c in
  ((x =? 225)%N && (y =? 154)%N && (z =? 128)%N)
  || ((x =? 226)%N && (y =? 128)%N &&
      (((128 <=? z)%N && (z <=? 138)%N)
       || (z =? 168)%N || (z =? 169)%N || (z =? 175)%N))
  || ((x =? 226)%N && (y =? 129)%N && (z =? 159)%N)
  || ((x =? 227)%N && (y =? 128)%N && (z =? 128)%N)
  || ((x =? 239)%N && (y =? 187)%N && (z =? 191)%N).

(** The string is one white-space character. *)
Definition white_space (s : string) : bool :=
  match s with
  | String a EmptyString => is_space a
  | String a (String b EmptyString) => is_space2 a b
  | String a (String b (String c EmptyString)) => is_space3 a b c
  | _ => false
  end.

Fixpoint trimStart (s : string) : string :=
  match s with
  | EmptyString => EmptyString
  | String a r =>
      if is_space a then trimStart r
      else
        match r with
        | EmptyString => s
        | String b r2 =>
            if is_space2 a b then trimStart r2
            else
              match r2 with
              | EmptyString => s
              | String c r3 => if is_space3 a b c then trimStart r3 else s
              end
        end
  end.

Fixpoint trimEnd (s : string) : string :=
  match s with
  | EmptyString => EmptyString
  | String c r =>
      let t := String c (trimEnd r) in
      if white_space t then EmptyString else t
  end.

(** [s.trim()]. *)
Definition trim (s : string) : string := trimEnd (trimStart s).

Definition is_empty (s : string) : bool :=
  match s with
  | EmptyString => true
  | String _ _ => false
  end.

Definition zeros (n : Z) : string :=
  string_of_list_ascii (repeat "0"%char (Z.to_nat n)).

Definition take (n : Z) (s : string) : string := substring 0 (Z.to_nat n) s.
Definition drop (n : Z) (s : string) : string :=
  substring (Z.to_nat n) (String.length s) s.

(** The decimal digits of a non-negative integer, and of its sign. *)
Definition digits_of (z : Z) : string :=
  NilZero.string_of_uint (N.to_uint (Z.to_N z)).

Definition dec_eqb (a b : dec) : bool :=
  (mant a =? mant b) && (expo a =? expo b).

(** [s * 10^p] reads back as the number [x]. *)
Definition round_trips (x : dec) (s p : Z) : bool :=
  match binary64 (Dec s p) with
  | Fin y => dec_eqb y x
  | _ => false
  end.

(** The decimal with the fewest digits that reads back as [x], for
    [10^(n-1) <= x < 10^n], trying [k], [k + 1], ... digits: of the two
    [k]-digit decimals around [x], the one that reads back as [x], the
    closer one when both do, the even one when they are as close.  A
    decimal that no decimal of 17 digits reads back as is kept as it
    is. *)
Fixpoint shortest (fuel : nat) (k : Z) (x : dec) (n : Z) : dec :=
  match fuel with
  | O => x
  | S fuel' =>
      let p := n - k in
      let sh := expo x - p in
      if 0 <=? sh then x
      else
        let P := 10 ^ (- sh) in
        let lo := mant x / P in
        let r := mant x mod P in
        let lo_ok := round_trips x lo p in
        let hi_ok := round_trips x (lo + 1) p in
        if lo_ok && hi_ok then
          if (2 * r <? P) || ((2 * r =? P) && Z.even lo) then canon lo p
          else canon (lo + 1) p
        else if lo_ok then canon lo p
        else if hi_ok then canon (lo + 1) p
        else shortest fuel' (k + 1) x n
  end.

(** [Number::toString] of a finite value (ECMA-262, 6.1.6.1.20, radix 10):
    with [k] digits [s], as few as read back as the number, and
    [s * 10^(n-k)] their value, plain digits up to 21 integer digits, a
    leading [0.] down to [1e-6], the exponent notation beyond. *)
Definition dec_to_string (d : dec) : string :=
  let d := canon (mant d) (expo d) in
  if mant d =? 0 then "0"
  else
    let sign := if mant d <? 0 then "-" else "" in
    let a := Dec (Z.abs (mant d)) (expo d) in
    let len := Z.of_nat (String.length (digits_of (mant a))) in
    let w := shortest 17 1 a (len + expo a) in
    let s := digits_of (mant w) in
    let k := Z.of_nat (String.length s) in
    let n := k + expo w in
    let integral := (k <=? n) && (n <=? 21) in
    let fraction := (0 <? n) && (n <=? 21) in
    let small := (-6 <? n) && (n <=? 0) in
    let e := n - 1 in
    let e_sign := if e <? 0 then "-" else "+" in
    let single := k =? 1 in
    (sign ++
     (if integral then s ++ zeros (n - k)
      else if fraction then take n s ++ "." ++ drop n s
      else if small then "0." ++ zeros (- n) ++ s
      else
        let es := e_sign ++ digits_of (Z.abs e) in
        if single then s ++ "e" ++ es
        else take 1 s ++ "." ++ drop 1 s ++ "e" ++ es))%string.

Definition num_to_string (n : num) : string :=
  match n with
  | NaN => "NaN"
  | PInf => "Infinity"
  | NInf => "-Infinity"
  | Fin d => dec_to_string d
  end.

(** Reading numerals. *)
Definition digit_val (base : Z) (c : ascii) : option Z :=
  let n := Z.of_nat (nat_of_ascii c) in
  let v :=
    if (48 <=? n) && (n <=? 57) then n - 48
    else if (97 <=? n) && (n <=? 102) then n - 87
    else if (65 <=? n) && (n <=? 70) then n - 55
    else 99 in
  if v <? base then Some v else None.

(** The longest prefix of digits of [s] in [base], read with accumulator
    [acc]: its value, its length, and the rest of [s]. *)
Fixpoint span_digits (base : Z) (s : string) (acc : Z) (len : Z)
  : Z * Z * string :=
  match s with
  | EmptyString => (acc, len, EmptyString)
  | String c r =>
      match digit_val base c with
      | Some v => span_digits base r (acc * base + v) (len + 1)
      | None => (acc, len, s)
      end
  end.

(** [ExponentPart] (optional): [e] or [E], an optional sign, digits; the
    literal has to end there. *)
Definition parse_exponent (s : string) : option Z :=
  match s with
  | EmptyString => Some 0
  | String c r =>
      if (Ascii.eqb c "e" || Ascii.eqb c "E")%bool then
        let '(neg, r) :=
          match r with
          | String "-" r' => (true, r')
          | String "+" r' => (false, r')
          | _ => (false, r)
          end in
        match span_digits 10 r 0 0 with
        | (v, len, EmptyString) =>
            if 0 <? len then Some (if neg then - v else v) else None
        | _ => None
        end
      else None
  end.

(** [StrUnsignedDecimalLiteral]. *)
Definition parse_unsigned (s : string) : num :=
  if String.eqb s "Infinity" then PInf
  else
    let '(ip, ilen, r1) := span_digits 10 s 0 0 in
    let '(m, flen, r2) :=
      match r1 with
      | String "." r => span_digits 10 r ip 0
      | _ => (ip, 0, r1)
      end in
    if (ilen =? 0) && (flen =? 0) then NaN
    else
      match parse_exponent r2 with
      | Some e => binary64 (Dec m (e - flen))
      | None => NaN
      end.

(** [0x], [0o], [0b] literals (no sign allowed). *)
Definition parse_radix (base : Z) (s : string) : num :=
  match span_digits base s 0 0 with
  | (v, len, EmptyString) => if 0 <? len then binary64 (Dec v 0) else NaN
  | _ => NaN
  end.

Definition num_neg (n : num) : num :=
  match n with
  | NaN => NaN
  | PInf => NInf
  | NInf => PInf
  | Fin d => Fin (Dec (- mant d) (expo d))
  end.

(** [StringToNumber] (ECMA-262, 7.1.4.1.1): white space is trimmed, the
    empty string is 0, anything that is not a [StrNumericLiteral] is
    [NaN]. *)
Definition StringToNumber (s : string) : num :=
  match trim s with
  | EmptyString => zero
  | String "0" (String c r) as t =>
      if (Ascii.eqb c "x" || Ascii.eqb c "X")%bool then parse_radix 16 r
      else if (Ascii.eqb c "o" || Ascii.eqb c "O")%bool then parse_radix 8 r
      else if (Ascii.eqb c "b" || Ascii.eqb c "B")%bool then parse_radix 2 r
      else parse_unsigned t
  | String "-" r => num_neg (parse_unsigned r)
  | String "+" r => parse_unsigned r
  | t => parse_unsigned t
  end.

(** ** Values *)

(** What [express.json()] leaves in [req.body] and below it: the JSON
    values, and [undefined] for an absent body or property.  An object is
    the list of its own properties. *)
#[local] Set Warnings "-register-all".
Inductive value : Type :=
| VUndefined
| VNull
| VBool (b : bool)
| VNum (n : num)
| VStr (s : string)
| VArr (l : list value)
| VObj (fields : list (string * value)).

Fixpoint assoc (k : string) (fields : list (string * value)) : option value :=
  match fields with
  | [] => None
  | (k', v) :: r => if String.eqb k k' then Some v else assoc k r
  end.

Definition has_own (k : string) (fields : list (string * value)) : bool :=
  match assoc k fields with
  | Some _ => true
  | None => false
  end.

(** [v.k] for the property names the handler reads ([campus], [pickup],
    [paymentMethod], [gcashNumber], [items], [cart], [productId], [id],
    [name], [qty], [quantity], [price]).  None of them is inherited from
    [Object.prototype], [Array.prototype] or the wrappers of the
    primitives, so the property is an own property of an object or is
    [undefined]; reading a property of [null] or [undefined] throws. *)
Definition get (v : value) (k : string) : result value :=
  match v with
  | VUndefined | VNull => Throw
  | VObj fields =>
      match assoc k fields with
      | Some x => Ok x
      | None => Ok VUndefined
      end
  | _ => Ok VUndefined
  end.

(** [v?.k]. *)
Definition get_opt (v : value) (k : string) : value :=
  match get v k with
  | Ok x => x
  | Throw => VUndefined
  end.

(** [ToBoolean]. *)
Definition truthy (v : value) : bool :=
  match v with
  | VUndefined | VNull => false
  | VBool b => b
  | VNum NaN => false
  | VNum (Fin d) => negb (mant d =? 0)
  | VNum _ => true
  | VStr s => negb (is_empty s)
  | VArr _ | VObj _ => true
  end.

(** [a || b]. *)
Definition or_else (a b : value) : value := if truthy a then a else b.

Definition nullish (v : value) : bool :=
  match v with
  | VUndefined | VNull => true
  | _ => false
  end.

(** [a ?? b]. *)
Definition coalesce (a b : value) : value := if nullish a then b else a.

(** [Array.isArray(v)]. *)
Definition Array_isArray (v : value) : bool :=
  match v with
  | VArr _ => true
  | _ => false
  end.

(** [ToString] (ECMA-262, 7.1.17), which is [String(v)].  An array is
    joined with commas, [null] and [undefined] elements giving the empty
    string.  An object goes through [OrdinaryToPrimitive]: the inherited
    [Object.prototype.toString] answers ["[object Object]"], but an own
    property [toString] (a JSON value, hence not callable) hides it, the
    inherited [valueOf] returns the object itself, and a [TypeError] is
    thrown. *)
Fixpoint ToString (v : value) : result string :=
  match v with
  | VUndefined => Ok "undefined"
  | VNull => Ok "null"
  | VBool true => Ok "true"
  | VBool false => Ok "false"
  | VNum n => Ok (num_to_string n)
  | VStr s => Ok s
  | VArr l =>
      (fix join (l : list value) : result string :=
         match l with
         | [] => Ok ""
         | x :: r =>
             let* a := (if nullish x then Ok "" else ToString x) in
             match r with
             | [] => Ok a
             | _ => let* b := join r in Ok (a ++ "," ++ b)%string
             end
         end) l
  | VObj fields =>
      if has_own "toString" fields then Throw else Ok "[object Object]"
  end.

(** [v.toString()] for a truthy [v].  The methods of the primitives and
    [Array.prototype.toString] give what [ToString] gives; on an object
    the call throws exactly when an own, non-callable [toString] hides
    the inherited method. *)
Definition toString (v : value) : result string := ToString v.

(** [ToNumber] (ECMA-262, 7.1.4), which is [Number(v)].  Arrays and
    objects are first turned into a string as above ([valueOf] never
    yields a primitive for them). *)
Definition ToNumber (v : value) : result num :=
  match v with
  | VUndefined => Ok NaN
  | VNull => Ok zero
  | VBool true => Ok one
  | VBool false => Ok zero
  | VNum n => Ok n
  | VStr s => Ok (StringToNumber s)
  | VArr _ | VObj _ => let* s := ToString v in Ok (StringToNumber s)
  end.

(** [Number.isFinite(v)]: false for everything that is not a number. *)
Definition Number_isFinite (v : value) : bool :=
  match v with
  | VNum n => num_isFinite n
  | _ => false
  end.

(** ** The checkout handler: data *)

(** An element of [norm] (lines 210-214). *)
Record NormItem : Type := {
  productId : string;
  qty : num;
  priceSnap : num
}.

(** Modelled from the spec: the [Product] model of the Prisma schema,
    which is not part of [src/]; section 3 of the spec gives it a unique
    identifier and a price in integer currency units.  Only the two
    columns the handler reads are kept. *)
Record Product : Type := {
  product_id : string;
  product_price : Z
}.

(** The nested [items.create] entries of line 249-255. *)
Record OrderItem : Type := {
  item_productId : string;
  item_qty : num;
  item_price : num
}.

(** The [data] argument of [prisma.order.create] (lines 242-257);
    [gcashNumber] is [None] for [null]. *)
Record OrderData : Type := {
  campus : string;
  pickup : string;
  paymentMethod : string;
  gcashNumber : option string;
  total : num;
  items : list OrderItem
}.

(** A stored order: the identifier given by the store, and the data. *)
Record Order : Type := {
  order_id : nat;
  order_data : OrderData
}.

(** The calls made to the persistence layer. *)
Inductive Call : Type :=
| FindManyProducts (ids : list string)
| CreateOrder (data : OrderData).

(** The persistence layer as the handler sees it: the catalog, the order
    store, and the calls received so far (oldest first). *)
Record Db : Type := {
  products : list Product;
  orders : list Order;
  calls : list Call
}.

(** The responses of the handler. *)
Inductive Json : Type :=
| Summary (orderId : nat) (total : num) (paymentMethod pickup : string)
    (itemCount : nat)
| NoItems (error hint : string) (received : value)
| Failure (error : string).

Record Response : Type := {
  status : nat;
  json : Json
}.

(** ** The checkout handler: steps *)

(** Lines 198-201: [(req.body?.k || dflt).toString()]. *)
Definition header (body : value) (k dflt : string) : result string :=
  toString (or_else (get_opt body k) (VStr dflt)).

(** Lines 204-207: the payload shape. *)
Definition select_items (body : value) : list value :=
  match body with
  | VArr l => l
  | _ =>
      match get_opt body "items" with
      | VArr l => l
      | _ =>
          match get_opt body "cart" with
          | VArr l => l
          | _ => []
          end
      end
  end.

(** Lines 210-214: the arrow function mapped over [items]. *)
Definition normalize_item (i : value) : result NormItem :=
  let* i_productId := get i "productId" in
  let* i_id := get i "id" in
  let* i_name := get i "name" in
  let* pid :=
    ToString (or_else (or_else (or_else i_productId i_id) i_name) (VStr "")) in
  let* i_qty := get i "qty" in
  let* i_quantity := get i "quantity" in
  let* q := ToNumber (coalesce (coalesce i_qty i_quantity) (VNum one)) in
  let* i_price := get i "price" in
  let* p := ToNumber (coalesce i_price (VNum zero)) in
  Ok {| productId := trim pid; qty := q; priceSnap := p |}.

Definition normalize (raw : list value) : result (list NormItem) :=
  mapM normalize_item raw.

(** Line 226: [norm.filter(i => i.productId).map(i => i.productId)]. *)
Definition lookup_ids (norm : list NormItem) : list string :=
  map productId (filter (fun i => negb (is_empty (productId i))) norm).

Definition mem (k : string) (l : list string) : bool :=
  existsb (String.eqb k) l.

(** Modelled from the spec: [prisma.product.findMany({ where: { id: { in:
    ids } } })], the "find many products by id list" of the persistence
    layer (spec section 6); identifiers that match nothing yield nothing. *)
Definition findMany (catalog : list Product) (ids : list string)
  : list Product :=
  filter (fun p => mem (product_id p) ids) catalog.

(** [o[k] = v] on the list of own properties. *)
Fixpoint set_prop (k : string) (v : value) (o : list (string * value))
  : list (string * value) :=
  match o with
  | [] => [(k, v)]
  | (k', v') :: r =>
      if String.eqb k k' then (k, v) :: r else (k', v') :: set_prop k v r
  end.

(** [Object.fromEntries]: a later entry overwrites an earlier one. *)
Definition fromEntries (entries : list (string * value))
  : list (string * value) :=
  fold_left (fun o kv => set_prop (fst kv) (snd kv) o) entries [].

(** Line 230. *)
Definition make_priceMap (found : list Product) : list (string * value) :=
  fromEntries
    (map (fun p => (product_id p, VNum (num_of_Z (product_price p)))) found).

(** [priceMap[k]].  A key that is not an own property reaches
    [Object.prototype], whose properties are functions and objects: as far
    as [Number.isFinite] can tell they are [undefined]. *)
Definition priceMap_at (priceMap : list (string * value)) (k : string)
  : value :=
  match assoc k priceMap with
  | Some v => v
  | None => VUndefined
  end.

(** Line 234: [dbPrice], [None] standing for [null]. *)
Definition dbPrice (priceMap : list (string * value)) (i : NormItem)
  : option num :=
  match priceMap_at priceMap (productId i) with
  | VNum n => if num_isFinite n then Some n else None
  | _ => None
  end.

(** Line 235: [dbPrice ?? (Number.isFinite(i.priceSnap) ? i.priceSnap : 0)]. *)
Definition unit_price (priceMap : list (string * value)) (i : NormItem)
  : num :=
  match dbPrice priceMap i with
  | Some p => p
  | None => if num_isFinite (priceSnap i) then priceSnap i else zero
  end.

(** Lines 236 and 251: [Number.isFinite(i.qty) && i.qty > 0 ? i.qty : 1]. *)
Definition effective_qty (i : NormItem) : num :=
  if num_isFinite (qty i) && num_gtb (qty i) zero then qty i else one.

(** Lines 233-238: the [reduce]. *)
Definition compute_total (priceMap : list (string * value))
  (norm : list NormItem) : num :=
  fold_left
    (fun sum i => num_add sum (num_mul (unit_price priceMap i) (effective_qty i)))
    norm zero.

(** Lines 252-254: the price stored on an item. *)
Definition stored_price (priceMap : list (string * value)) (i : NormItem)
  : num :=
  match priceMap_at priceMap (productId i) with
  | VNum n =>
      if num_isFinite n then n
      else if num_isFinite (priceSnap i) then priceSnap i else zero
  | _ => if num_isFinite (priceSnap i) then priceSnap i else zero
  end.

(** Lines 249-255. *)
Definition make_item (priceMap : list (string * value)) (i : NormItem)
  : OrderItem :=
  {| item_productId :=
       if is_empty (productId i) then "UNKNOWN" else productId i;
     item_qty := effective_qty i;
     item_price := stored_price priceMap i |}.

(** Lines 242-257. *)
Definition make_order (c p pm g : string) (priceMap : list (string * value))
  (norm : list NormItem) : OrderData :=
  {| campus := c;
     pickup := p;
     paymentMethod := pm;
     gcashNumber := if String.eqb pm "gcash" then Some g else None;
     total := Math_max zero (Math_round (compute_total priceMap norm));
     items := map (make_item priceMap) norm |}.

Definition log (c : Call) (db : Db) : Db :=
  {| products := products db; orders := orders db; calls := calls db ++ [c] |}.

Section Checkout.

(** The Prisma schema of [Order] and [OrderItem] is not part of [src/]:
    which [data] [prisma.order.create] rejects (a quantity that is not
    an integer, say) is left open. *)
Variable accepts : OrderData -> bool.

(** Modelled from the spec: [prisma.order.create], the "create order
    with nested items" of the persistence layer (spec section 6): the
    order and its items are stored together or not at all.  The stored
    order is returned; a rejection throws. *)
Definition order_create (data : OrderData) (db : Db) : result Order * Db :=
  let db := log (CreateOrder data) db in
  if accepts data then
    let o := {| order_id := List.length (orders db); order_data := data |} in
    (Ok o,
     {| products := products db; orders := orders db ++ [o];
        calls := calls db |})
  else (Throw, db).

(** Lines 272-277: the [catch]. *)
Definition server_error : Response :=
  {| status := 500; json := Failure "Checkout failed" |}.

(** Lines 217-223. *)
Definition no_items (body : value) : Response :=
  {| status := 422;
     json :=
       NoItems "No items received"
         "Check Content-Type: application/json and request body shape"
         body |}.

(** Lines 198-201. *)
Definition headers (body : value)
  : result (string * string * string * string) :=
  let* c := header body "campus" "ADMU" in
  let* p := header body "pickup" "Gate 2.5" in
  let* pm := header body "paymentMethod" "gcash" in
  let* g := header body "gcashNumber" "" in
  Ok (c, p, pm, g).

(** Lines 198-214: everything before the first database call. *)
Definition intake (body : value)
  : result (string * string * string * string * list NormItem) :=
  let* h := headers body in
  let* norm := normalize (select_items body) in
  Ok (h, norm).

(** Lines 194-278.  [reads ids] tells whether the catalog read of lines
    227-229 succeeds: a rejected query throws, and the [catch] answers
    500 before any order is created. *)
Definition checkout_with (reads : list string -> bool) (body : value)
  (db : Db) : Response * Db :=
  match intake body with
  | Throw => (server_error, db)
  | Ok (c, p, pm, g, norm) =>
      match norm with
      | [] => (no_items body, db)
      | _ :: _ =>
          let ids := lookup_ids norm in
          let found := findMany (products db) ids in
          let db := log (FindManyProducts ids) db in
          if reads ids then
            let priceMap := make_priceMap found in
            let data := make_order c p pm g priceMap norm in
            match order_create data db with
            | (Ok order, db) =>
                ({| status := 200;
                    json :=
                      Summary (order_id order) (total (order_data order))
                        (paymentMethod (order_data order))
                        (pickup (order_data order))
                        (List.length (items (order_data order))) |},
                 db)
            | (Throw, db) => (server_error, db)
            end
          else (server_error, db)
      end
  end.

(** The handler on a persistence layer whose catalog read succeeds. *)
Definition checkout (body : value) (db : Db) : Response * Db :=
  checkout_with (fun _ => true) body db.

End Checkout.

(** ** Notions used by the statements *)

(** The order [o] is created by the request: the order store after the
    handler is the store before it with [o] appended. *)
Definition creates (accepts : OrderData -> bool) (body : value) (db : Db)
  (o : Order) : Prop :=
  orders (snd (checkout accepts body db)) = orders db ++ [o].

(** The same, the catalog read succeeding or not. *)
Definition creates_with (accepts : OrderData -> bool)
  (reads : list string -> bool) (body : value) (db : Db) (o : Order) : Prop :=
  orders (snd (checkout_with accepts reads body db)) = orders db ++ [o].

(** The catalog entries fetched for a normalised list (lines 226-229), and
    the price map made of them (line 230). *)
Definition fetched (db : Db) (norm : list NormItem) : list Product :=
  findMany (products db) (lookup_ids norm).

Definition priceMap_of (db : Db) (norm : list NormItem)
  : list (string * value) :=
  make_priceMap (fetched db norm).

(** The [data] the handler hands to [prisma.order.create] once the intake
    gave the header fields and a normalised list. *)
Definition submitted (db : Db) (c p pm g : string) (norm : list NormItem)
  : OrderData :=
  make_order c p pm g (priceMap_of db norm) norm.

(** The sum of a list of numbers, accumulated from the left from 0. *)
Definition sum_left (l : list num) : num := fold_left num_add l zero.

(** The amount of a line: unit price times quantity. *)
Definition line_amount (priceMap : list (string * value)) (i : NormItem)
  : num :=
  num_mul (unit_price priceMap i) (effective_qty i).

(** The sum over the stored items of an order of price times quantity. *)
Definition items_sum (l : list OrderItem) : num :=
  sum_left (map (fun it => num_mul (item_price it) (item_qty it)) l).

(** The client-side price snapshot where it is finite, else 0. *)
Definition snapshot_or_zero (i : NormItem) : num :=
  if num_isFinite (priceSnap i) then priceSnap i else zero.

(** The three identifier fields of a raw item, in the order of line 211. *)
Definition id_fields (i : value) : result (list value) :=
  let* a := get i "productId" in
  let* b := get i "id" in
  let* c := get i "name" in
  Ok [a; b; c].

(** The identifier as the specification words it: the first of the fields
    that is there and is not the empty string, coerced to a string and
    trimmed; the empty string when there is none. *)
Definition non_empty (v : value) : bool :=
  match v with
  | VUndefined | VNull => false
  | VStr s => negb (is_empty s)
  | _ => true
  end.

Definition first_or (keep : value -> bool) (l : list value) (dflt : value)
  : value :=
  match find keep l with
  | Some v => v
  | None => dflt
  end.

Definition specified_identifier (i : value) : result string :=
  let* l := id_fields i in
  let* s := ToString (first_or non_empty l (VStr "")) in
  Ok (trim s).

(** The identifier as line 211 computes it: the first truthy field. *)
Definition truthy_identifier (i : value) : result string :=
  let* l := id_fields i in
  let* s := ToString (first_or truthy l (VStr "")) in
  Ok (trim s).

(** A quantity the handler keeps: a finite number above 0. *)
Definition valid_qty (n : num) : bool := num_isFinite n && num_gtb n zero.

(** The string starts with a white-space character. *)
Definition starts_with_space (s : string) : bool :=
  match s with
  | EmptyString => false
  | String a r =>
      is_space a
      || match r with
         | EmptyString => false
         | String b r2 =>
             is_space2 a b
             || match r2 with
                | EmptyString => false
                | String c _ => is_space3 a b c
                end
         end
  end.

(** No white space at the start. *)
Definition clean_start (s : string) : Prop := starts_with_space s = false.

(** The values that are not objects: [ToString] and [ToNumber] cannot
    throw on them. *)
Definition primitive (v : value) : bool :=
  match v with
  | VArr _ | VObj _ => false
  | _ => true
  end.

(** The top-level fields read by lines 198-201. *)
Definition header_fields : list string :=
  ["campus"; "pickup"; "paymentMethod"; "gcashNumber"].

(** [Number(i.qty ?? i.quantity ?? 1)] and [Number(i.price ?? 0)], read
    off the raw item. *)
Definition coerced_qty (i : value) : result num :=
  ToNumber
    (coalesce (coalesce (get_opt i "qty") (get_opt i "quantity")) (VNum one)).

Definition coerced_price (i : value) : result num :=
  ToNumber (coalesce (get_opt i "price") (VNum zero)).

(** ** Sample requests *)

Definition js_int (z : Z) : value := VNum (num_of_Z z).

(** The number [JSON.parse] reads from the literal [m]e[e]: the binary64
    number nearest to it. *)
Definition js_number (m e : Z) : num := binary64 (Dec m e).
Definition js_num (m e : Z) : value := VNum (js_number m e).

(** A store that takes every order. *)
Definition accept_all (_ : OrderData) : bool := true.

(** A catalog with the single product [p2] at 40, no order yet. *)
Definition demo_db : Db :=
  {| products := [ {| product_id := "p2"; product_price := 40 |} ];
     orders := [];
     calls := [] |}.

(** [{ items: [{ id: "p1", qty: 2, price: 50 }] }] *)
Definition payload_p1 : value :=
  VObj [("items",
         VArr [VObj [("id", VStr "p1"); ("qty", js_int 2);
                     ("price", js_int 50)]])].

(** [{ items: [{ productId: "p2", quantity: 3 }] }] *)
Definition payload_p2 : value :=
  VObj [("items",
         VArr [VObj [("productId", VStr "p2"); ("quantity", js_int 3)]])].

(** [{ cart: [{ name: "x", qty: 0, price: 10 }] }] *)
Definition payload_x : value :=
  VObj [("cart",
         VArr [VObj [("name", VStr "x"); ("qty", js_int 0);
                     ("price", js_int 10)]])].

(** What [payload_x] normalises to, and the order it leads to when the
    catalog has no product [x]. *)
Definition norm_x : NormItem :=
  {| productId := "x"; qty := zero; priceSnap := num_of_Z 10 |}.

Definition order_x : OrderData :=
  {| campus := "ADMU"; pickup := "Gate 2.5"; paymentMethod := "gcash";
     gcashNumber := Some ""; total := num_of_Z 10;
     items :=
       [ {| item_productId := "x"; item_qty := one;
            item_price := num_of_Z 10 |} ] |}.

(** [[{ price: -5 }]] *)
Definition payload_negative : value :=
  VArr [VObj [("price", js_int (-5))]].



(** [[{ price: 0.29, qty: 50 }]], with what it normalises to. *)
Definition payload_cents : value :=
  VArr [VObj [("price", js_num 29 (-2)); ("qty", js_int 50)]].

Definition norm_cents : list NormItem :=
  [ {| productId := ""; qty := num_of_Z 50;
       priceSnap := js_number 29 (-2) |} ].





(** [[{ productId: "p2", qty: 1, price: 1 }]] *)
Definition payload_underpriced : value :=
  VArr [VObj [("productId", VStr "p2"); ("qty", js_int 1);
              ("price", js_int 1)]].

(** The raw item [{ qty: 0, price: -5 }]. *)
Definition item_zero_qty : value :=
  VObj [("qty", js_int 0); ("price", js_int (-5))].

(** The raw items [{ productId: 0 }] and [{ productId: 0, id: "p1" }]. *)
Definition item_id_zero : value := VObj [("productId", js_int 0)].
Definition item_id_zero_p1 : value :=
  VObj [("productId", js_int 0); ("id", VStr "p1")].

(** [{ campus: { toString: 1 } }] *)
Definition payload_bad_campus : value :=
  VObj [("campus", VObj [("toString", js_int 1)])].

(** [{ paymentMethod: "cod", gcashNumber: "0917", items: [{ name: "pen" }] }] *)
Definition payload_cod : value :=
  VObj [("paymentMethod", VStr "cod"); ("gcashNumber", VStr "0917");
        ("items", VArr [VObj [("name", VStr "pen")]])].

(** ** Further notions about the checkout handler *)

(** The properties of a raw item that lines 211-213 read, and the
    properties of the body that lines 198-207 read. *)
Definition item_keys : list string :=
  ["productId"; "id"; "name"; "qty"; "quantity"; "price"].

Definition body_keys : list string :=
  ["campus"; "pickup"; "paymentMethod"; "gcashNumber"; "items"; "cart"].

(** Two lists of own properties that agree on the given names. *)
Definition agree_on (keys : list string) (f1 f2 : list (string * value))
  : Prop :=
  forall k, In k keys -> assoc k f1 = assoc k f2.

(** A number that is finite and not below 0. *)
Definition not_negative (x : num) : Prop :=
  match x with
  | Fin d => 0 <= mant d
  | _ => False
  end.

(** A decimal in canonical form: a mantissa that does not end in 0, or
    the 0 of exponent 0. *)
Definition canonical (d : dec) : Prop := canon (mant d) (expo d) = d.

(** [z] is the integer nearest to [d], the larger one of two integers
    that are as near: [z - 1/2 <= d < z + 1/2]. *)
Definition nearest_integer (d : dec) (z : Z) : Prop :=
  (2 * z - 1) * 10 ^ Z.max 0 (- expo d)
    <= 2 * mant d * 10 ^ Z.max 0 (expo d)
    < (2 * z + 1) * 10 ^ Z.max 0 (- expo d).

(** The sum of a list of integers. *)
Definition Zsum (l : list Z) : Z := fold_right Z.add 0 l.

(** A finite number above 0, or the canonical 0. *)
Definition settled (x : num) : Prop :=
  match x with
  | Fin d => 0 < mant d \/ d = Dec 0 0
  | _ => False
  end.

(** The same, or [+Infinity]: what a sum of products of numbers that are
    not negative can be, once additions may overflow. *)
Definition at_least_zero (x : num) : Prop :=
  match x with
  | Fin d => 0 < mant d \/ d = Dec 0 0
  | PInf => True
  | _ => False
  end.

(** [[{ id: "p1", qty: 2, price: 50 }, null]]: a good item, then [null]. *)
Definition payload_null_item : value :=
  VArr [VObj [("id", VStr "p1"); ("qty", js_int 2); ("price", js_int 50)];
        VNull].

(** [payload_p1] with a [total] and a [discount] the handler does not
    read. *)
Definition payload_p1_tampered : value :=
  VObj [("total", js_int 1); ("discount", js_int 99);
        ("items",
         VArr [VObj [("id", VStr "p1"); ("qty", js_int 2);
                     ("price", js_int 50)]])].

(** ** Order details (lines 281-298) *)

(** The responses of [GET /api/orders/:orderId]: the stored order with its
    items, or an error body. *)
Inductive OrderJson : Type :=
| OrderFound (order : Order)
| OrderError (error : string).

Record OrderResponse : Type := {
  order_status : nat;
  order_json : OrderJson
}.

(** Modelled from the spec: [prisma.order.findUnique({ where: { id },
    include: { items: true } })], the "find order by id" of the
    persistence layer (spec section 6).  The identifier is compared with
    the identifiers the store handed out. *)
Definition findUnique (orderId : nat) (db : Db) : option Order :=
  find (fun o => Nat.eqb (order_id o) orderId) (orders db).

(** Lines 281-298; the route parameter is the [orderId] a checkout
    response reported. *)
Definition get_order (orderId : nat) (db : Db) : OrderResponse :=
  match findUnique orderId db with
  | None => {| order_status := 404; order_json := OrderError "Order not found" |}
  | Some order => {| order_status := 200; order_json := OrderFound order |}
  end.

(** The persistence layer after a sequence of checkout requests. *)
Definition serve (accepts : OrderData -> bool) (bodies : list value)
  (db : Db) : Db :=
  fold_left (fun db body => snd (checkout accepts body db)) bodies db.

(** The orders of the store are numbered by their position. *)
Definition numbered (l : list Order) : Prop :=
  forall k o, nth_error l k = Some o -> order_id o = k.

(** ** The CORS origin check (lines 10-15) *)

(** [s] without the prefix [p], when [s] starts with [p]. *)
Fixpoint strip_prefix (p s : string) : option string :=
  match p with
  | EmptyString => Some s
  | String a p' =>
      match s with
      | EmptyString => None
      | String b s' => if Ascii.eqb a b then strip_prefix p' s' else None
      end
  end.

(** The class [\d]: the decimal digits [0] to [9]. *)
Definition is_digit (c : ascii) : bool :=
  let n := nat_of_ascii c in (Nat.leb 48 n && Nat.leb n 57)%bool.

Fixpoint all_digits (s : string) : bool :=
  match s with
  | EmptyString => true
  | String c r => is_digit c && all_digits r
  end.

(** [/^http:\/\/localhost:\d+$/.test(s)]: the fixed prefix, then one digit
    or more up to the end of the string. *)
Definition localhost_origin (s : string) : bool :=
  match strip_prefix "http://localhost:" s with
  | Some port => negb (is_empty port) && all_digits port
  | None => false
  end.

(** Lines 11-15: the second argument given to [cb].  The [Origin] header
    is absent ([None]) or a string. *)
Definition origin_allowed (origin : option string) : bool :=
  match origin with
  | None => true
  | Some s => if is_empty s then true else localhost_origin s
  end.

(** ** Seeding the catalog (lines 41-99) *)

Module Seed.

(** One element of the [data] of [prisma.product.createMany]. *)
Record ProductData : Type := {
  name : string;
  description : string;
  price : Z;
  campus : string;
  category : string;
  imageUrl : string
}.

(** A stored product: the identifier given by the store, and the data. *)
Record Row : Type := {
  row_id : string;
  row_data : ProductData
}.

(** Lines 46-95. *)
Definition seed_data : list ProductData :=
  [ {| name := "GE Book: Ethics";
       description :=
         "Lightly used GE book. Minimal highlights. Perfect for Term 2.";
       price := 120; campus := "ADMU"; category := "Books";
       imageUrl := "https://picsum.photos/seed/book/400/300" |};
    {| name := "A4 Bond Paper (500s)";
       description := "Brand new, sealed pack. Great for printing reports.";
       price := 180; campus := "ADMU"; category := "School Supplies";
       imageUrl := "https://picsum.photos/seed/paper/400/300" |};
    {| name := "Preloved Hoodie";
       description := "Size M. Slight fading but very comfy. No holes.";
       price := 130; campus := "ADMU"; category := "Preloved";
       imageUrl := "https://picsum.photos/seed/hood/400/300" |};
    {| name := "Wired Earphones";
       description := "Working condition. Good bass. Includes case.";
       price := 150; campus := "UPD"; category := "Gadgets";
       imageUrl := "https://picsum.photos/seed/ear/400/300" |};
    {| name := "Calculus Textbook";
       description := "Complete with solution manual. Barely used.";
       price := 200; campus := "ADMU"; category := "Books";
       imageUrl := "https://picsum.photos/seed/calc/400/300" |};
    {| name := "Wireless Mouse";
       description := "Logitech M170. Battery included. Works perfectly.";
       price := 180; campus := "UPD"; category := "Gadgets";
       imageUrl := "https://picsum.photos/seed/mouse/400/300" |} ].

(** The responses of [GET /api/seed] (status 200 in both cases). *)
Inductive SeedJson : Type :=
| AlreadySeeded (ok : bool) (count : nat) (message : string)
| Seeded (ok : bool) (message : string).

(** What the checkout handler sees of a stored product. *)
Definition to_product (r : Row) : Product :=
  {| product_id := row_id r; product_price := price (row_data r) |}.

Section Store.

(** The identifier the store gives to the [k]-th product ever created;
    how Prisma makes identifiers is not part of [src/]. *)
Variable new_id : nat -> string.

(** Modelled from the spec: [prisma.product.createMany], the "create many
    products" of the persistence layer (spec section 6): the rows are
    added after the existing ones, each under a new identifier. *)
Fixpoint createMany (data : list ProductData) (table : list Row)
  : list Row :=
  match data with
  | [] => table
  | d :: data' =>
      createMany data'
        (table ++ [ {| row_id := new_id (List.length table); row_data := d |} ])
  end.

(** Lines 41-99; [prisma.product.count()] is the number of rows. *)
Definition seed (table : list Row) : SeedJson * list Row :=
  let count := List.length table in
  if Nat.ltb 0 count then
    (AlreadySeeded true count "Products already seeded", table)
  else
    (Seeded true "Products seeded successfully", createMany seed_data table).

End Store.

End Seed.

(** ** The delivery estimate (lines 130-191) *)

(** [Math.ceil(x / k)] for a positive integer constant [k] (the source
    divides by 100 and by 60).  The quotient itself is not kept: its
    ceiling is computed exactly. *)
Definition ceil_quot (x : num) (k : Z) : num :=
  match x with
  | Fin d =>
      let z :=
        if 0 <=? expo d then - ((- (mant d * 10 ^ expo d)) / k)
        else - ((- mant d) / (k * 10 ^ (- expo d))) in
      num_of_Z z
  | _ => x
  end.

(** [Math.ceil(x)]. *)
Definition Math_ceil (x : num) : num := ceil_quot x 1.

Module Estimate.

(** What a name gives in [COORDS]: a point (longitude, latitude); a
    property inherited from [Object.prototype], [COORDS] being an object
    literal; or [undefined]. *)
Inductive Entry : Type :=
| Point (lon lat : num)
| Inherited
| Absent.

Definition point (lon_m lon_e lat_m lat_e : Z) : num * num :=
  (Fin (canon lon_m lon_e), Fin (canon lat_m lat_e)).

(** Lines 130-141. *)
Definition COORDS : list (string * (num * num)) :=
  [ ("SEC-A Lobby", point 12107793 (-5) 1464068 (-5));
    ("Gate 2.5", point 12107888 (-5) 146418 (-4));
    ("Regis", point 12107496 (-5) 1463995 (-5));
    ("Katipunan LRT", point 12107309 (-5) 1463909 (-5));
    ("AS Steps", point 1210647 (-4) 146547 (-4));
    ("Shopping Center", point 1210657 (-4) 14653 (-3));
    ("Sunken Garden", point 1210644 (-4) 146536 (-4));
    ("Main Gate", point 120989 (-3) 146096 (-4));
    ("Quadricentennial Park", point 1209898 (-4) 146101 (-4));
    ("Beato Library", point 1209904 (-4) 146092 (-4)) ].

(** The property names of [Object.prototype]; each holds a function, or
    the prototype itself for [__proto__]: truthy values. *)
Definition object_prototype_names : list string :=
  [ "constructor"; "__defineGetter__"; "__defineSetter__"; "hasOwnProperty";
    "__lookupGetter__"; "__lookupSetter__"; "isPrototypeOf";
    "propertyIsEnumerable"; "toString"; "valueOf"; "__proto__";
    "toLocaleString" ].

Fixpoint own_point (k : string) (l : list (string * (num * num)))
  : option (num * num) :=
  match l with
  | [] => None
  | (k', xy) :: r => if String.eqb k k' then Some xy else own_point k r
  end.

(** [COORDS[k]]. *)
Definition COORDS_at (k : string) : Entry :=
  match own_point k COORDS with
  | Some (lon, lat) => Point lon lat
  | None => if mem k object_prototype_names then Inherited else Absent
  end.

(** [!e]. *)
Definition falsy (e : Entry) : bool :=
  match e with
  | Absent => true
  | _ => false
  end.

(** What [fetch] and [r.json()] can come to: a rejected promise, or a
    response with its [ok] flag and its body, [Throw] when the body is
    not JSON. *)
Inductive FetchOutcome : Type :=
| NetworkFailure
| Reply (ok : bool) (body : result value).

(** The responses of [GET /api/estimate]. *)
Inductive EstimateJson : Type :=
| Figures (meters : value) (minutes fee : num)
| Fallback (meters minutes fee : num) (note : string)
| EstimateError (error : string).

Record EstimateResponse : Type := {
  est_status : nat;
  est_json : EstimateJson
}.

(** [v[0]] for a [v] that is neither [null] nor [undefined]. *)
Definition index0 (v : value) : value :=
  match v with
  | VArr (x :: _) => x
  | VStr (String c _) => VStr (String c EmptyString)
  | VObj fields =>
      match assoc "0" fields with
      | Some x => x
      | None => VUndefined
      end
  | _ => VUndefined
  end.

(** [data.features?.[0]?.properties?.summary?.k] (lines 167-168); reading
    [features] throws when [data] is [null].  None of the names read is
    inherited by a JSON value. *)
Definition summary_field (data : value) (k : string) : result value :=
  let* features := get data "features" in
  let first := if nullish features then VUndefined else index0 features in
  Ok (get_opt (get_opt (get_opt first "properties") "summary") k).

(** Line 169 and the [Math.ceil] of line 170, on the exact sum and
    product, as [ceil_quot] is on the exact quotient. *)
Definition fee_of (meters : num) : num :=
  Math_ceil
    (exact_add (num_of_Z 10)
       (exact_mul (ceil_quot meters 100) (Fin (Dec 5 (-1))))).

(** Lines 167-170: [meters], [minutes] and the fee sent back. *)
Definition figures (data : value) : result (value * num * num) :=
  let* distance := summary_field data "distance" in
  let meters := coalesce distance (js_int 500) in
  let* duration := summary_field data "duration" in
  let* seconds := ToNumber (coalesce duration (js_int 600)) in
  let* m := ToNumber meters in
  Ok (meters, ceil_quot seconds 60, fee_of m).

(** Lines 178-183. *)
Definition fallbackEstimates : EstimateResponse :=
  {| est_status := 200;
     est_json :=
       Fallback (num_of_Z 500) (num_of_Z 10) (num_of_Z 20)
         "Estimated values (API unavailable)" |}.

Section Handler.

(** [process.env.ORS_API_KEY], and what the call to OpenRouteService
    comes to for a pair of looked-up entries. *)
Variable api_key : option string.
Variable fetch : Entry -> Entry -> FetchOutcome.

Definition has_key : bool :=
  match api_key with
  | Some k => negb (is_empty k)
  | None => false
  end.

(** Lines 143-191.  [from] and [to] are what [req.query] holds; a property
    key is the string of the value.  The second component lists the
    calls made to OpenRouteService. *)
Definition estimate (from to : value)
  : EstimateResponse * list (Entry * Entry) :=
  match (let* kf := ToString from in
         let* kt := ToString to in
         Ok (COORDS_at kf, COORDS_at kt)) with
  | Throw =>
      ({| est_status := 500;
          est_json := EstimateError "Failed to calculate estimate" |}, [])
  | Ok (start, end_) =>
      if falsy start || falsy end_ then
        ({| est_status := 400;
            est_json := EstimateError "Unknown pickup point" |}, [])
      else if has_key then
        match fetch start end_ with
        | Reply true (Ok data) =>
            match figures data with
            | Ok (meters, minutes, fee) =>
                ({| est_status := 200;
                    est_json := Figures meters minutes fee |},
                 [(start, end_)])
            | Throw => (fallbackEstimates, [(start, end_)])
            end
        | _ => (fallbackEstimates, [(start, end_)])
        end
      else (fallbackEstimates, [])
  end.

End Handler.


End Estimate.

(** ** Further samples *)

(** Identifiers ["a"], ["b"], ... for the products created in turn. *)
Definition demo_id (k : nat) : string :=
  String (ascii_of_nat (97 + k)) EmptyString.

(** A string made of white-space characters only. *)
Fixpoint all_space (s : string) : bool :=
  match s with
  | EmptyString => true
  | String a r =>
      if is_space a then all_space r
      else
        match r with
        | EmptyString => false
        | String b r2 =>
            if is_space2 a b then all_space r2
            else
              match r2 with
              | EmptyString => false
              | String c r3 => is_space3 a b c && all_space r3
              end
        end
  end.

(** The first byte of a white-space character. *)
Definition lead_byte (c : ascii) : Prop :=
  let n := N_of_ascii c in
  (9 <= n <= 13 \/ n = 32 \/ n = 194 \/ n = 225 \/ n = 226 \/ n = 227 \/
   n = 239)%N.

(** The string is empty or starts with such a byte. *)
Definition starts_lead (s : string) : Prop :=
  match s with
  | EmptyString => True
  | String c _ => lead_byte c
  end.

(** U+00A0 (no-break space), U+2028 (line separator) and U+FEFF (byte
    order mark) in UTF-8. *)
Definition nbsp : string :=
  String (ascii_of_N 194) (String (ascii_of_N 160) EmptyString).

Definition line_separator : string :=
  String (ascii_of_N 226)
    (String (ascii_of_N 128) (String (ascii_of_N 168) EmptyString)).

Definition byte_order_mark : string :=
  String (ascii_of_N 239)
    (String (ascii_of_N 187) (String (ascii_of_N 191) EmptyString)).


(** ** Numbers: order *)

Lemma dec_ltb_asym (a b : dec) : dec_ltb a b = true -> dec_ltb b a = false.
Proof.
  unfold dec_ltb, align. rewrite (Z.min_comm (expo b) (expo a)).
  intros H. apply Z.ltb_lt in H. apply Z.ltb_ge. lia.
Qed.

Lemma num_ltb_asym (x y : num) : num_ltb x y = true -> num_ltb y x = false.
Proof.
  destruct x, y; simpl; try reflexivity; try discriminate.
  apply dec_ltb_asym.
Qed.

Lemma num_ltb_irrefl (x : num) : num_ltb x x = false.
Proof.
  destruct (num_ltb x x) eqn:E; [ | reflexivity ].
  pose proof (num_ltb_asym _ _ E) as E'. congruence.
Qed.

Lemma Math_max_zero_cases (x : num) :
  (x = NaN /\ Math_max zero x = NaN) \/
  (num_ltb zero x = true /\ Math_max zero x = x) \/
  (num_ltb zero x = false /\ Math_max zero x = zero).
Proof.
  destruct x; [ left; split; reflexivity | right .. ];
    unfold Math_max, zero, num_of_Z; simpl;
    match goal with
    | |- context [dec_ltb ?a ?b] => destruct (dec_ltb a b); auto
    | _ => auto
    end.
Qed.

Lemma Math_max_zero_not_negative (x : num) :
  num_ltb (Math_max zero x) zero = false.
Proof.
  destruct (Math_max_zero_cases x) as [[_ ->] | [[H ->] | [_ ->]]].
  - reflexivity.
  - now apply num_ltb_asym.
  - apply num_ltb_irrefl.
Qed.

(** ** Numbers: canonical form *)

Lemma pow10_pos (k : Z) : 0 <= k -> 0 < 10 ^ k.
Proof. intros Hk. apply Z.pow_pos_nonneg; lia. Qed.

Lemma strip_zeros_pos (fuel : nat) (m e : Z) :
  0 < m -> 0 < mant (strip_zeros fuel m e).
Proof.
  revert m e. induction fuel as [ | fuel IH ]; intros m e Hm; simpl.
  - exact Hm.
  - destruct (m =? 0) eqn:E0; [ apply Z.eqb_eq in E0; lia | ].
    destruct (m mod 10 =? 0) eqn:E10; [ | exact Hm ].
    apply IH. apply Z.eqb_eq in E10.
    pose proof (Z_div_mod_eq_full m 10). lia.
Qed.

Lemma strip_zeros_value (fuel : nat) (m e : Z) :
  m <> 0 ->
  exists k,
    0 <= k /\
    m = mant (strip_zeros fuel m e) * 10 ^ k /\
    expo (strip_zeros fuel m e) = e + k.
Proof.
  revert m e. induction fuel as [ | fuel IH ]; intros m e Hm; simpl.
  - exists 0. simpl. lia.
  - destruct (m =? 0) eqn:E0; [ apply Z.eqb_eq in E0; contradiction | ].
    destruct (m mod 10 =? 0) eqn:E10.
    + apply Z.eqb_eq in E10. pose proof (Z_div_mod_eq_full m 10) as Hdiv.
      destruct (IH (m / 10) (e + 1)) as (k & Hk & Hv & He); [ lia | ].
      exists (k + 1). split; [ lia | ]. split; [ | lia ].
      rewrite Z.pow_add_r by lia. change (10 ^ 1) with 10. lia.
    + exists 0. simpl. lia.
Qed.

Lemma canon_value (m e : Z) :
  m <> 0 ->
  exists k,
    0 <= k /\ m = mant (canon m e) * 10 ^ k /\ expo (canon m e) = e + k.
Proof. intros Hm. unfold canon. now apply strip_zeros_value. Qed.

Lemma canon_settled (m e : Z) : 0 <= m -> settled (Fin (canon m e)).
Proof.
  intros Hm. unfold canon.
  set (fuel := Z.to_nat (Z.log2 (Z.abs m))).
  destruct (Z.eq_dec m 0) as [-> | Hne].
  - right. reflexivity.
  - left. apply strip_zeros_pos. lia.
Qed.


Lemma strip_zeros_done (fuel : nat) (m e : Z) :
  m <> 0 -> Z.abs m < 2 ^ Z.of_nat fuel ->
  mant (strip_zeros fuel m e) mod 10 <> 0.
Proof.
  revert m e. induction fuel as [ | fuel IH ]; intros m e Hm Hb.
  - simpl in Hb. lia.
  - cbn [strip_zeros].
    destruct (m =? 0) eqn:E0; [ apply Z.eqb_eq in E0; contradiction | ].
    destruct (m mod 10 =? 0) eqn:E10.
    + apply Z.eqb_eq in E10. pose proof (Z_div_mod_eq_full m 10) as Hd.
      rewrite Nat2Z.inj_succ, Z.pow_succ_r in Hb by lia.
      apply IH; lia.
    + apply Z.eqb_neq in E10. exact E10.
Qed.

(** The mantissa of a canonical decimal other than 0 does not end in 0. *)
Lemma canon_mod (m e : Z) : m <> 0 -> mant (canon m e) mod 10 <> 0.
Proof.
  intros Hm. unfold canon. apply strip_zeros_done; [ exact Hm | ].
  rewrite Nat2Z.inj_succ, Z2Nat.id by apply Z.log2_nonneg.
  apply Z.log2_spec. lia.
Qed.

Lemma pow10_mod (m k : Z) : 0 < k -> (m * 10 ^ k) mod 10 = 0.
Proof.
  intros Hk. replace k with (k - 1 + 1) by lia.
  rewrite Z.pow_add_r by lia. change (10 ^ 1) with 10.
  rewrite Z.mul_assoc. apply Z_mod_mult.
Qed.

Lemma canonical_unique (m1 m2 k1 k2 : Z) :
  m1 mod 10 <> 0 -> m2 mod 10 <> 0 -> 0 <= k1 -> 0 <= k2 ->
  m1 * 10 ^ k1 = m2 * 10 ^ k2 -> m1 = m2 /\ k1 = k2.
Proof.
  intros H1 H2 Hk1 Hk2 E.
  assert (P1 : 0 < 10 ^ k1) by now apply pow10_pos.
  assert (P2 : 0 < 10 ^ k2) by now apply pow10_pos.
  destruct (Z.lt_trichotomy k1 k2) as [L | [L | L]].
  - exfalso. apply H1.
    replace k2 with (k2 - k1 + k1) in E by lia.
    rewrite Z.pow_add_r, Z.mul_assoc in E by lia.
    apply Z.mul_reg_r in E; [ | lia ]. rewrite E. apply pow10_mod. lia.
  - subst k2. split; [ | reflexivity ].
    apply Z.mul_reg_r in E; [ exact E | lia ].
  - exfalso. apply H2.
    replace k1 with (k1 - k2 + k2) in E by lia.
    rewrite Z.pow_add_r, Z.mul_assoc in E by lia.
    apply Z.mul_reg_r in E; [ | lia ]. rewrite <- E. apply pow10_mod. lia.
Qed.

(** The canonical form depends on the value only. *)
Lemma canon_shift (m e k : Z) :
  0 <= k -> canon (m * 10 ^ k) (e - k) = canon m e.
Proof.
  intros Hk. destruct (Z.eq_dec m 0) as [-> | Hm]; [ reflexivity | ].
  assert (Hp : 0 < 10 ^ k) by now apply pow10_pos.
  assert (Hmk : m * 10 ^ k <> 0) by nia.
  destruct (canon_value (m * 10 ^ k) (e - k) Hmk) as (j1 & Hj1 & Hv1 & He1).
  destruct (canon_value m e Hm) as (j2 & Hj2 & Hv2 & He2).
  pose proof (canon_mod (m * 10 ^ k) (e - k) Hmk) as Hm1.
  pose proof (canon_mod m e Hm) as Hm2.
  destruct (canon (m * 10 ^ k) (e - k)) as [M1 E1].
  destruct (canon m e) as [M2 E2]. cbn [mant expo] in *.
  rewrite Hv2 in Hv1 at 1.
  rewrite <- Z.mul_assoc, <- Z.pow_add_r in Hv1 by lia.
  destruct (canonical_unique M2 M1 (j2 + k) j1) as [-> <-];
    try assumption; try lia.
  f_equal. lia.
Qed.

Lemma canon_same (m1 e1 m2 e2 a b : Z) :
  0 <= a -> 0 <= b -> m1 * 10 ^ a = m2 * 10 ^ b -> e1 - a = e2 - b ->
  canon m1 e1 = canon m2 e2.
Proof.
  intros Ha Hb Hv He.
  rewrite <- (canon_shift m1 e1 a Ha), <- (canon_shift m2 e2 b Hb).
  congruence.
Qed.

Lemma canon_canonical (m e : Z) : canonical (canon m e).
Proof.
  unfold canonical. destruct (Z.eq_dec m 0) as [-> | Hm]; [ reflexivity | ].
  destruct (canon_value m e Hm) as (k & Hk & Hv & He).
  rewrite <- (canon_shift (mant (canon m e)) (expo (canon m e)) k Hk).
  rewrite <- Hv. f_equal. lia.
Qed.

(** ** Numbers: whole numbers *)

Lemma dec_of_Z_value (z : Z) :
  0 <= expo (dec_of_Z z) /\
  mant (dec_of_Z z) * 10 ^ expo (dec_of_Z z) = z.
Proof.
  destruct (Z.eq_dec z 0) as [-> | Hz]; [ split; [ simpl; lia | reflexivity ] | ].
  destruct (canon_value z 0 Hz) as (k & Hk & Hv & He).
  unfold dec_of_Z. rewrite He, Z.add_0_l. split; [ exact Hk | now symmetry ].
Qed.

Lemma canonical_whole (d : dec) :
  canonical d -> 0 <= expo d -> Fin d = num_of_Z (mant d * 10 ^ expo d).
Proof.
  intros Hc He. unfold canonical in Hc. unfold num_of_Z, dec_of_Z. f_equal.
  rewrite <- Hc at 1. symmetry.
  rewrite <- (canon_shift (mant d) (expo d) (expo d) He). f_equal. lia.
Qed.

Lemma dec_add_whole (a b : Z) :
  dec_add (dec_of_Z a) (dec_of_Z b) = dec_of_Z (a + b).
Proof.
  destruct (dec_of_Z_value a) as [Ha Va], (dec_of_Z_value b) as [Hb Vb].
  unfold dec_add, align.
  set (e := Z.min (expo (dec_of_Z a)) (expo (dec_of_Z b))).
  unfold dec_of_Z at 5.
  apply (canon_same _ _ _ _ e 0); try lia.
  rewrite Z.mul_add_distr_r, <- !Z.mul_assoc, <- !Z.pow_add_r by lia.
  replace (expo (dec_of_Z a) - e + e) with (expo (dec_of_Z a)) by lia.
  replace (expo (dec_of_Z b) - e + e) with (expo (dec_of_Z b)) by lia.
  rewrite Va, Vb. lia.
Qed.

Lemma dec_mul_whole (a b : Z) :
  dec_mul (dec_of_Z a) (dec_of_Z b) = dec_of_Z (a * b).
Proof.
  destruct (dec_of_Z_value a) as [Ha Va], (dec_of_Z_value b) as [Hb Vb].
  unfold dec_mul. unfold dec_of_Z at 5.
  apply (canon_same _ _ _ _ (expo (dec_of_Z a) + expo (dec_of_Z b)) 0);
    try lia.
  rewrite Z.pow_add_r by lia.
  change (10 ^ 0) with 1.
  transitivity
    (mant (dec_of_Z a) * 10 ^ expo (dec_of_Z a) *
     (mant (dec_of_Z b) * 10 ^ expo (dec_of_Z b))); [ ring | ].
  rewrite Va, Vb. ring.
Qed.

Lemma binade_whole (N : Z) : 0 < N -> binade N 1 = Z.log2 N.
Proof.
  intros HN. unfold binade. change (Z.log2 1) with 0. rewrite Z.sub_0_r.
  cbv zeta. pose proof (Z.log2_nonneg N) as Hl.
  destruct (0 <=? Z.log2 N) eqn:E; [ | apply Z.leb_gt in E; lia ].
  destruct (N <? 1 * 2 ^ Z.log2 N) eqn:E'; [ | reflexivity ].
  apply Z.ltb_lt in E'. pose proof (Z.log2_spec N HN). lia.
Qed.

Lemma nearest_even_whole (N q : Z) :
  q <= 0 -> nearest_even N 1 q = N * 2 ^ (- q).
Proof.
  intros Hq. unfold nearest_even. cbv zeta.
  assert (EA : (if 0 <=? q then N else N * 2 ^ (- q)) = N * 2 ^ (- q)).
  { destruct (0 <=? q) eqn:E; [ | reflexivity ].
    apply Z.leb_le in E. replace q with 0 by lia. simpl. lia. }
  assert (EB : (if 0 <=? q then 1 * 2 ^ q else 1) = 1).
  { destruct (0 <=? q) eqn:E; [ | reflexivity ].
    apply Z.leb_le in E. replace q with 0 by lia. reflexivity. }
  rewrite EA, EB, Z.div_1_r, Z.mod_1_r. reflexivity.
Qed.

(** A whole number below [2^53] in absolute value is a number of
    JavaScript: rounding leaves it as it is. *)
Lemma binary64_whole (z : Z) :
  Z.abs z < 2 ^ 53 -> binary64 (dec_of_Z z) = Fin (dec_of_Z z).
Proof.
  intros Hz. destruct (Z.eq_dec z 0) as [-> | Hne]; [ reflexivity | ].
  destruct (dec_of_Z_value z) as [He Hv].
  unfold binary64. cbv zeta.
  set (m := mant (dec_of_Z z)) in *. set (e := expo (dec_of_Z z)) in *.
  assert (Hp : 0 < 10 ^ e) by now apply pow10_pos.
  assert (Hm : m <> 0) by (intros E; rewrite E in Hv; simpl in Hv; lia).
  destruct (m =? 0) eqn:E0; [ apply Z.eqb_eq in E0; contradiction | ].
  destruct (0 <=? e) eqn:Ee; [ | apply Z.leb_gt in Ee; lia ].
  assert (HN : Z.abs m * 10 ^ e = Z.abs z)
    by (rewrite <- Hv, Z.abs_mul, (Z.abs_eq (10 ^ e)) by lia; reflexivity).
  rewrite HN. rewrite binade_whole by lia.
  assert (Hl : 0 <= Z.log2 (Z.abs z) < 53).
  { split; [ apply Z.log2_nonneg | ].
    apply Z.log2_lt_pow2; lia. }
  set (q := Z.max (Z.log2 (Z.abs z) - 52) (-1074)).
  assert (Hq : -52 <= q <= 0) by (unfold q; lia).
  rewrite nearest_even_whole by lia.
  destruct (971 <? q) eqn:E1; [ apply Z.ltb_lt in E1; lia | ].
  destruct (q =? 971) eqn:E2; [ apply Z.eqb_eq in E2; lia | ].
  cbn [orb andb].
  assert (Hs : Z.sgn m * (Z.abs z * 2 ^ (- q)) = z * 2 ^ (- q)).
  { assert (Z.sgn m = Z.sgn z)
      by (rewrite <- Hv, Z.sgn_mul, (Z.sgn_pos (10 ^ e)) by lia; lia).
    rewrite Z.mul_assoc. f_equal. lia. }
  rewrite Hs. unfold dec_of_Z.
  destruct (0 <=? q) eqn:E3; f_equal.
  - apply Z.leb_le in E3. replace q with 0 by lia. f_equal. simpl. lia.
  - rewrite <- Z.mul_assoc, <- Z.pow_mul_l. change (2 * 5) with 10.
    rewrite <- (canon_shift z 0 (- q)) by lia. f_equal. lia.
Qed.

Lemma num_add_whole (a b : Z) :
  Z.abs (a + b) < 2 ^ 53 ->
  num_add (num_of_Z a) (num_of_Z b) = num_of_Z (a + b).
Proof.
  intros H. unfold num_add, num_of_Z. cbn [exact_add to_binary64].
  rewrite dec_add_whole. now apply binary64_whole.
Qed.

Lemma num_mul_whole (a b : Z) :
  Z.abs (a * b) < 2 ^ 53 ->
  num_mul (num_of_Z a) (num_of_Z b) = num_of_Z (a * b).
Proof.
  intros H. unfold num_mul, num_of_Z. cbn [exact_mul to_binary64].
  rewrite dec_mul_whole. now apply binary64_whole.
Qed.

Lemma Math_round_whole (z : Z) : Math_round (num_of_Z z) = num_of_Z z.
Proof.
  unfold Math_round, num_of_Z, dec_round.
  destruct (dec_of_Z_value z) as [He _].
  destruct (0 <=? expo (dec_of_Z z)) eqn:E; [ reflexivity | ].
  apply Z.leb_gt in E. lia.
Qed.

Lemma gtb_zero_pos (d : dec) : num_gtb (Fin d) zero = true <-> 0 < mant d.
Proof.
  unfold num_gtb, zero, num_of_Z. simpl.
  change (dec_of_Z 0) with (Dec 0 0). unfold dec_ltb, align. simpl.
  assert (Hp : 0 < 10 ^ (expo d - Z.min 0 (expo d))) by (apply pow10_pos; lia).
  rewrite Z.ltb_lt. split; intros H; nia.
Qed.

Lemma ltb_zero_false (d : dec) :
  num_ltb (Fin d) zero = false <-> 0 <= mant d.
Proof.
  unfold zero, num_of_Z. simpl.
  change (dec_of_Z 0) with (Dec 0 0). unfold dec_ltb, align. simpl.
  assert (Hp : 0 < 10 ^ (expo d - Z.min (expo d) 0)) by (apply pow10_pos; lia).
  rewrite Z.ltb_ge. split; intros H; nia.
Qed.

Lemma Math_max_zero_whole (z : Z) :
  Math_max zero (num_of_Z z) = num_of_Z (Z.max 0 z).
Proof.
  destruct (dec_of_Z_value z) as [He Hv].
  assert (Hp : 0 < 10 ^ expo (dec_of_Z z)) by now apply pow10_pos.
  destruct (Math_max_zero_cases (num_of_Z z)) as [[E _] | [[H ->] | [H ->]]].
  - discriminate.
  - apply gtb_zero_pos in H. f_equal. nia.
  - unfold num_of_Z in H.
    destruct (Z.max_spec 0 z) as [[Hz ->] | [Hz ->]]; [ | reflexivity ].
    exfalso. assert (Hm : 0 < mant (dec_of_Z z)) by nia.
    apply gtb_zero_pos in Hm. unfold num_gtb in Hm. congruence.
Qed.

(** ** Numbers: the rounding of [binary64] *)

(** [binade N D] is the [k] with [2^k <= N / D < 2^(k+1)]. *)
Lemma binade_spec (N D : Z) :
  0 < N -> 0 < D ->
  D * 2 ^ Z.max 0 (binade N D) <= N * 2 ^ Z.max 0 (- binade N D)
    < 2 * D * 2 ^ Z.max 0 (binade N D).
Proof.
  intros HN HD. unfold binade. cbv zeta.
  pose proof (Z.log2_spec N HN) as [LN1 LN2].
  pose proof (Z.log2_spec D HD) as [LD1 LD2].
  pose proof (Z.log2_nonneg N) as Ha0. pose proof (Z.log2_nonneg D) as Hb0.
  set (a := Z.log2 N) in *. set (b := Z.log2 D) in *.
  rewrite Z.pow_succ_r in LN2, LD2 by lia.
  assert (Pa : 0 < 2 ^ a) by (apply Z.pow_pos_nonneg; lia).
  assert (Pb : 0 < 2 ^ b) by (apply Z.pow_pos_nonneg; lia).
  destruct (0 <=? a - b) eqn:E0.
  - apply Z.leb_le in E0.
    assert (Hab : 2 ^ a = 2 ^ b * 2 ^ (a - b))
      by (rewrite <- Z.pow_add_r by lia; f_equal; lia).
    assert (Pk : 0 < 2 ^ (a - b)) by (apply Z.pow_pos_nonneg; lia).
    destruct (N <? D * 2 ^ (a - b)) eqn:E1.
    + apply Z.ltb_lt in E1.
      destruct (Z.eq_dec (a - b) 0) as [Z0 | NZ].
      * rewrite Z0 in *. change (0 - 1) with (-1).
        change (Z.max 0 (-1)) with 0. change (Z.max 0 (- -1)) with 1.
        change (2 ^ 0) with 1 in *. change (2 ^ 1) with 2. nia.
      * rewrite (Z.max_r 0 (a - b - 1)), (Z.max_l 0 (- (a - b - 1))) by lia.
        assert (Hk : 2 ^ (a - b) = 2 * 2 ^ (a - b - 1))
          by (rewrite <- Z.pow_succ_r by lia; f_equal; lia).
        assert (Pk' : 0 < 2 ^ (a - b - 1)) by (apply Z.pow_pos_nonneg; lia).
        change (2 ^ 0) with 1. nia.
    + apply Z.ltb_ge in E1.
      rewrite (Z.max_r 0 (a - b)), (Z.max_l 0 (- (a - b))) by lia.
      change (2 ^ 0) with 1. nia.
  - apply Z.leb_gt in E0.
    assert (Hab : 2 ^ b = 2 ^ a * 2 ^ (- (a - b)))
      by (rewrite <- Z.pow_add_r by lia; f_equal; lia).
    assert (Pk : 0 < 2 ^ (- (a - b))) by (apply Z.pow_pos_nonneg; lia).
    destruct (N * 2 ^ (- (a - b)) <? D) eqn:E1.
    + apply Z.ltb_lt in E1.
      rewrite (Z.max_l 0 (a - b - 1)), (Z.max_r 0 (- (a - b - 1))) by lia.
      assert (Hk : 2 ^ (- (a - b - 1)) = 2 * 2 ^ (- (a - b)))
        by (rewrite <- Z.pow_succ_r by lia; f_equal; lia).
      change (2 ^ 0) with 1. nia.
    + apply Z.ltb_ge in E1.
      rewrite (Z.max_l 0 (a - b)), (Z.max_r 0 (- (a - b))) by lia.
      change (2 ^ 0) with 1. nia.
Qed.

(** [nearest_even N D q] is within half a unit of [N / D] counted in
    units of [2^q], and is even when it is exactly half a unit away. *)
Lemma nearest_even_spec (N D q : Z) :
  0 <= N -> 0 < D ->
  2 * Z.abs (N * 2 ^ Z.max 0 (- q) - nearest_even N D q * (D * 2 ^ Z.max 0 q))
    <= D * 2 ^ Z.max 0 q /\
  (2 * Z.abs (N * 2 ^ Z.max 0 (- q) -
              nearest_even N D q * (D * 2 ^ Z.max 0 q))
     = D * 2 ^ Z.max 0 q ->
   Z.even (nearest_even N D q) = true).
Proof.
  intros HN HD. unfold nearest_even. cbv zeta.
  assert (EA : (if 0 <=? q then N else N * 2 ^ (- q)) =
               N * 2 ^ Z.max 0 (- q)).
  { destruct (0 <=? q) eqn:E.
    - apply Z.leb_le in E. rewrite Z.max_l by lia. change (2 ^ 0) with 1. lia.
    - apply Z.leb_gt in E. rewrite Z.max_r by lia. reflexivity. }
  assert (EB : (if 0 <=? q then D * 2 ^ q else D) = D * 2 ^ Z.max 0 q).
  { destruct (0 <=? q) eqn:E.
    - apply Z.leb_le in E. rewrite Z.max_r by lia. reflexivity.
    - apply Z.leb_gt in E. rewrite Z.max_l by lia. change (2 ^ 0) with 1. lia. }
  rewrite EA, EB.
  set (A := N * 2 ^ Z.max 0 (- q)). set (B := D * 2 ^ Z.max 0 q).
  assert (HB : 0 < B)
    by (apply Z.mul_pos_pos; [ exact HD | apply Z.pow_pos_nonneg; lia ]).
  pose proof (Z_div_mod_eq_full A B) as Hd.
  pose proof (Z.mod_pos_bound A B HB) as Hr.
  destruct (B <? 2 * (A mod B)) eqn:E1.
  - apply Z.ltb_lt in E1. cbn [orb]. split; [ nia | intros H; nia ].
  - apply Z.ltb_ge in E1. cbn [orb].
    destruct (B =? 2 * (A mod B)) eqn:E2; cbn [andb].
    + apply Z.eqb_eq in E2. destruct (Z.odd (A / B)) eqn:E3.
      * split; [ nia | intros _ ].
        rewrite Z.add_1_r, Z.even_succ. exact E3.
      * split; [ nia | intros _ ].
        rewrite <- Z.negb_odd, E3. reflexivity.
    + apply Z.eqb_neq in E2. split; [ nia | intros H; nia ].
Qed.

(** ** Numbers and strings: sample evaluations *)

Example sum_tenth_fifth :
  num_to_string (num_add (js_number 1 (-1)) (js_number 2 (-1))) =
    "0.30000000000000004".
Proof. vm_compute. reflexivity. Qed.

Example product_cents :
  num_to_string (num_mul (js_number 29 (-2)) (num_of_Z 50)) =
    "14.499999999999998".
Proof. vm_compute. reflexivity. Qed.

Example product_fraction :
  num_to_string (num_mul (js_number 1005 (-3)) (num_of_Z 100)) =
    "100.49999999999999".
Proof. vm_compute. reflexivity. Qed.

Example sum_beyond_53_bits :
  num_add (num_of_Z (2 ^ 53)) one = num_of_Z (2 ^ 53).
Proof. vm_compute. reflexivity. Qed.

Example product_overflow :
  num_mul (js_number 1 308) (num_of_Z 10) = PInf.
Proof. vm_compute. reflexivity. Qed.

Example product_underflow :
  num_mul (js_number 5 (-324)) (js_number 5 (-1)) = zero.
Proof. vm_compute. reflexivity. Qed.

Example literal_overflow : StringToNumber "1e999" = PInf.
Proof. vm_compute. reflexivity. Qed.

Example literal_underflow : StringToNumber "1e-400" = zero.
Proof. vm_compute. reflexivity. Qed.

Example literal_padded :
  StringToNumber (nbsp ++ " 12.50 " ++ byte_order_mark) = Fin (Dec 125 (-1)).
Proof. vm_compute. reflexivity. Qed.

Example string_of_2_64 :
  num_to_string (num_of_Z (2 ^ 64)) = "18446744073709552000".
Proof. vm_compute. reflexivity. Qed.

Example string_of_1e21 :
  num_to_string (js_number 1 21) = "1e+21".
Proof. vm_compute. reflexivity. Qed.

Example trim_unicode :
  trim (nbsp ++ " p2" ++ line_separator ++ byte_order_mark) = "p2".
Proof. vm_compute. reflexivity. Qed.


Lemma effective_qty_valid (i : NormItem) : valid_qty (effective_qty i) = true.
Proof.
  unfold effective_qty. fold (valid_qty (qty i)).
  destruct (valid_qty (qty i)) eqn:E; [ exact E | reflexivity ].
Qed.

Lemma effective_qty_invalid (i : NormItem) :
  valid_qty (qty i) = false -> effective_qty i = one.
Proof.
  unfold effective_qty. fold (valid_qty (qty i)). now intros ->.
Qed.

Lemma effective_qty_kept (i : NormItem) :
  valid_qty (qty i) = true -> effective_qty i = qty i.
Proof.
  unfold effective_qty. fold (valid_qty (qty i)). now intros ->.
Qed.

(** ** Strings: [trim] *)

Lemma string_length_ind (P : string -> Prop) :
  (forall s, (forall t, (String.length t < String.length s)%nat -> P t) ->
             P s) ->
  forall s, P s.
Proof.
  intros H s.
  assert (G : forall n t, (String.length t < n)%nat -> P t).
  { induction n as [ | n IH ]; intros t Ht; [ lia | ].
    apply H. intros u Hu. apply IH. lia. }
  apply (G (S (String.length s))). lia.
Qed.

Lemma trimStart_clean (s : string) : clean_start (trimStart s).
Proof.
  unfold clean_start. induction s as [ s IH ] using string_length_ind.
  destruct s as [ | a r ]; [ reflexivity | ]. simpl.
  destruct (is_space a) eqn:Ea; [ apply IH; simpl; lia | ].
  destruct r as [ | b r2 ]; [ simpl; now rewrite Ea | ].
  destruct (is_space2 a b) eqn:Eb; [ apply IH; simpl; lia | ].
  destruct r2 as [ | c r3 ]; [ simpl; now rewrite Ea, Eb | ].
  destruct (is_space3 a b c) eqn:Ec; [ apply IH; simpl; lia | ].
  simpl. now rewrite Ea, Eb, Ec.
Qed.

Lemma trimStart_id (s : string) : clean_start s -> trimStart s = s.
Proof.
  unfold clean_start. destruct s as [ | a r ]; simpl; [ reflexivity | ].
  destruct (is_space a); [ discriminate | ].
  destruct r as [ | b r2 ]; [ reflexivity | ].
  destruct (is_space2 a b); [ discriminate | ].
  destruct r2 as [ | c r3 ]; [ reflexivity | ].
  destruct (is_space3 a b c); [ discriminate | reflexivity ].
Qed.

Lemma trimEnd_cons (c : ascii) (r : string) :
  trimEnd (String c r) =
    if white_space (String c (trimEnd r)) then EmptyString
    else String c (trimEnd r).
Proof. reflexivity. Qed.

Lemma trimEnd_prefix (s : string) :
  exists x, s = (trimEnd s ++ x)%string.
Proof.
  induction s as [ | c r [x IH] ]; [ now exists "" | ].
  rewrite trimEnd_cons.
  destruct (white_space (String c (trimEnd r))).
  - now exists (String c r).
  - exists x. simpl. now rewrite <- IH.
Qed.

Lemma starts_with_space_app (t x : string) :
  starts_with_space t = true -> starts_with_space (t ++ x) = true.
Proof.
  destruct t as [ | a r ]; simpl; [ discriminate | ].
  destruct (is_space a); [ reflexivity | ].
  destruct r as [ | b r2 ]; simpl; [ discriminate | ].
  destruct (is_space2 a b); [ reflexivity | ].
  destruct r2 as [ | c r3 ]; simpl; [ discriminate | trivial ].
Qed.

Lemma trimEnd_clean (s : string) : clean_start s -> clean_start (trimEnd s).
Proof.
  unfold clean_start. intros H.
  destruct (starts_with_space (trimEnd s)) eqn:E; [ | reflexivity ].
  destruct (trimEnd_prefix s) as [x Hx].
  apply (starts_with_space_app _ x) in E. rewrite <- Hx in E. congruence.
Qed.

Lemma trimEnd_idem (s : string) : trimEnd (trimEnd s) = trimEnd s.
Proof.
  induction s as [ | c r IH ]; [ reflexivity | ].
  rewrite trimEnd_cons.
  destruct (white_space (String c (trimEnd r))) eqn:E; [ reflexivity | ].
  now rewrite trimEnd_cons, IH, E.
Qed.

Lemma trim_idem (s : string) : trim (trim s) = trim s.
Proof.
  unfold trim.
  rewrite (trimStart_id (trimEnd (trimStart s))).
  - apply trimEnd_idem.
  - apply trimEnd_clean, trimStart_clean.
Qed.

(** ** The handler, case by case *)

Section CheckoutCases.

Variable accepts : OrderData -> bool.

Variable reads : list string -> bool.

Lemma checkout_with_throw (body : value) (db : Db) :
  intake body = Throw ->
  checkout_with accepts reads body db = (server_error, db).
Proof. unfold checkout_with. now intros ->. Qed.

Lemma checkout_with_empty (body : value) (db : Db) (c p pm g : string) :
  intake body = Ok (c, p, pm, g, []) ->
  checkout_with accepts reads body db = (no_items body, db).
Proof. unfold checkout_with. now intros ->. Qed.

Lemma checkout_with_unread (body : value) (db : Db) (c p pm g : string)
  (norm : list NormItem) :
  intake body = Ok (c, p, pm, g, norm) ->
  norm <> [] ->
  reads (lookup_ids norm) = false ->
  checkout_with accepts reads body db =
    (server_error,
     {| products := products db;
        orders := orders db;
        calls := calls db ++ [FindManyProducts (lookup_ids norm)] |}).
Proof.
  intros Hin Hne Hread. unfold checkout_with. rewrite Hin.
  destruct norm as [ | i norm' ]; [ congruence | ].
  cbv zeta. rewrite Hread. reflexivity.
Qed.

Lemma checkout_with_accepted (body : value) (db : Db) (c p pm g : string)
  (norm : list NormItem) :
  intake body = Ok (c, p, pm, g, norm) ->
  norm <> [] ->
  reads (lookup_ids norm) = true ->
  accepts (submitted db c p pm g norm) = true ->
  checkout_with accepts reads body db =
    ({| status := 200;
        json :=
          Summary (List.length (orders db))
            (total (submitted db c p pm g norm)) pm p (List.length norm) |},
     {| products := products db;
        orders :=
          orders db ++
          [{| order_id := List.length (orders db);
              order_data := submitted db c p pm g norm |}];
        calls :=
          calls db ++
          [FindManyProducts (lookup_ids norm);
           CreateOrder (submitted db c p pm g norm)] |}).
Proof.
  intros Hin Hne Hread Hacc. unfold checkout_with. rewrite Hin.
  destruct norm as [ | i norm' ]; [ congruence | ].
  cbv zeta. rewrite Hread. unfold order_create. cbv zeta.
  change (make_order c p pm g
            (make_priceMap
               (findMany (products db) (lookup_ids (i :: norm'))))
            (i :: norm'))
    with (submitted db c p pm g (i :: norm')).
  rewrite Hacc.
  unfold submitted, make_order, log. cbn [order_data order_id total items
    paymentMethod pickup products orders calls].
  rewrite length_map, <- app_assoc. reflexivity.
Qed.

Lemma checkout_with_rejected (body : value) (db : Db) (c p pm g : string)
  (norm : list NormItem) :
  intake body = Ok (c, p, pm, g, norm) ->
  norm <> [] ->
  reads (lookup_ids norm) = true ->
  accepts (submitted db c p pm g norm) = false ->
  checkout_with accepts reads body db =
    (server_error,
     {| products := products db;
        orders := orders db;
        calls :=
          calls db ++
          [FindManyProducts (lookup_ids norm);
           CreateOrder (submitted db c p pm g norm)] |}).
Proof.
  intros Hin Hne Hread Hacc. unfold checkout_with. rewrite Hin.
  destruct norm as [ | i norm' ]; [ congruence | ].
  cbv zeta. rewrite Hread. unfold order_create. cbv zeta.
  change (make_order c p pm g
            (make_priceMap
               (findMany (products db) (lookup_ids (i :: norm'))))
            (i :: norm'))
    with (submitted db c p pm g (i :: norm')).
  rewrite Hacc.
  unfold log. cbn [products orders calls].
  rewrite <- app_assoc. reflexivity.
Qed.

End CheckoutCases.

Section CheckoutReadCases.

Variable accepts : OrderData -> bool.

Lemma checkout_throw (body : value) (db : Db) :
  intake body = Throw -> checkout accepts body db = (server_error, db).
Proof. apply checkout_with_throw. Qed.

Lemma checkout_empty (body : value) (db : Db) (c p pm g : string) :
  intake body = Ok (c, p, pm, g, []) ->
  checkout accepts body db = (no_items body, db).
Proof. apply checkout_with_empty. Qed.

Lemma checkout_accepted (body : value) (db : Db) (c p pm g : string)
  (norm : list NormItem) :
  intake body = Ok (c, p, pm, g, norm) ->
  norm <> [] ->
  accepts (submitted db c p pm g norm) = true ->
  checkout accepts body db =
    ({| status := 200;
        json :=
          Summary (List.length (orders db))
            (total (submitted db c p pm g norm)) pm p (List.length norm) |},
     {| products := products db;
        orders :=
          orders db ++
          [{| order_id := List.length (orders db);
              order_data := submitted db c p pm g norm |}];
        calls :=
          calls db ++
          [FindManyProducts (lookup_ids norm);
           CreateOrder (submitted db c p pm g norm)] |}).
Proof.
  intros Hin Hne Hacc. now apply checkout_with_accepted.
Qed.

Lemma checkout_rejected (body : value) (db : Db) (c p pm g : string)
  (norm : list NormItem) :
  intake body = Ok (c, p, pm, g, norm) ->
  norm <> [] ->
  accepts (submitted db c p pm g norm) = false ->
  checkout accepts body db =
    (server_error,
     {| products := products db;
        orders := orders db;
        calls :=
          calls db ++
          [FindManyProducts (lookup_ids norm);
           CreateOrder (submitted db c p pm g norm)] |}).
Proof.
  intros Hin Hne Hacc. now apply checkout_with_rejected.
Qed.

Lemma app_one_neq {A : Type} (l : list A) (x : A) : l ++ [x] <> l.
Proof.
  intros H. apply (f_equal (@List.length A)) in H.
  rewrite length_app in H. simpl in H. lia.
Qed.

(** A created order is the submitted data under the next identifier. *)
Lemma creates_inv (body : value) (db : Db) (o : Order) :
  creates accepts body db o ->
  exists c p pm g norm,
    intake body = Ok (c, p, pm, g, norm) /\
    norm <> [] /\
    accepts (submitted db c p pm g norm) = true /\
    o = {| order_id := List.length (orders db);
           order_data := submitted db c p pm g norm |}.
Proof.
  unfold creates. intros H.
  destruct (intake body) as [ [[[[c p] pm] g] norm] | ] eqn:Hin.
  - destruct norm as [ | i norm' ].
    + rewrite (checkout_empty _ _ _ _ _ _ Hin) in H. simpl in H.
      symmetry in H. now apply app_one_neq in H.
    + assert (Hne : i :: norm' <> []) by discriminate.
      destruct (accepts (submitted db c p pm g (i :: norm'))) eqn:Hacc.
      * rewrite (checkout_accepted _ _ _ _ _ _ _ Hin Hne Hacc) in H.
        simpl in H. apply app_inv_head in H. injection H as <-.
        exists c, p, pm, g, (i :: norm'). auto.
      * rewrite (checkout_rejected _ _ _ _ _ _ _ Hin Hne Hacc) in H.
        simpl in H. symmetry in H. now apply app_one_neq in H.
  - rewrite (checkout_throw _ _ Hin) in H. simpl in H.
    symmetry in H. now apply app_one_neq in H.
Qed.

End CheckoutReadCases.

(** The five ways through the handler, the catalog read succeeding or
    not. *)
Lemma checkout_with_cases (accepts : OrderData -> bool)
  (reads : list string -> bool) (body : value) (db : Db) :
  (intake body = Throw /\
   checkout_with accepts reads body db = (server_error, db)) \/
  (exists c p pm g,
     intake body = Ok (c, p, pm, g, []) /\
     checkout_with accepts reads body db = (no_items body, db)) \/
  (exists c p pm g norm,
     intake body = Ok (c, p, pm, g, norm) /\ norm <> [] /\
     reads (lookup_ids norm) = false /\
     checkout_with accepts reads body db =
       (server_error,
        {| products := products db;
           orders := orders db;
           calls := calls db ++ [FindManyProducts (lookup_ids norm)] |})) \/
  (exists c p pm g norm,
     intake body = Ok (c, p, pm, g, norm) /\ norm <> [] /\
     reads (lookup_ids norm) = true /\
     checkout_with accepts reads body db = checkout accepts body db).
Proof.
  destruct (intake body) as [ [[[[c p] pm] g] norm] | ] eqn:Hin.
  - destruct norm as [ | i norm' ].
    + right; left. exists c, p, pm, g. split; [ reflexivity | ].
      now apply (checkout_with_empty _ _ _ _ c p pm g).
    + assert (Hne : i :: norm' <> []) by discriminate.
      destruct (reads (lookup_ids (i :: norm'))) eqn:Hr.
      * right; right; right. exists c, p, pm, g, (i :: norm').
        repeat split; auto.
        destruct (accepts (submitted db c p pm g (i :: norm'))) eqn:Hacc.
        -- rewrite (checkout_with_accepted _ _ _ _ _ _ _ _ _ Hin Hne Hr Hacc).
           symmetry. now apply checkout_accepted.
        -- rewrite (checkout_with_rejected _ _ _ _ _ _ _ _ _ Hin Hne Hr Hacc).
           symmetry. now apply checkout_rejected.
      * right; right; left. exists c, p, pm, g, (i :: norm').
        repeat split; auto.
        now apply (checkout_with_unread _ _ _ _ c p pm g).
  - left. split; [ reflexivity | now apply checkout_with_throw ].
Qed.

(** An order is created only after a catalog read that succeeded. *)
Lemma creates_with_read (accepts : OrderData -> bool)
  (reads : list string -> bool) (body : value) (db : Db) (o : Order) :
  creates_with accepts reads body db o -> creates accepts body db o.
Proof.
  unfold creates_with, creates. intros H.
  destruct (checkout_with_cases accepts reads body db)
    as [ [_ E] | [ (c & p & pm & g & _ & E)
       | [ (c & p & pm & g & norm & _ & _ & _ & E)
         | (c & p & pm & g & norm & _ & _ & _ & E) ] ] ];
    rewrite E in H; cbn [snd orders] in H;
    try (symmetry in H; now apply app_one_neq in H).
  exact H.
Qed.

(** ** The total *)

Lemma fold_left_lines (priceMap : list (string * value))
  (norm : list NormItem) (acc : num) :
  fold_left
    (fun sum i => num_add sum (num_mul (unit_price priceMap i) (effective_qty i)))
    norm acc
  = fold_left num_add (map (line_amount priceMap) norm) acc.
Proof.
  revert acc. induction norm as [ | i norm IH ]; intros acc; simpl.
  - reflexivity.
  - apply IH.
Qed.

Lemma compute_total_sum (priceMap : list (string * value))
  (norm : list NormItem) :
  compute_total priceMap norm = sum_left (map (line_amount priceMap) norm).
Proof. apply fold_left_lines. Qed.

Lemma stored_price_unit (priceMap : list (string * value)) (i : NormItem) :
  stored_price priceMap i = unit_price priceMap i.
Proof.
  unfold stored_price, unit_price, dbPrice.
  destruct (priceMap_at priceMap (productId i)) as [ | | | n | | | ];
    try reflexivity.
  destruct (num_isFinite n); reflexivity.
Qed.

(** The stored lines add up to what the [reduce] computed. *)
Lemma items_sum_stored (priceMap : list (string * value))
  (norm : list NormItem) :
  items_sum (map (make_item priceMap) norm) = compute_total priceMap norm.
Proof.
  rewrite compute_total_sum. unfold items_sum. rewrite map_map.
  f_equal. apply map_ext. intros i. unfold make_item, line_amount. simpl.
  now rewrite stored_price_unit.
Qed.

Lemma submitted_calls (accepts : OrderData -> bool) (body : value) (db : Db)
  (c p pm g : string) (norm : list NormItem) :
  intake body = Ok (c, p, pm, g, norm) ->
  norm <> [] ->
  calls (snd (checkout accepts body db)) =
    calls db ++
    [FindManyProducts (lookup_ids norm);
     CreateOrder (submitted db c p pm g norm)].
Proof.
  intros Hin Hne.
  destruct (accepts (submitted db c p pm g norm)) eqn:Hacc.
  - now rewrite (checkout_accepted _ _ _ _ _ _ _ _ Hin Hne Hacc).
  - now rewrite (checkout_rejected _ _ _ _ _ _ _ _ Hin Hne Hacc).
Qed.

(** What the additions of the [reduce] give is in canonical form. *)
Lemma binary64_canonical (d y : dec) : binary64 d = Fin y -> canonical y.
Proof.
  unfold binary64. cbv zeta.
  destruct (mant d =? 0); [ intros [= <-]; reflexivity | ].
  destruct (_ || _); [ destruct (mant d <? 0); discriminate | ].
  destruct (0 <=? _); intros [= <-]; apply canon_canonical.
Qed.

Lemma num_add_canonical (x y : num) (d : dec) :
  num_add x y = Fin d -> canonical d.
Proof.
  unfold num_add, to_binary64.
  destruct (exact_add x y) as [ | | | a ]; try discriminate.
  apply binary64_canonical.
Qed.

Lemma fold_canonical (l : list num) (acc : num) (d : dec) :
  (forall a, acc = Fin a -> canonical a) ->
  fold_left num_add l acc = Fin d -> canonical d.
Proof.
  revert acc. induction l as [ | x l IH ]; intros acc Hacc; simpl.
  - apply Hacc.
  - apply IH. intros a. apply num_add_canonical.
Qed.

Lemma sum_left_canonical (l : list num) (d : dec) :
  sum_left l = Fin d -> canonical d.
Proof.
  apply fold_canonical. intros a [= <-]. reflexivity.
Qed.

(** [Math.round] gives the nearest integer, the larger one of two. *)
Lemma Math_round_nearest (d : dec) :
  canonical d ->
  exists z, Math_round (Fin d) = num_of_Z z /\ nearest_integer d z.
Proof.
  intros Hc. unfold Math_round, dec_round, nearest_integer.
  destruct (0 <=? expo d) eqn:E.
  - apply Z.leb_le in E. exists (mant d * 10 ^ expo d).
    split; [ now apply canonical_whole | ].
    rewrite (Z.max_l 0 (- expo d)), (Z.max_r 0 (expo d)) by lia.
    change (10 ^ 0) with 1. lia.
  - apply Z.leb_gt in E.
    assert (Hp : 0 < 10 ^ (- expo d)) by (apply pow10_pos; lia).
    exists ((2 * mant d + 10 ^ (- expo d)) / (2 * 10 ^ (- expo d))).
    split; [ reflexivity | ].
    rewrite (Z.max_r 0 (- expo d)), (Z.max_l 0 (expo d)) by lia.
    change (10 ^ 0) with 1.
    pose proof (Z_div_mod_eq_full (2 * mant d + 10 ^ (- expo d))
                  (2 * 10 ^ (- expo d))) as Hd.
    pose proof (Z.mod_pos_bound (2 * mant d + 10 ^ (- expo d))
                  (2 * 10 ^ (- expo d))) as Hb.
    nia.
Qed.

Lemma Zsum_abs_not_negative (l : list Z) : 0 <= Zsum (map Z.abs l).
Proof. induction l as [ | z l IH ]; simpl; lia. Qed.

(** Whole amounts whose absolute values add up to less than [2^53] are
    added exactly. *)
Lemma fold_whole (zs : list Z) (acc : Z) :
  Z.abs acc + Zsum (map Z.abs zs) < 2 ^ 53 ->
  fold_left num_add (map num_of_Z zs) (num_of_Z acc) =
    num_of_Z (acc + Zsum zs).
Proof.
  revert acc. induction zs as [ | z zs IH ]; intros acc Hb; simpl in *.
  - now rewrite Z.add_0_r.
  - pose proof (Zsum_abs_not_negative zs) as Hs.
    rewrite num_add_whole by lia. rewrite IH by lia. f_equal. lia.
Qed.

Lemma sum_left_whole (zs : list Z) :
  Zsum (map Z.abs zs) < 2 ^ 53 ->
  sum_left (map num_of_Z zs) = num_of_Z (Zsum zs).
Proof. intros Hb. apply (fold_whole zs 0). simpl. exact Hb. Qed.

Lemma products_whole {A : Type} (f g : A -> num) (l : list A)
  (ab : list (Z * Z)) :
  map (fun i => (f i, g i)) l =
    map (fun x => (num_of_Z (fst x), num_of_Z (snd x))) ab ->
  Zsum (map (fun x => Z.abs (fst x * snd x)) ab) < 2 ^ 53 ->
  map (fun i => num_mul (f i) (g i)) l =
    map num_of_Z (map (fun x => fst x * snd x) ab).
Proof.
  revert ab. induction l as [ | i l IH ]; intros [ | x ab ] H Hb;
    try discriminate; [ reflexivity | ].
  simpl in H, Hb. injection H as Hu Hq Hrest.
  pose proof (Zsum_abs_not_negative (map (fun x => fst x * snd x) ab)) as Hs.
  rewrite map_map in Hs.
  simpl. f_equal.
  - rewrite Hu, Hq. apply num_mul_whole. lia.
  - apply IH; [ exact Hrest | lia ].
Qed.


Lemma items_sum_whole (l : list OrderItem) (ab : list (Z * Z)) :
  map (fun it => (item_price it, item_qty it)) l =
    map (fun x => (num_of_Z (fst x), num_of_Z (snd x))) ab ->
  Zsum (map (fun x => Z.abs (fst x * snd x)) ab) < 2 ^ 53 ->
  items_sum l = num_of_Z (Zsum (map (fun x => fst x * snd x) ab)).
Proof.
  intros H Hb. unfold items_sum.
  rewrite (products_whole item_price item_qty l ab H Hb).
  apply sum_left_whole. now rewrite map_map.
Qed.

Lemma submitted_canonical (priceMap : list (string * value))
  (norm : list NormItem) (d : dec) :
  items_sum (map (make_item priceMap) norm) = Fin d -> canonical d.
Proof. apply sum_left_canonical. Qed.


(** C2 (as amended). For every order created by checkout, the total is
    [Math.max(0, Math.round(s))] where [s] is the sum over the stored
    items of price times quantity, in the arithmetic of JavaScript; it is
    never negative; it equals [Math.round(s)] when that is positive and is
    0 when that is negative.  [Math.round(s)] is the integer nearest to a
    finite [s], the larger one of two integers as near; and when the
    stored prices and quantities are whole numbers whose products add up,
    in absolute value, to less than [2^53], the total is the sum of the
    products, or 0 when that sum is negative. *)
Theorem created_order_total (accepts : OrderData -> bool)
  (reads : list string -> bool) (body : value) (db : Db) (o : Order) :
  creates_with accepts reads body db o ->
  total (order_data o) =
    Math_max zero (Math_round (items_sum (items (order_data o)))) /\
  num_ltb (total (order_data o)) zero = false /\
  (num_ltb zero (Math_round (items_sum (items (order_data o)))) = true ->
   total (order_data o) = Math_round (items_sum (items (order_data o)))) /\
  (num_ltb (Math_round (items_sum (items (order_data o)))) zero = true ->
   total (order_data o) = zero) /\
  (forall d, items_sum (items (order_data o)) = Fin d ->
     exists z,
       Math_round (items_sum (items (order_data o))) = num_of_Z z /\
       nearest_integer d z) /\
  (forall ab : list (Z * Z),
     map (fun it => (item_price it, item_qty it)) (items (order_data o)) =
       map (fun x => (num_of_Z (fst x), num_of_Z (snd x))) ab ->
     Zsum (map (fun x => Z.abs (fst x * snd x)) ab) < 2 ^ 53 ->
     total (order_data o) =
       num_of_Z (Z.max 0 (Zsum (map (fun x => fst x * snd x) ab)))).
Proof.
  intros H. apply creates_with_read in H.
  destruct (creates_inv _ _ _ _ H) as (c & p & pm & g & norm & _ & _ & _ & ->).
  cbn [order_data]. unfold submitted, make_order. cbn [total items].
  assert (Es : compute_total (priceMap_of db norm) norm =
               items_sum (map (make_item (priceMap_of db norm)) norm))
    by (symmetry; apply items_sum_stored).
  rewrite Es.
  set (s := items_sum (map (make_item (priceMap_of db norm)) norm)).
  set (r := Math_round s).
  split; [ reflexivity | split; [ apply Math_max_zero_not_negative | ] ].
  split; [ | split; [ | split ] ].
  - intros Hr.
    destruct (Math_max_zero_cases r) as [[Hn E] | [[Hl E] | [Hl E]]];
      rewrite E; [ rewrite Hn in Hr; discriminate | reflexivity | congruence ].
  - intros Hr.
    destruct (Math_max_zero_cases r) as [[Hn E] | [[Hl E] | [Hl E]]];
      rewrite E; [ rewrite Hn in Hr; discriminate | | reflexivity ].
    apply num_ltb_asym in Hr. congruence.
  - intros d Hd. unfold r. rewrite Hd. apply Math_round_nearest.
    exact (sum_left_canonical _ _ Hd).
  - intros ab Hab Hb. unfold r, s.
    rewrite (items_sum_whole _ _ Hab Hb).
    now rewrite Math_round_whole, Math_max_zero_whole.
Qed.


(** C2, as the specification states it, fails: the bare list
    [[{ price: -5 }]] creates an order whose single item has price -5 and
    quantity 1, so that the rounded sum of its lines is -5, while its
    total is 0. *)
Lemma created_order_total_counterexample :
  let o :=
    {| order_id := 0;
       order_data :=
         {| campus := "ADMU"; pickup := "Gate 2.5"; paymentMethod := "gcash";
            gcashNumber := Some ""; total := zero;
            items :=
              [ {| item_productId := "UNKNOWN"; item_qty := one;
                   item_price := num_of_Z (-5) |} ] |} |} in
  creates accept_all payload_negative demo_db o /\
  Math_round (items_sum (items (order_data o))) = num_of_Z (-5) /\
  total (order_data o) <> Math_round (items_sum (items (order_data o))).
Proof.
  cbv zeta. split; [ reflexivity | split; [ reflexivity | ] ].
  vm_compute. discriminate.
Qed.

Lemma created_order_total_witness :
  total
    (order_data
       {| order_id := 0;
          order_data :=
            submitted demo_db "ADMU" "Gate 2.5" "gcash" ""
              [ {| productId := ""; qty := one; priceSnap := num_of_Z (-5) |} ]
       |}) = zero /\
  total
    (order_data
       {| order_id := 0;
          order_data :=
            submitted demo_db "ADMU" "Gate 2.5" "gcash" "" norm_cents |})
  = num_of_Z 14.
Proof.
  split.
  - refine
      (proj1
         (proj2
            (proj2
               (proj2
                  (created_order_total accept_all (fun _ => true)
                     payload_negative demo_db _ _))))
         _).
    + reflexivity.
    + reflexivity.
  - refine
      (proj1
         (proj2
            (proj2
               (created_order_total accept_all (fun _ => true)
                  payload_cents demo_db
                  {| order_id := 0;
                     order_data :=
                       submitted demo_db "ADMU" "Gate 2.5" "gcash" ""
                         norm_cents |} _)))
         _).
    + reflexivity.
    + reflexivity.
Defined.

(** ** The payload shapes *)

Lemma select_items_items (fields : list (string * value)) (L : list value) :
  assoc "items" fields = Some (VArr L) -> select_items (VObj fields) = L.
Proof. unfold select_items, get_opt, get. now intros ->. Qed.

Lemma select_items_cart (fields : list (string * value)) (L : list value) :
  assoc "items" fields = None ->
  assoc "cart" fields = Some (VArr L) ->
  select_items (VObj fields) = L.
Proof. unfold select_items, get_opt, get. now intros -> ->. Qed.

(** C3. For every list [L] of raw items, the bodies [L], [{ items: L }]
    and [{ cart: L }] select the same raw items, hence normalise to the
    same outcome (the same normalised list, item by item, or the same
    failure), and the whole intake of the three requests is the same. *)
Theorem payload_shapes_agree (L : list value) :
  select_items (VArr L) = L /\
  select_items (VObj [("items", VArr L)]) = L /\
  select_items (VObj [("cart", VArr L)]) = L /\
  normalize (select_items (VObj [("items", VArr L)])) =
    normalize (select_items (VArr L)) /\
  normalize (select_items (VObj [("cart", VArr L)])) =
    normalize (select_items (VArr L)) /\
  intake (VObj [("items", VArr L)]) = intake (VArr L) /\
  intake (VObj [("cart", VArr L)]) = intake (VArr L).
Proof.
  pose proof (select_items_items [("items", VArr L)] L eq_refl) as Hi.
  pose proof (select_items_cart [("cart", VArr L)] L eq_refl eq_refl) as Hc.
  unfold intake. rewrite Hi, Hc.
  repeat split; reflexivity.
Qed.

(** ** The price map *)

Lemma assoc_set_prop_same (k : string) (v : value)
  (o : list (string * value)) :
  assoc k (set_prop k v o) = Some v.
Proof.
  induction o as [ | [k' v'] o IH ]; simpl.
  - now rewrite String.eqb_refl.
  - destruct (String.eqb k k') eqn:E; simpl; rewrite ?String.eqb_refl, ?E;
      [ reflexivity | exact IH ].
Qed.

Lemma assoc_set_prop_other (k k' : string) (v : value)
  (o : list (string * value)) :
  k <> k' -> assoc k (set_prop k' v o) = assoc k o.
Proof.
  intros Hne. apply String.eqb_neq in Hne.
  induction o as [ | [k'' v''] o IH ]; simpl.
  - now rewrite Hne.
  - destruct (String.eqb k' k'') eqn:E; simpl.
    + apply String.eqb_eq in E. subst k''. now rewrite Hne.
    + destruct (String.eqb k k''); [ reflexivity | exact IH ].
Qed.

Lemma assoc_entries_absent (entries o : list (string * value)) (k : string) :
  (forall kv, In kv entries -> fst kv <> k) ->
  assoc k (fold_left (fun o kv => set_prop (fst kv) (snd kv) o) entries o)
  = assoc k o.
Proof.
  revert o. induction entries as [ | kv entries IH ]; intros o H; simpl.
  - reflexivity.
  - rewrite IH by (intros kv' Hin; apply H; now right).
    apply assoc_set_prop_other. intros E.
    apply (H kv); [ now left | now symmetry ].
Qed.

Lemma assoc_entries_present (entries o : list (string * value)) (k : string)
  (v : value) :
  NoDup (map fst entries) ->
  In (k, v) entries ->
  assoc k (fold_left (fun o kv => set_prop (fst kv) (snd kv) o) entries o)
  = Some v.
Proof.
  revert o. induction entries as [ | kv entries IH ]; intros o Hnd Hin.
  - destruct Hin.
  - simpl in Hnd. inversion Hnd as [ | ? ? Hnotin Hnd' ]; subst.
    destruct Hin as [-> | Hin]; simpl.
    + rewrite assoc_entries_absent.
      * apply assoc_set_prop_same.
      * intros kv' Hin' E. apply Hnotin.
        simpl. rewrite <- E. now apply in_map.
    + now apply IH.
Qed.

Lemma priceMap_entries_keys (found : list Product) :
  map fst
    (map (fun p => (product_id p, VNum (num_of_Z (product_price p)))) found)
  = map product_id found.
Proof. rewrite map_map. reflexivity. Qed.

Lemma priceMap_at_fetched (found : list Product) (p : Product) :
  NoDup (map product_id found) ->
  In p found ->
  priceMap_at (make_priceMap found) (product_id p)
  = VNum (num_of_Z (product_price p)).
Proof.
  intros Hnd Hin. unfold priceMap_at, make_priceMap, fromEntries.
  rewrite (assoc_entries_present _ _ _ (VNum (num_of_Z (product_price p)))).
  - reflexivity.
  - now rewrite priceMap_entries_keys.
  - apply (in_map (fun p => (product_id p, VNum (num_of_Z (product_price p))))).
    exact Hin.
Qed.

Lemma priceMap_at_unmatched (found : list Product) (k : string) :
  (forall p, In p found -> product_id p <> k) ->
  priceMap_at (make_priceMap found) k = VUndefined.
Proof.
  intros H. unfold priceMap_at, make_priceMap, fromEntries.
  rewrite assoc_entries_absent; [ reflexivity | ].
  intros kv Hin. apply in_map_iff in Hin. destruct Hin as (p & <- & Hp).
  simpl. now apply H.
Qed.

(** ** The catalog read *)

Lemma mem_In (k : string) (l : list string) : mem k l = true <-> In k l.
Proof.
  unfold mem. rewrite existsb_exists. split.
  - intros (x & Hin & E). apply String.eqb_eq in E. now subst.
  - intros Hin. exists k. split; [ exact Hin | apply String.eqb_refl ].
Qed.

Lemma is_empty_spec (s : string) : is_empty s = true <-> s = "".
Proof. destruct s; simpl; split; congruence. Qed.

Lemma lookup_ids_In (norm : list NormItem) (k : string) :
  In k (lookup_ids norm) <->
  k <> "" /\ exists i, In i norm /\ productId i = k.
Proof.
  unfold lookup_ids. rewrite in_map_iff. split.
  - intros (i & <- & Hin). apply filter_In in Hin. destruct Hin as [Hin Hne].
    split; [ | now exists i ].
    intros E. apply is_empty_spec in E. rewrite E in Hne. discriminate.
  - intros (Hne & i & Hin & <-). exists i. split; [ reflexivity | ].
    apply filter_In. split; [ exact Hin | ].
    destruct (is_empty (productId i)) eqn:E; [ | reflexivity ].
    apply is_empty_spec in E. contradiction.
Qed.

Lemma findMany_In (catalog : list Product) (ids : list string) (p : Product) :
  In p (findMany catalog ids) <-> In p catalog /\ In (product_id p) ids.
Proof. unfold findMany. rewrite filter_In, mem_In. reflexivity. Qed.

Lemma findMany_NoDup (catalog : list Product) (ids : list string) :
  NoDup (map product_id catalog) ->
  NoDup (map product_id (findMany catalog ids)).
Proof.
  unfold findMany. induction catalog as [ | p catalog IH ]; simpl; intros H.
  - constructor.
  - inversion H as [ | ? ? Hnotin Hnd ]; subst.
    destruct (mem (product_id p) ids); [ | now apply IH ].
    simpl. constructor; [ | now apply IH ].
    intros Hin. apply Hnotin. apply in_map_iff in Hin.
    destruct Hin as (q & E & Hq). apply filter_In in Hq.
    apply in_map_iff. exists q. tauto.
Qed.

(** ** The resolved unit price *)

Lemma unit_price_matched (found : list Product) (i : NormItem) (q : Product) :
  NoDup (map product_id found) ->
  In q found ->
  product_id q = productId i ->
  unit_price (make_priceMap found) i = num_of_Z (product_price q).
Proof.
  intros Hnd Hin E. unfold unit_price, dbPrice.
  rewrite <- E, (priceMap_at_fetched _ _ Hnd Hin). reflexivity.
Qed.

Lemma unit_price_unmatched (found : list Product) (i : NormItem) :
  (forall q, In q found -> product_id q <> productId i) ->
  unit_price (make_priceMap found) i = snapshot_or_zero i.
Proof.
  intros H. unfold unit_price, dbPrice.
  rewrite (priceMap_at_unmatched _ _ H). reflexivity.
Qed.

Lemma unit_price_cases (priceMap : list (string * value)) (i : NormItem) :
  (forall x, priceMap_at priceMap (productId i) = VNum x ->
     num_isFinite x = true -> unit_price priceMap i = x) /\
  (Number_isFinite (priceMap_at priceMap (productId i)) = false ->
   unit_price priceMap i = snapshot_or_zero i).
Proof.
  unfold unit_price, dbPrice. split.
  - intros x -> ->. reflexivity.
  - destruct (priceMap_at priceMap (productId i)); simpl; try reflexivity.
    now intros ->.
Qed.

Lemma fetched_In (db : Db) (norm : list NormItem) (q : Product) :
  In q (fetched db norm) <->
  In q (products db) /\ product_id q <> "" /\
  exists j, In j norm /\ productId j = product_id q.
Proof. unfold fetched. rewrite findMany_In, lookup_ids_In. reflexivity. Qed.

(** C4. Let a request pass the intake with normalised list [norm], let the
    identifiers of the catalog be unique, and let [i] be an item of
    [norm].  Whatever the price map holds, the resolved unit price is the
    entry found under the identifier of [i] when that entry is a finite
    number, and otherwise the client-submitted snapshot when that is
    finite, and otherwise 0.  The fetched entries are the catalog entries
    whose non-empty identifier is the identifier of some item.  If a
    fetched entry carries the identifier of [i], the resolved unit price
    is its catalog price, whatever the snapshot; if none does, it is the
    snapshot when finite and 0 otherwise.  The price stored on the order
    item of [i] is that same resolved price, and the item is among the
    submitted ones.  Whether or not identifiers matched, an order the
    store takes is answered with status 200. *)
Theorem unit_price_resolution (accepts : OrderData -> bool) (body : value)
  (db : Db) (c p pm g : string) (norm : list NormItem) (i : NormItem) :
  intake body = Ok (c, p, pm, g, norm) ->
  In i norm ->
  NoDup (map product_id (products db)) ->
  (forall priceMap,
     (forall x, priceMap_at priceMap (productId i) = VNum x ->
        num_isFinite x = true -> unit_price priceMap i = x) /\
     (Number_isFinite (priceMap_at priceMap (productId i)) = false ->
      unit_price priceMap i =
        if num_isFinite (priceSnap i) then priceSnap i else zero)) /\
  (forall q, In q (fetched db norm) <->
     In q (products db) /\ product_id q <> "" /\
     exists j, In j norm /\ productId j = product_id q) /\
  (forall q, In q (fetched db norm) -> product_id q = productId i ->
     unit_price (priceMap_of db norm) i = num_of_Z (product_price q)) /\
  ((forall q, In q (fetched db norm) -> product_id q <> productId i) ->
     unit_price (priceMap_of db norm) i =
       if num_isFinite (priceSnap i) then priceSnap i else zero) /\
  item_price (make_item (priceMap_of db norm) i) =
    unit_price (priceMap_of db norm) i /\
  In (make_item (priceMap_of db norm) i)
    (items (submitted db c p pm g norm)) /\
  (accepts (submitted db c p pm g norm) = true ->
   status (fst (checkout accepts body db)) = 200%nat).
Proof.
  intros Hin Hi Hnd.
  assert (Hnd' : NoDup (map product_id (fetched db norm)))
    by now apply findMany_NoDup.
  split; [ intros priceMap; apply unit_price_cases | ].
  split; [ intros q; apply fetched_In | ].
  split; [ intros q Hq E; now apply unit_price_matched | ].
  split; [ intros H; now apply unit_price_unmatched | ].
  split; [ apply stored_price_unit | ].
  split.
  - unfold submitted, make_order. cbn [items]. now apply in_map.
  - intros Hacc.
    assert (Hne : norm <> []) by (intros ->; destruct Hi).
    now rewrite (checkout_accepted _ _ _ _ _ _ _ _ Hin Hne Hacc).
Qed.

Lemma unit_price_resolution_witness :
  unit_price
    (priceMap_of demo_db
       [ {| productId := "p2"; qty := one; priceSnap := one |} ])
    {| productId := "p2"; qty := one; priceSnap := one |}
  = num_of_Z 40.
Proof.
  refine
    (proj1
       (proj2
          (proj2
             (unit_price_resolution accept_all payload_underpriced demo_db
             "ADMU" "Gate 2.5" "gcash" ""
             [ {| productId := "p2"; qty := one; priceSnap := one |} ]
                {| productId := "p2"; qty := one; priceSnap := one |}
                _ _ _)))
       {| product_id := "p2"; product_price := 40 |} _ _).
  - reflexivity.
  - left. reflexivity.
  - repeat constructor. simpl. intros [].
  - left. reflexivity.
  - reflexivity.
Defined.

(** ** The header fields and the intake *)

Lemma ToString_primitive (v : value) :
  primitive v = true -> exists s, ToString v = Ok s.
Proof.
  destruct v as [ | | [ | ] | n | s | l | fields ]; simpl;
    try discriminate; eauto.
Qed.

Lemma header_primitive (body : value) (k dflt : string) :
  primitive (get_opt body k) = true -> exists s, header body k dflt = Ok s.
Proof.
  intros H. unfold header, toString, or_else.
  destruct (truthy (get_opt body k)); now apply ToString_primitive.
Qed.

Lemma headers_primitive (body : value) :
  (forall k, In k header_fields -> primitive (get_opt body k) = true) ->
  exists h, headers body = Ok h.
Proof.
  intros H. unfold headers.
  destruct (header_primitive body "campus" "ADMU") as [c ->];
    [ apply H; simpl; tauto | ].
  destruct (header_primitive body "pickup" "Gate 2.5") as [p ->];
    [ apply H; simpl; tauto | ].
  destruct (header_primitive body "paymentMethod" "gcash") as [pm ->];
    [ apply H; simpl; tauto | ].
  destruct (header_primitive body "gcashNumber" "") as [g ->];
    [ apply H; simpl; tauto | ].
  simpl. eauto.
Qed.

Lemma intake_inv (body : value) (c p pm g : string) (norm : list NormItem) :
  intake body = Ok (c, p, pm, g, norm) ->
  headers body = Ok (c, p, pm, g) /\ normalize (select_items body) = Ok norm.
Proof.
  unfold intake. destruct (headers body) as [ h | ]; simpl; [ | discriminate ].
  destruct (normalize (select_items body)) as [ l | ]; simpl;
    [ | discriminate ].
  intros E. injection E as -> ->. split; reflexivity.
Qed.

Lemma headers_inv (body : value) (c p pm g : string) :
  headers body = Ok (c, p, pm, g) ->
  header body "campus" "ADMU" = Ok c /\
  header body "pickup" "Gate 2.5" = Ok p /\
  header body "paymentMethod" "gcash" = Ok pm /\
  header body "gcashNumber" "" = Ok g.
Proof.
  unfold headers.
  destruct (header body "campus" "ADMU"); simpl; [ | discriminate ].
  destruct (header body "pickup" "Gate 2.5"); simpl; [ | discriminate ].
  destruct (header body "paymentMethod" "gcash"); simpl; [ | discriminate ].
  destruct (header body "gcashNumber" ""); simpl; [ | discriminate ].
  intros E. injection E as -> -> -> ->. auto.
Qed.

(** ** The empty list *)

(** C5 (as amended). For every request whose selected items normalise to
    the empty list, the handler leaves the persistence layer as it was:
    no catalog read, no order creation, the order store unchanged.  It
    answers 422 with the diagnostic body echoing the request whenever the
    four top-level fields convert to strings, which is the case as soon
    as none of them is an object or an array; when the conversion of one
    of them throws, the answer is the 500 of the [catch]. *)
Theorem empty_list_rejected (accepts : OrderData -> bool) (body : value)
  (db : Db) :
  normalize (select_items body) = Ok [] ->
  snd (checkout accepts body db) = db /\
  calls (snd (checkout accepts body db)) = calls db /\
  orders (snd (checkout accepts body db)) = orders db /\
  (forall h, headers body = Ok h ->
     fst (checkout accepts body db) =
       {| status := 422;
          json :=
            NoItems "No items received"
              "Check Content-Type: application/json and request body shape"
              body |}) /\
  ((forall k, In k header_fields -> primitive (get_opt body k) = true) ->
   status (fst (checkout accepts body db)) = 422%nat) /\
  (headers body = Throw ->
   fst (checkout accepts body db) =
     {| status := 500; json := Failure "Checkout failed" |}).
Proof.
  intros Hn.
  assert (Hok : forall h, headers body = Ok h ->
                  checkout accepts body db = (no_items body, db)).
  { intros [[[c p] pm] g] Hh. apply (checkout_empty _ _ _ c p pm g).
    unfold intake. rewrite Hh, Hn. reflexivity. }
  assert (Hthrow : headers body = Throw ->
                   checkout accepts body db = (server_error, db)).
  { intros Hh. apply checkout_throw. unfold intake. now rewrite Hh. }
  assert (Hdb : snd (checkout accepts body db) = db).
  { destruct (headers body) as [ h | ] eqn:Hh.
    - now rewrite (Hok h).
    - now rewrite Hthrow. }
  split; [ exact Hdb | ]. rewrite Hdb.
  split; [ reflexivity | split; [ reflexivity | ] ].
  split; [ | split ].
  - intros h Hh. now rewrite (Hok h Hh).
  - intros Hp. destruct (headers_primitive body Hp) as [h Hh].
    now rewrite (Hok h Hh).
  - intros Hh. now rewrite (Hthrow Hh).
Qed.

(** The payload [{}] of the specification: 422, nothing touched. *)
Lemma empty_list_rejected_witness :
  snd (checkout accept_all (VObj []) demo_db) = demo_db /\
  status (fst (checkout accept_all (VObj []) demo_db)) = 422%nat.
Proof.
  pose proof (empty_list_rejected accept_all (VObj []) demo_db eq_refl)
    as (Hdb & _ & _ & _ & Hst & _).
  split; [ exact Hdb | ].
  apply Hst. intros k Hk. reflexivity.
Defined.

(** C5, as the specification states it, fails: the request
    [{ campus: { toString: 1 } }] has no item list, so its normalised list
    is empty, but line 198 calls the number 1 as a method, which throws,
    and the answer is 500 instead of 422. *)
Lemma empty_list_rejected_counterexample :
  normalize (select_items payload_bad_campus) = Ok [] /\
  fst (checkout accept_all payload_bad_campus demo_db) =
    {| status := 500; json := Failure "Checkout failed" |} /\
  status (fst (checkout accept_all payload_bad_campus demo_db)) <> 422%nat.
Proof.
  split; [ reflexivity | split; [ reflexivity | ] ].
  vm_compute. discriminate.
Qed.

(** ** Normalisation of one item *)

Lemma get_not_nullish (i : value) (k : string) :
  nullish i = false -> get i k = Ok (get_opt i k).
Proof.
  unfold get_opt. destruct i; simpl; try discriminate; try reflexivity.
  intros _. destruct (assoc k fields); reflexivity.
Qed.

Lemma normalize_item_nullish (i : value) :
  nullish i = true -> normalize_item i = Throw.
Proof. destruct i; simpl; try discriminate; reflexivity. Qed.

Lemma or_chain_first (a b c : value) :
  or_else (or_else (or_else a b) c) (VStr "")
  = first_or truthy [a; b; c] (VStr "").
Proof.
  unfold or_else, first_or. simpl.
  destruct (truthy a) eqn:Ea; [ now rewrite ?Ea | ].
  destruct (truthy b) eqn:Eb; [ now rewrite ?Eb | ].
  destruct (truthy c) eqn:Ec; [ now rewrite ?Ec | ].
  reflexivity.
Qed.

(** What a successful [normalize_item] computed. *)
Lemma normalize_item_inv (i : value) (n : NormItem) :
  normalize_item i = Ok n ->
  nullish i = false /\
  (exists s,
     ToString
       (first_or truthy
          [get_opt i "productId"; get_opt i "id"; get_opt i "name"]
          (VStr "")) = Ok s /\
     productId n = trim s) /\
  coerced_qty i = Ok (qty n) /\
  coerced_price i = Ok (priceSnap n).
Proof.
  intros H.
  destruct (nullish i) eqn:Hi;
    [ rewrite (normalize_item_nullish _ Hi) in H; discriminate | ].
  unfold normalize_item in H.
  rewrite !(get_not_nullish _ _ Hi) in H. cbn [bind] in H.
  rewrite or_chain_first in H. unfold coerced_qty, coerced_price.
  destruct (ToString _) as [ s | ]; [ | discriminate ].
  destruct (ToNumber (coalesce (coalesce _ _) _)) as [ q | ];
    [ | discriminate ].
  destruct (ToNumber (coalesce (get_opt i "price") _)) as [ pr | ];
    [ | discriminate ].
  cbn [bind] in H. injection H as <-. simpl.
  split; [ reflexivity | split; [ now exists s | split; reflexivity ] ].
Qed.

Lemma ToNumber_primitive (v : value) :
  primitive v = true -> exists x, ToNumber v = Ok x.
Proof.
  destruct v as [ | | [ | ] | x | s | l | fields ]; simpl;
    try discriminate; eauto.
Qed.

Lemma primitive_first_or (l : list value) (keep : value -> bool)
  (dflt : value) :
  Forall (fun v => primitive v = true) l ->
  primitive dflt = true ->
  primitive (first_or keep l dflt) = true.
Proof.
  intros Hl Hd. unfold first_or.
  destruct (find keep l) as [ v | ] eqn:E; [ | exact Hd ].
  apply find_some in E. rewrite Forall_forall in Hl. now apply Hl.
Qed.

Lemma primitive_coalesce (a b : value) :
  primitive a = true -> primitive b = true -> primitive (coalesce a b) = true.
Proof. unfold coalesce. now destruct (nullish a). Qed.

(** An item whose fields are not objects (nor arrays) normalises. *)
Lemma normalize_item_total (i : value) :
  nullish i = false ->
  (forall k, primitive (get_opt i k) = true) ->
  exists n, normalize_item i = Ok n.
Proof.
  intros Hi Hp. unfold normalize_item.
  rewrite !(get_not_nullish _ _ Hi). cbn [bind]. rewrite or_chain_first.
  destruct (ToString_primitive
              (first_or truthy
                 [get_opt i "productId"; get_opt i "id"; get_opt i "name"]
                 (VStr ""))) as [s ->].
  { apply primitive_first_or; [ | reflexivity ]. repeat constructor; apply Hp. }
  destruct (ToNumber_primitive
              (coalesce (coalesce (get_opt i "qty") (get_opt i "quantity"))
                 (VNum one))) as [q ->].
  { repeat apply primitive_coalesce; try apply Hp. reflexivity. }
  destruct (ToNumber_primitive (coalesce (get_opt i "price") (VNum zero)))
    as [pr ->].
  { apply primitive_coalesce; [ apply Hp | reflexivity ]. }
  cbn [bind]. eauto.
Qed.

Lemma mapM_In {A B : Type} (f : A -> result B) (l : list A) (l' : list B)
  (y : B) :
  mapM f l = Ok l' -> In y l' -> exists x, In x l /\ f x = Ok y.
Proof.
  revert l'. induction l as [ | x l IH ]; intros l' H Hy; simpl in H.
  - injection H as <-. destruct Hy.
  - destruct (f x) as [ y0 | ] eqn:Ex; [ | discriminate ].
    destruct (mapM f l) as [ ys | ]; [ | discriminate ].
    simpl in H. injection H as <-.
    destruct Hy as [<- | Hy].
    + exists x. split; [ now left | exact Ex ].
    + destruct (IH ys eq_refl Hy) as (x' & Hin & E).
      exists x'. split; [ now right | exact E ].
Qed.

Lemma mapM_length {A B : Type} (f : A -> result B) (l : list A)
  (l' : list B) :
  mapM f l = Ok l' -> List.length l' = List.length l.
Proof.
  revert l'. induction l as [ | x l IH ]; intros l' H; simpl in H.
  - now injection H as <-.
  - destruct (f x) as [ y0 | ]; [ | discriminate ].
    destruct (mapM f l) as [ ys | ]; [ | discriminate ].
    simpl in H. injection H as <-. simpl. now rewrite (IH ys).
Qed.

(** ** The effective quantity *)

Lemma submitted_x (db : Db) :
  (forall q, In q (products db) -> product_id q <> "x") ->
  submitted db "ADMU" "Gate 2.5" "gcash" "" [norm_x] = order_x.
Proof.
  intros Hx.
  assert (Hu : unit_price (priceMap_of db [norm_x]) norm_x = num_of_Z 10).
  { unfold priceMap_of. rewrite unit_price_unmatched; [ reflexivity | ].
    intros q Hq. apply fetched_In in Hq. now apply Hx. }
  unfold submitted, make_order, compute_total, make_item. simpl.
  rewrite stored_price_unit, Hu. reflexivity.
Qed.

(** C6. For every raw item that normalises, the normalised quantity is
    [Number(i.qty ?? i.quantity ?? 1)]; when both fields are missing, and
    whenever that number is not a finite number above 0, the effective
    quantity is 1; the effective quantity is the quantity stored on the
    order item and the factor of the line in the total.  The payload
    [{ cart: [{ name: "x", qty: 0, price: 10 }] }], with no product [x] in
    the catalog, submits an order of one item [x] with quantity 1, price
    10 and total 10, reported by the 200 response when the store takes
    it. *)
Theorem effective_quantity_default :
  (forall (i : value) (n : NormItem),
     normalize_item i = Ok n ->
     coerced_qty i = Ok (qty n) /\
     (nullish (get_opt i "qty") = true ->
      nullish (get_opt i "quantity") = true ->
      effective_qty n = one) /\
     (valid_qty (qty n) = false -> effective_qty n = one) /\
     (forall priceMap,
        item_qty (make_item priceMap n) = effective_qty n /\
        line_amount priceMap n =
          num_mul (unit_price priceMap n) (effective_qty n))) /\
  (forall (accepts : OrderData -> bool) (db : Db),
     (forall q, In q (products db) -> product_id q <> "x") ->
     calls (snd (checkout accepts payload_x db)) =
       calls db ++ [FindManyProducts ["x"]; CreateOrder order_x] /\
     (accepts order_x = true ->
      fst (checkout accepts payload_x db) =
        {| status := 200;
           json :=
             Summary (List.length (orders db)) (num_of_Z 10) "gcash"
               "Gate 2.5" 1 |})).
Proof.
  split.
  - intros i n H.
    destruct (normalize_item_inv _ _ H) as (_ & _ & Hq & _).
    split; [ exact Hq | ]. split; [ | split ].
    + intros H1 H2. unfold coerced_qty, coalesce in Hq.
      rewrite H1, H2 in Hq. simpl in Hq. injection Hq as Hq.
      unfold effective_qty. rewrite <- Hq. reflexivity.
    + apply effective_qty_invalid.
    + intros priceMap. split; reflexivity.
  - intros accepts db Hx.
    assert (Hin : intake payload_x
                  = Ok ("ADMU", "Gate 2.5", "gcash", "", [norm_x]))
      by reflexivity.
    assert (Hne : [norm_x] <> []) by discriminate.
    pose proof (submitted_x db Hx) as Hs.
    split.
    + rewrite (submitted_calls accepts _ db _ _ _ _ _ Hin Hne), Hs.
      reflexivity.
    + intros Hacc. rewrite <- Hs in Hacc.
      rewrite (checkout_accepted _ _ _ _ _ _ _ _ Hin Hne Hacc), Hs.
      reflexivity.
Qed.

Lemma effective_quantity_default_witness :
  effective_qty norm_x = one /\
  fst (checkout accept_all payload_x demo_db) =
    {| status := 200;
       json := Summary 0 (num_of_Z 10) "gcash" "Gate 2.5" 1 |}.
Proof.
  destruct effective_quantity_default as [Hitem Hscenario].
  split.
  - refine
      (proj1
         (proj2
            (proj2
               (Hitem
                  (VObj [("name", VStr "x"); ("qty", js_int 0);
                         ("price", js_int 10)])
                  norm_x _)))
         _); reflexivity.
  - refine (proj2 (Hscenario accept_all demo_db _) _).
    + intros q [<- | []]. discriminate.
    + reflexivity.
Defined.

(** ** The normalised items *)

(** C7 (as amended). Every element [n] of the normalised list comes from a
    raw item of the request, the lists having the same length; its
    [productId] is a trimmed string; its [qty] is
    [Number(i.qty ?? i.quantity ?? 1)] and its [priceSnap] is
    [Number(i.price ?? 0)], as they come: it is only where the item is
    used that an invalid quantity is replaced by 1 (the effective
    quantity is a finite number above 0) and a price snapshot that is not
    finite by 0 (the snapshot used is finite). *)
Theorem normalized_item_invariants (raw : list value)
  (norm : list NormItem) (n : NormItem) :
  normalize raw = Ok norm ->
  In n norm ->
  List.length norm = List.length raw /\
  (exists i,
     In i raw /\ normalize_item i = Ok n /\
     coerced_qty i = Ok (qty n) /\ coerced_price i = Ok (priceSnap n)) /\
  trim (productId n) = productId n /\
  valid_qty (effective_qty n) = true /\
  (valid_qty (qty n) = true -> effective_qty n = qty n) /\
  (valid_qty (qty n) = false -> effective_qty n = one) /\
  num_isFinite (snapshot_or_zero n) = true /\
  (num_isFinite (priceSnap n) = true -> snapshot_or_zero n = priceSnap n) /\
  (num_isFinite (priceSnap n) = false -> snapshot_or_zero n = zero).
Proof.
  intros Hn Hin. unfold normalize in Hn.
  split; [ now apply (mapM_length normalize_item) | ].
  destruct (mapM_In _ _ _ _ Hn Hin) as (i & Hi & E).
  destruct (normalize_item_inv _ _ E) as (_ & (s & _ & Hs) & Hq & Hp).
  split; [ exists i; auto | ].
  split; [ rewrite Hs; apply trim_idem | ].
  split; [ apply effective_qty_valid | ].
  split; [ apply effective_qty_kept | ].
  split; [ apply effective_qty_invalid | ].
  unfold snapshot_or_zero.
  destruct (num_isFinite (priceSnap n)) eqn:Ef; repeat split; auto;
    discriminate.
Qed.

Lemma normalized_item_invariants_witness :
  valid_qty
    (effective_qty
       {| productId := ""; qty := zero; priceSnap := num_of_Z (-5) |})
  = true.
Proof.
  refine
    (proj1
       (proj2
          (proj2
             (proj2
                (normalized_item_invariants [item_zero_qty]
                   [ {| productId := ""; qty := zero;
                        priceSnap := num_of_Z (-5) |} ]
                   {| productId := ""; qty := zero;
                      priceSnap := num_of_Z (-5) |} _ _))))).
  - reflexivity.
  - left. reflexivity.
Defined.

(** C7, as the specification states it, fails: the raw item
    [{ qty: 0, price: -5 }] normalises to an item whose [qty] is 0, not a
    positive number, and whose [priceSnap] is -5, a negative number. *)
Lemma normalized_item_invariants_counterexample :
  let n := {| productId := ""; qty := zero; priceSnap := num_of_Z (-5) |} in
  normalize [item_zero_qty] = Ok [n] /\
  num_gtb (qty n) zero = false /\
  num_ltb (priceSnap n) zero = true.
Proof. cbv zeta. repeat split; reflexivity. Qed.

(** ** The identifier *)

Lemma id_fields_not_nullish (i : value) :
  nullish i = false ->
  id_fields i
  = Ok [get_opt i "productId"; get_opt i "id"; get_opt i "name"].
Proof.
  intros Hi. unfold id_fields. now rewrite !(get_not_nullish _ _ Hi).
Qed.

(** C8 (as amended). For every raw item that normalises, the identifier is
    the first truthy one of the fields [productId], [id], [name] (a field
    that is missing, [null], [false], [0], [NaN] or the empty string is
    passed over), coerced to a string and trimmed, and the empty string
    when none is truthy; a string of white space is truthy, is chosen,
    and trims to the empty string.  Items that are not [null] and whose
    fields are not objects do normalise. *)
Theorem identifier_first_truthy :
  (forall (i : value) (n : NormItem),
     normalize_item i = Ok n ->
     truthy_identifier i = Ok (productId n) /\
     (truthy (get_opt i "productId") = false ->
      truthy (get_opt i "id") = false ->
      truthy (get_opt i "name") = false ->
      productId n = "") /\
     (forall s,
        first_or truthy
          [get_opt i "productId"; get_opt i "id"; get_opt i "name"]
          (VStr "") = VStr s ->
        productId n = trim s)) /\
  (forall i : value,
     nullish i = false ->
     (forall k, primitive (get_opt i k) = true) ->
     exists n, normalize_item i = Ok n).
Proof.
  split; [ | exact normalize_item_total ].
  intros i n H.
  destruct (normalize_item_inv _ _ H) as (Hi & (s & Hs & Hp) & _ & _).
  split; [ | split ].
  - unfold truthy_identifier. rewrite (id_fields_not_nullish _ Hi).
    cbn [bind]. rewrite Hs. cbn [bind]. now rewrite Hp.
  - intros Ha Hb Hc. unfold first_or in Hs. simpl in Hs.
    rewrite Ha, Hb, Hc in Hs. simpl in Hs. injection Hs as <-.
    rewrite Hp. reflexivity.
  - intros s' E. rewrite E in Hs. simpl in Hs. injection Hs as <-.
    exact Hp.
Qed.

Lemma identifier_first_truthy_witness :
  productId {| productId := "p1"; qty := one; priceSnap := zero |}
  = trim "p1".
Proof.
  refine
    (proj2
       (proj2
          (proj1 identifier_first_truthy item_id_zero_p1
             {| productId := "p1"; qty := one; priceSnap := zero |} _))
       "p1" _); reflexivity.
Defined.

(** C8, as the specification states it, fails on a numeric 0 identifier:
    [{ productId: 0 }] has a [productId] field, whose string is ["0"], but
    normalises to the empty identifier; and [{ productId: 0, id: "p1" }]
    normalises to ["p1"], the second field, not to ["0"], the first. *)
Lemma identifier_first_truthy_counterexample :
  specified_identifier item_id_zero = Ok "0" /\
  normalize_item item_id_zero =
    Ok {| productId := ""; qty := one; priceSnap := zero |} /\
  specified_identifier item_id_zero_p1 = Ok "0" /\
  normalize_item item_id_zero_p1 =
    Ok {| productId := "p1"; qty := one; priceSnap := zero |}.
Proof. repeat split; reflexivity. Qed.

(** ** The header fields of a created order *)

(** C9. For every order created by checkout, the stored payment method is
    the coerced [paymentMethod] of the request (["gcash"] by default);
    the stored [gcashNumber] is a string exactly when that method is
    ["gcash"], and then it is the coerced [gcashNumber] of the request,
    the empty string when the request gives none; for any other method
    it is [null]. *)
Theorem gcash_number_stored (accepts : OrderData -> bool) (body : value)
  (db : Db) (o : Order) :
  creates accepts body db o ->
  header body "paymentMethod" "gcash" = Ok (paymentMethod (order_data o)) /\
  (paymentMethod (order_data o) = "gcash" <->
   gcashNumber (order_data o) <> None) /\
  (paymentMethod (order_data o) = "gcash" ->
   exists g,
     header body "gcashNumber" "" = Ok g /\
     gcashNumber (order_data o) = Some g /\
     (truthy (get_opt body "gcashNumber") = false -> g = "")) /\
  (paymentMethod (order_data o) <> "gcash" ->
   gcashNumber (order_data o) = None).
Proof.
  intros H.
  destruct (creates_inv _ _ _ _ H)
    as (c & p & pm & g & norm & Hin & _ & _ & ->).
  destruct (intake_inv _ _ _ _ _ _ Hin) as [Hh _].
  destruct (headers_inv _ _ _ _ _ Hh) as (_ & _ & Hpm & Hg).
  cbn [order_data]. unfold submitted, make_order.
  cbn [paymentMethod gcashNumber].
  split; [ exact Hpm | ].
  destruct (String.eqb pm "gcash") eqn:E.
  - apply String.eqb_eq in E. split; [ | split ].
    + split; [ discriminate | auto ].
    + intros _. exists g. split; [ exact Hg | split; [ reflexivity | ] ].
      intros Hf. unfold header, or_else in Hg. rewrite Hf in Hg.
      simpl in Hg. now injection Hg as <-.
    + intros Hne. contradiction.
  - apply String.eqb_neq in E. split; [ | split ].
    + split; [ contradiction | intros Hne; now elim Hne ].
    + intros Hpm'. contradiction.
    + reflexivity.
Qed.

Lemma gcash_number_stored_witness :
  gcashNumber
    (order_data
       {| order_id := 0;
          order_data :=
            submitted demo_db "ADMU" "Gate 2.5" "cod" "0917"
              [ {| productId := "pen"; qty := one; priceSnap := zero |} ] |})
  = None.
Proof.
  refine
    (proj2
       (proj2
          (proj2
             (gcash_number_stored accept_all payload_cod demo_db _ _)))
       _).
  - reflexivity.
  - discriminate.
Defined.

(** C10. For every request whose body is a bare array, the four
    conversions of lines 198-201 give the defaults, and every order the
    request creates carries campus ["ADMU"], pickup ["Gate 2.5"], payment
    method ["gcash"] and the empty string as [gcashNumber]. *)
Theorem bare_array_defaults (accepts : OrderData -> bool) (L : list value)
  (db : Db) (o : Order) :
  creates accepts (VArr L) db o ->
  headers (VArr L) = Ok ("ADMU", "Gate 2.5", "gcash", "") /\
  campus (order_data o) = "ADMU" /\
  pickup (order_data o) = "Gate 2.5" /\
  paymentMethod (order_data o) = "gcash" /\
  gcashNumber (order_data o) = Some "".
Proof.
  intros H.
  destruct (creates_inv _ _ _ _ H)
    as (c & p & pm & g & norm & Hin & _ & _ & ->).
  destruct (intake_inv _ _ _ _ _ _ Hin) as [Hh _].
  change (headers (VArr L)) with (Ok ("ADMU", "Gate 2.5", "gcash", "")) in Hh.
  injection Hh as <- <- <- <-.
  repeat split; reflexivity.
Qed.

Lemma bare_array_defaults_witness :
  campus
    (order_data
       {| order_id := 0;
          order_data :=
            submitted demo_db "ADMU" "Gate 2.5" "gcash" ""
              [ {| productId := "p2"; qty := one; priceSnap := one |} ] |})
  = "ADMU".
Proof.
  refine
    (proj1
       (proj2
          (bare_array_defaults accept_all
             [VObj [("productId", VStr "p2"); ("qty", js_int 1);
                    ("price", js_int 1)]]
             demo_db _ _))).
  reflexivity.
Defined.

(** ** The scenarios of the specification, run *)

(** [{ items: [{ id: "p1", qty: 2, price: 50 }] }] with no [p1] in the
    catalog: the snapshot 50 is the stored price, the total is 100. *)
Example scenario_snapshot_fallback :
  checkout accept_all payload_p1 demo_db =
    ({| status := 200;
        json := Summary 0 (num_of_Z 100) "gcash" "Gate 2.5" 1 |},
     {| products := products demo_db;
        orders :=
          [ {| order_id := 0;
               order_data :=
                 {| campus := "ADMU"; pickup := "Gate 2.5";
                    paymentMethod := "gcash"; gcashNumber := Some "";
                    total := num_of_Z 100;
                    items :=
                      [ {| item_productId := "p1"; item_qty := num_of_Z 2;
                           item_price := num_of_Z 50 |} ] |} |} ];
        calls :=
          [ FindManyProducts ["p1"];
            CreateOrder
              {| campus := "ADMU"; pickup := "Gate 2.5";
                 paymentMethod := "gcash"; gcashNumber := Some "";
                 total := num_of_Z 100;
                 items :=
                   [ {| item_productId := "p1"; item_qty := num_of_Z 2;
                        item_price := num_of_Z 50 |} ] |} ] |}).
Proof. reflexivity. Qed.

(** A store that rejects the order: 500, the catalog read and the attempt
    are logged, the order store is unchanged. *)
Example scenario_store_rejects :
  let r := checkout (fun _ => false) payload_p2 demo_db in
  status (fst r) = 500%nat /\
  orders (snd r) = [] /\
  List.length (calls (snd r)) = 2%nat.
Proof. cbv zeta. repeat split; reflexivity. Qed.

(** Coercions at work: a numeric string is a quantity, a word is not. *)
Example scenario_string_quantities :
  normalize
    [ VObj [("id", js_int 7); ("qty", VStr " 3 "); ("price", VStr "12.5")];
      VObj [("name", VStr "  pen  "); ("quantity", VStr "many")] ]
  = Ok [ {| productId := "7"; qty := num_of_Z 3;
            priceSnap := Fin (Dec 125 (-1)) |};
         {| productId := "pen"; qty := NaN; priceSnap := zero |} ].
Proof. reflexivity. Qed.

(** * Further properties of the handlers *)

(** ** Checkout and the persistence layer *)

(** The four ways through the handler. *)
Lemma checkout_cases (accepts : OrderData -> bool) (body : value) (db : Db) :
  (intake body = Throw /\ checkout accepts body db = (server_error, db)) \/
  (exists c p pm g,
     intake body = Ok (c, p, pm, g, []) /\
     checkout accepts body db = (no_items body, db)) \/
  (exists c p pm g norm,
     intake body = Ok (c, p, pm, g, norm) /\ norm <> [] /\
     accepts (submitted db c p pm g norm) = true /\
     checkout accepts body db =
       ({| status := 200;
           json :=
             Summary (List.length (orders db))
               (total (submitted db c p pm g norm)) pm p (List.length norm) |},
        {| products := products db;
           orders :=
             orders db ++
             [{| order_id := List.length (orders db);
                 order_data := submitted db c p pm g norm |}];
           calls :=
             calls db ++
             [FindManyProducts (lookup_ids norm);
              CreateOrder (submitted db c p pm g norm)] |})) \/
  (exists c p pm g norm,
     intake body = Ok (c, p, pm, g, norm) /\ norm <> [] /\
     accepts (submitted db c p pm g norm) = false /\
     checkout accepts body db =
       (server_error,
        {| products := products db;
           orders := orders db;
           calls :=
             calls db ++
             [FindManyProducts (lookup_ids norm);
              CreateOrder (submitted db c p pm g norm)] |})).
Proof.
  destruct (intake body) as [ [[[[c p] pm] g] norm] | ] eqn:Hin.
  - destruct norm as [ | i norm' ].
    + right; left. exists c, p, pm, g. split; [ reflexivity | ].
      now apply (checkout_empty _ _ _ c p pm g).
    + assert (Hne : i :: norm' <> []) by discriminate.
      destruct (accepts (submitted db c p pm g (i :: norm'))) eqn:Hacc.
      * right; right; left. exists c, p, pm, g, (i :: norm').
        repeat split; auto. now apply checkout_accepted.
      * right; right; right. exists c, p, pm, g, (i :: norm').
        repeat split; auto. now apply checkout_rejected.
  - left. split; [ reflexivity | now apply checkout_throw ].
Qed.

Lemma submitted_items_length (db : Db) (c p pm g : string)
  (norm : list NormItem) :
  List.length (items (submitted db c p pm g norm)) = List.length norm.
Proof. unfold submitted, make_order. cbn [items]. apply length_map. Qed.

(** X1. Whatever the request, and whether the catalog read succeeds or
    not, the handler leaves the product catalog as it was, keeps every
    stored order in place, and adds at most one order at the end of the
    store; the log of database calls only grows: by nothing, or by one
    catalog read that failed, the answer then being 500 and the order
    store unchanged, or by one catalog read that succeeded followed by
    one order creation. *)
Theorem checkout_frame (accepts : OrderData -> bool)
  (reads : list string -> bool) (body : value) (db : Db) :
  products (snd (checkout_with accepts reads body db)) = products db /\
  (orders (snd (checkout_with accepts reads body db)) = orders db \/
   exists o,
     orders (snd (checkout_with accepts reads body db)) = orders db ++ [o]) /\
  (calls (snd (checkout_with accepts reads body db)) = calls db \/
   (exists ids,
      calls (snd (checkout_with accepts reads body db)) =
        calls db ++ [FindManyProducts ids] /\
      reads ids = false /\
      fst (checkout_with accepts reads body db) = server_error /\
      orders (snd (checkout_with accepts reads body db)) = orders db) \/
   (exists ids data,
      calls (snd (checkout_with accepts reads body db)) =
        calls db ++ [FindManyProducts ids; CreateOrder data] /\
      reads ids = true)).
Proof.
  destruct (checkout_with_cases accepts reads body db)
    as [ [_ E] | [ (c & p & pm & g & _ & E)
       | [ (c & p & pm & g & norm & _ & _ & Hr & E)
         | (c & p & pm & g & norm & Hin & Hne & Hr & E) ] ] ].
  - rewrite E; cbn [snd products orders calls]. auto.
  - rewrite E; cbn [snd products orders calls]. auto.
  - rewrite E; cbn [fst snd products orders calls].
    split; [ reflexivity | split; [ left; reflexivity | ] ].
    right; left. exists (lookup_ids norm). auto.
  - rewrite E.
    destruct (accepts (submitted db c p pm g norm)) eqn:Hacc.
    + rewrite (checkout_accepted _ _ _ _ _ _ _ _ Hin Hne Hacc).
      cbn [snd products orders calls].
      split; [ reflexivity | split; [ right; eauto | ] ].
      right; right. eauto.
    + rewrite (checkout_rejected _ _ _ _ _ _ _ _ Hin Hne Hacc).
      cbn [snd products orders calls].
      split; [ reflexivity | split; [ left; reflexivity | ] ].
      right; right. eauto.
Qed.

(** X2. The status is 200, 422 or 500.  It is 200 exactly when the request
    created an order, and then the response reports that order: its
    identifier, total, payment method, pickup point and number of items.
    With any other status the order store is unchanged. *)
Theorem checkout_response_matches_store (accepts : OrderData -> bool)
  (body : value) (db : Db) :
  (status (fst (checkout accepts body db)) = 200%nat \/
   status (fst (checkout accepts body db)) = 422%nat \/
   status (fst (checkout accepts body db)) = 500%nat) /\
  (status (fst (checkout accepts body db)) = 200%nat <->
   exists o, creates accepts body db o) /\
  (forall o, creates accepts body db o ->
     json (fst (checkout accepts body db)) =
       Summary (order_id o) (total (order_data o))
         (paymentMethod (order_data o)) (pickup (order_data o))
         (List.length (items (order_data o)))) /\
  (status (fst (checkout accepts body db)) <> 200%nat ->
   orders (snd (checkout accepts body db)) = orders db).
Proof.
  unfold creates.
  destruct (checkout_cases accepts body db)
    as [ [_ E] | [ (c & p & pm & g & _ & E)
       | [ (c & p & pm & g & norm & _ & _ & _ & E)
         | (c & p & pm & g & norm & _ & _ & _ & E) ] ] ];
    rewrite E; cbn [fst snd status json orders].
  - split; [ auto | ]. split; [ | split ].
    + split; [ discriminate | ]. intros [o H]. symmetry in H.
      now apply app_one_neq in H.
    + intros o H. symmetry in H. now apply app_one_neq in H.
    + reflexivity.
  - split; [ auto | ]. split; [ | split ].
    + split; [ discriminate | ]. intros [o H]. symmetry in H.
      now apply app_one_neq in H.
    + intros o H. symmetry in H. now apply app_one_neq in H.
    + reflexivity.
  - split; [ auto | ]. split; [ | split ].
    + split; [ eauto | reflexivity ].
    + intros o H. apply app_inv_head in H. injection H as <-.
      cbn [order_id order_data]. now rewrite submitted_items_length.
    + intros H. now elim H.
  - split; [ auto | ]. split; [ | split ].
    + split; [ discriminate | ]. intros [o H]. symmetry in H.
      now apply app_one_neq in H.
    + intros o H. symmetry in H. now apply app_one_neq in H.
    + reflexivity.
Qed.

(** ** Checkout: one bad item, and the stored items *)

Lemma mapM_throw {A B : Type} (f : A -> result B) (l : list A) (x : A) :
  In x l -> f x = Throw -> mapM f l = Throw.
Proof.
  induction l as [ | y l IH ]; intros Hin Hx; [ destruct Hin | ].
  simpl. destruct Hin as [-> | Hin].
  - now rewrite Hx.
  - destruct (f y); [ | reflexivity ]. simpl. now rewrite (IH Hin Hx).
Qed.

Lemma mapM_Forall2 {A B : Type} (f : A -> result B) (l : list A)
  (l' : list B) :
  mapM f l = Ok l' -> Forall2 (fun x y => f x = Ok y) l l'.
Proof.
  revert l'. induction l as [ | x l IH ]; intros l' H; simpl in H.
  - injection H as <-. constructor.
  - destruct (f x) as [ y | ] eqn:Ex; [ | discriminate ].
    destruct (mapM f l) as [ ys | ]; [ | discriminate ].
    simpl in H. injection H as <-. constructor; [ exact Ex | now apply IH ].
Qed.

(** X3. A single raw item that cannot be normalised ([null], for which
    line 211 reads a property of [null], is one) fails the whole request:
    the answer is the 500 of the [catch], and the persistence layer is
    not called at all, whatever the other items are. *)
Theorem bad_item_fails_request (accepts : OrderData -> bool) (body : value)
  (db : Db) (i : value) :
  In i (select_items body) ->
  normalize_item i = Throw ->
  checkout accepts body db =
    ({| status := 500; json := Failure "Checkout failed" |}, db).
Proof.
  intros Hin Hi. apply checkout_throw. unfold intake.
  destruct (headers body); [ | reflexivity ]. cbn [bind]. unfold normalize.
  now rewrite (mapM_throw _ _ _ Hin Hi).
Qed.

Lemma bad_item_fails_request_witness :
  checkout accept_all payload_null_item demo_db =
    ({| status := 500; json := Failure "Checkout failed" |}, demo_db).
Proof.
  apply (bad_item_fails_request accept_all payload_null_item demo_db VNull).
  - right. left. reflexivity.
  - reflexivity.
Defined.

(** X4. A created order stores exactly one item per raw item of the
    request, in the order of the request: the stored list is the image of
    the normalised list, which matches the raw list item by item, so that
    nothing is dropped and repeated identifiers are not merged. *)
Theorem one_stored_item_per_raw_item (accepts : OrderData -> bool)
  (body : value) (db : Db) (o : Order) :
  creates accepts body db o ->
  exists norm,
    Forall2 (fun raw n => normalize_item raw = Ok n) (select_items body) norm /\
    items (order_data o) = map (make_item (priceMap_of db norm)) norm /\
    List.length (items (order_data o)) = List.length (select_items body).
Proof.
  intros H.
  destruct (creates_inv _ _ _ _ H)
    as (c & p & pm & g & norm & Hin & _ & _ & ->).
  destruct (intake_inv _ _ _ _ _ _ Hin) as [_ Hn].
  exists norm. cbn [order_data]. split; [ now apply mapM_Forall2 | ].
  split; [ reflexivity | ].
  rewrite submitted_items_length. now apply (mapM_length normalize_item).
Qed.

Lemma one_stored_item_per_raw_item_witness :
  exists norm,
    Forall2 (fun raw n => normalize_item raw = Ok n)
      (select_items payload_p1) norm /\
    items (submitted demo_db "ADMU" "Gate 2.5" "gcash" ""
             [ {| productId := "p1"; qty := num_of_Z 2;
                  priceSnap := num_of_Z 50 |} ])
    = map (make_item (priceMap_of demo_db norm)) norm /\
    List.length
      (items (submitted demo_db "ADMU" "Gate 2.5" "gcash" ""
                [ {| productId := "p1"; qty := num_of_Z 2;
                     priceSnap := num_of_Z 50 |} ]))
    = List.length (select_items payload_p1).
Proof.
  apply (one_stored_item_per_raw_item accept_all payload_p1 demo_db
           {| order_id := 0;
              order_data :=
                submitted demo_db "ADMU" "Gate 2.5" "gcash" ""
                  [ {| productId := "p1"; qty := num_of_Z 2;
                       priceSnap := num_of_Z 50 |} ] |}).
  reflexivity.
Defined.

Lemma unit_price_finite (priceMap : list (string * value)) (i : NormItem) :
  num_isFinite (unit_price priceMap i) = true.
Proof.
  unfold unit_price, dbPrice.
  destruct (priceMap_at priceMap (productId i)) as [ | | | n | | | ];
    try (destruct (num_isFinite (priceSnap i)) eqn:E; [ exact E | reflexivity ]).
  destruct (num_isFinite n) eqn:En; [ exact En | ].
  destruct (num_isFinite (priceSnap i)) eqn:E; [ exact E | reflexivity ].
Qed.

Lemma make_item_well_formed (priceMap : list (string * value))
  (i : NormItem) :
  item_productId (make_item priceMap i) <> "" /\
  valid_qty (item_qty (make_item priceMap i)) = true /\
  num_isFinite (item_price (make_item priceMap i)) = true.
Proof.
  unfold make_item. cbn [item_productId item_qty item_price].
  split; [ | split ].
  - destruct (productId i) as [ | c s ]; simpl; discriminate.
  - apply effective_qty_valid.
  - rewrite stored_price_unit. apply unit_price_finite.
Qed.

(** X5. Every item stored with a created order is well formed, whatever
    the client sent: its [productId] is not the empty string (the sentinel
    ["UNKNOWN"] stands in for an empty identifier), its quantity is a
    finite number above 0, and its price is a finite number. *)
Theorem stored_items_well_formed (accepts : OrderData -> bool)
  (body : value) (db : Db) (o : Order) (it : OrderItem) :
  creates accepts body db o ->
  In it (items (order_data o)) ->
  item_productId it <> "" /\
  valid_qty (item_qty it) = true /\
  num_isFinite (item_price it) = true.
Proof.
  intros H Hit.
  destruct (creates_inv _ _ _ _ H)
    as (c & p & pm & g & norm & _ & _ & _ & ->).
  cbn [order_data] in Hit. unfold submitted, make_order in Hit.
  cbn [items] in Hit. apply in_map_iff in Hit.
  destruct Hit as (i & <- & _). apply make_item_well_formed.
Qed.

Lemma stored_items_well_formed_witness :
  item_productId
    {| item_productId := "UNKNOWN"; item_qty := one;
       item_price := num_of_Z (-5) |} <> "".
Proof.
  refine
    (proj1
       (stored_items_well_formed accept_all payload_negative demo_db
          {| order_id := 0;
             order_data :=
               submitted demo_db "ADMU" "Gate 2.5" "gcash" ""
                 [ {| productId := ""; qty := one;
                      priceSnap := num_of_Z (-5) |} ] |}
          {| item_productId := "UNKNOWN"; item_qty := one;
             item_price := num_of_Z (-5) |} _ _)).
  - reflexivity.
  - left. reflexivity.
Defined.

(** ** Checkout: what is not read *)

Lemma get_agree (keys : list string) (f1 f2 : list (string * value))
  (k : string) :
  agree_on keys f1 f2 -> In k keys -> get (VObj f1) k = get (VObj f2) k.
Proof. intros H Hk. unfold get. now rewrite (H k Hk). Qed.

Lemma normalize_item_agree (f1 f2 : list (string * value)) :
  agree_on item_keys f1 f2 ->
  normalize_item (VObj f1) = normalize_item (VObj f2).
Proof.
  intros H. unfold normalize_item.
  rewrite (get_agree item_keys f1 f2 "productId" H) by (simpl; tauto).
  rewrite (get_agree item_keys f1 f2 "id" H) by (simpl; tauto).
  rewrite (get_agree item_keys f1 f2 "name" H) by (simpl; tauto).
  rewrite (get_agree item_keys f1 f2 "qty" H) by (simpl; tauto).
  rewrite (get_agree item_keys f1 f2 "quantity" H) by (simpl; tauto).
  rewrite (get_agree item_keys f1 f2 "price" H) by (simpl; tauto).
  reflexivity.
Qed.

Lemma get_opt_agree (keys : list string) (f1 f2 : list (string * value))
  (k : string) :
  agree_on keys f1 f2 -> In k keys ->
  get_opt (VObj f1) k = get_opt (VObj f2) k.
Proof. intros H Hk. unfold get_opt. now rewrite (get_agree keys f1 f2 k H Hk). Qed.

Lemma intake_agree (b1 b2 : list (string * value)) :
  agree_on body_keys b1 b2 -> intake (VObj b1) = intake (VObj b2).
Proof.
  intros H. unfold intake, headers, header, select_items.
  rewrite (get_opt_agree body_keys b1 b2 "campus" H) by (simpl; tauto).
  rewrite (get_opt_agree body_keys b1 b2 "pickup" H) by (simpl; tauto).
  rewrite (get_opt_agree body_keys b1 b2 "paymentMethod" H) by (simpl; tauto).
  rewrite (get_opt_agree body_keys b1 b2 "gcashNumber" H) by (simpl; tauto).
  rewrite (get_opt_agree body_keys b1 b2 "items" H) by (simpl; tauto).
  rewrite (get_opt_agree body_keys b1 b2 "cart" H) by (simpl; tauto).
  reflexivity.
Qed.

(** X6. The handler reads six properties of the body and six of each raw
    item, and nothing else.  Two raw items that agree on [productId],
    [id], [name], [qty], [quantity] and [price] normalise alike; two
    object bodies that agree on [campus], [pickup], [paymentMethod],
    [gcashNumber], [items] and [cart] leave the persistence layer in the
    same state and get the same response, up to the echo of the body in
    the 422 response.  A [total] or a discount sent by the client changes
    nothing. *)
Theorem unread_fields_ignored :
  (forall f1 f2 : list (string * value),
     agree_on item_keys f1 f2 ->
     normalize_item (VObj f1) = normalize_item (VObj f2)) /\
  (forall (accepts : OrderData -> bool) (db : Db)
          (b1 b2 : list (string * value)),
     agree_on body_keys b1 b2 ->
     snd (checkout accepts (VObj b1) db) = snd (checkout accepts (VObj b2) db) /\
     status (fst (checkout accepts (VObj b1) db)) =
       status (fst (checkout accepts (VObj b2) db)) /\
     (status (fst (checkout accepts (VObj b1) db)) <> 422%nat ->
      fst (checkout accepts (VObj b1) db) =
        fst (checkout accepts (VObj b2) db))).
Proof.
  split; [ exact normalize_item_agree | ].
  intros accepts db b1 b2 H. unfold checkout, checkout_with.
  rewrite (intake_agree b1 b2 H).
  destruct (intake (VObj b2)) as [ [[[[c p] pm] g] norm] | ];
    [ | repeat split; reflexivity ].
  destruct norm as [ | i norm' ].
  - cbn [fst snd status no_items]. repeat split; try reflexivity.
    intros Hne. now elim Hne.
  - cbv zeta beta iota.
    destruct (order_create _ _ _) as [[order | ] db'];
      repeat split; reflexivity.
Qed.

Lemma unread_fields_ignored_witness :
  checkout accept_all payload_p1_tampered demo_db =
  checkout accept_all payload_p1 demo_db.
Proof.
  pose proof
    (proj2 unread_fields_ignored accept_all demo_db
       [("total", js_int 1); ("discount", js_int 99);
        ("items",
         VArr [VObj [("id", VStr "p1"); ("qty", js_int 2);
                     ("price", js_int 50)]])]
       [("items",
         VArr [VObj [("id", VStr "p1"); ("qty", js_int 2);
                     ("price", js_int 50)]])]) as H.
  assert (Ha : agree_on body_keys
                 [("total", js_int 1); ("discount", js_int 99);
                  ("items",
                   VArr [VObj [("id", VStr "p1"); ("qty", js_int 2);
                               ("price", js_int 50)]])]
                 [("items",
                   VArr [VObj [("id", VStr "p1"); ("qty", js_int 2);
                               ("price", js_int 50)]])]).
  { intros k Hk. simpl in Hk.
    repeat (destruct Hk as [<- | Hk]; [ reflexivity | ]). destruct Hk. }
  destruct (H Ha) as (Hs & _ & Hf).
  apply injective_projections; [ apply Hf; discriminate | exact Hs ].
Defined.

(** ** Checkout: the total when no price is negative *)

Lemma exact_add_settled (x y : num) :
  not_negative x -> not_negative y -> settled (exact_add x y).
Proof.
  destruct x as [ | | | a ], y as [ | | | b ]; simpl; try tauto.
  intros Ha Hb. unfold dec_add, align. apply canon_settled.
  assert (0 < 10 ^ (expo a - Z.min (expo a) (expo b))) by (apply pow10_pos; lia).
  assert (0 < 10 ^ (expo b - Z.min (expo a) (expo b))) by (apply pow10_pos; lia).
  nia.
Qed.

Lemma exact_mul_settled (x y : num) :
  not_negative x -> not_negative y -> settled (exact_mul x y).
Proof.
  destruct x as [ | | | a ], y as [ | | | b ]; simpl; try tauto.
  intros Ha Hb. unfold dec_mul. apply canon_settled. nia.
Qed.

Lemma settled_at_least_zero (x : num) : settled x -> at_least_zero x.
Proof. destruct x; simpl; tauto. Qed.

(** Rounding to binary64 keeps a number that is not negative so, or takes
    it to [+Infinity]. *)
Lemma nearest_even_not_negative (N D q : Z) :
  0 <= N -> 0 < D -> 0 <= nearest_even N D q.
Proof.
  intros HN HD. unfold nearest_even.
  set (A := if 0 <=? q then N else N * 2 ^ (- q)).
  set (B := if 0 <=? q then D * 2 ^ q else D).
  assert (HA : 0 <= A).
  { unfold A. destruct (0 <=? q) eqn:E; [ exact HN | ].
    apply Z.mul_nonneg_nonneg; [ exact HN | apply Z.pow_nonneg; lia ]. }
  assert (HB : 0 < B).
  { unfold B. destruct (0 <=? q) eqn:E; [ | exact HD ].
    apply Z.leb_le in E.
    apply Z.mul_pos_pos; [ exact HD | apply Z.pow_pos_nonneg; lia ]. }
  assert (Ht : 0 <= A / B) by (apply Z.div_pos; lia).
  cbv zeta. destruct (_ || _); lia.
Qed.

Lemma binary64_at_least_zero (d : dec) :
  0 <= mant d -> at_least_zero (binary64 d).
Proof.
  intros Hm. unfold binary64. cbv zeta.
  destruct (mant d =? 0) eqn:E0; [ right; reflexivity | ].
  apply Z.eqb_neq in E0.
  set (N := if 0 <=? expo d then Z.abs (mant d) * 10 ^ expo d
            else Z.abs (mant d)).
  set (D := if 0 <=? expo d then 1 else 10 ^ (- expo d)).
  assert (HN : 0 <= N).
  { unfold N. destruct (0 <=? expo d) eqn:E; [ | lia ].
    apply Z.leb_le in E.
    apply Z.mul_nonneg_nonneg; [ lia | now apply Z.pow_nonneg ]. }
  assert (HD : 0 < D).
  { unfold D. destruct (0 <=? expo d) eqn:E; [ lia | ].
    apply Z.leb_gt in E. apply pow10_pos. lia. }
  set (q := Z.max _ (-1074)).
  pose proof (nearest_even_not_negative N D q HN HD) as Ht.
  destruct (_ || _).
  - destruct (mant d <? 0) eqn:E; [ apply Z.ltb_lt in E; lia | exact I ].
  - rewrite Z.sgn_pos by lia. rewrite !Z.mul_1_l.
    destruct (0 <=? q); apply settled_at_least_zero, canon_settled;
      (apply Z.mul_nonneg_nonneg; [ exact Ht | apply Z.pow_nonneg; lia ]).
Qed.

Lemma to_binary64_at_least_zero (x : num) :
  at_least_zero x -> at_least_zero (to_binary64 x).
Proof.
  destruct x as [ | | | d ]; simpl; try tauto.
  intros H. apply binary64_at_least_zero. destruct H as [H | ->]; simpl; lia.
Qed.

Lemma at_least_zero_add (x y : num) :
  at_least_zero x -> at_least_zero y -> at_least_zero (exact_add x y).
Proof.
  destruct x as [ | | | a ], y as [ | | | b ]; simpl; try tauto.
  intros Ha Hb.
  apply (exact_add_settled (Fin a) (Fin b)); simpl.
  - destruct Ha as [H | ->]; simpl; lia.
  - destruct Hb as [H | ->]; simpl; lia.
Qed.

Lemma num_add_at_least_zero (x y : num) :
  at_least_zero x -> at_least_zero y -> at_least_zero (num_add x y).
Proof.
  intros Hx Hy. unfold num_add.
  now apply to_binary64_at_least_zero, at_least_zero_add.
Qed.

Lemma num_mul_at_least_zero (x y : num) :
  not_negative x -> not_negative y -> at_least_zero (num_mul x y).
Proof.
  intros Hx Hy. unfold num_mul.
  now apply to_binary64_at_least_zero, settled_at_least_zero,
    exact_mul_settled.
Qed.

Lemma Math_round_settled (x : num) : settled x -> settled (Math_round x).
Proof.
  destruct x as [ | | | d ]; simpl; try tauto.
  intros H. unfold dec_round.
  destruct (0 <=? expo d) eqn:E; [ exact H | ].
  apply Z.leb_gt in E. apply canon_settled.
  assert (Hp : 0 < 10 ^ (- expo d)) by (apply pow10_pos; lia).
  assert (Hm : 0 <= mant d) by (destruct H as [H | ->]; simpl; lia).
  apply Z.div_pos; lia.
Qed.

Lemma Math_round_at_least_zero (x : num) :
  at_least_zero x -> at_least_zero (Math_round x).
Proof.
  destruct x as [ | | | d ]; try (simpl; tauto).
  intros H. now apply settled_at_least_zero, Math_round_settled.
Qed.

Lemma Math_max_zero_at_least_zero (x : num) :
  at_least_zero x -> Math_max zero x = x.
Proof.
  destruct x as [ | | | d ]; simpl; try tauto.
  intros [H | ->]; [ | reflexivity ].
  apply gtb_zero_pos in H. unfold num_gtb in H.
  destruct (Math_max_zero_cases (Fin d)) as [[E _] | [[_ E] | [E _]]].
  - discriminate.
  - exact E.
  - congruence.
Qed.

Lemma zero_settled : settled zero.
Proof. unfold zero, num_of_Z, dec_of_Z. apply canon_settled. lia. Qed.

Lemma fold_at_least_zero (l : list num) (acc : num) :
  at_least_zero acc ->
  Forall at_least_zero l ->
  at_least_zero (fold_left num_add l acc).
Proof.
  revert acc. induction l as [ | x l IH ]; intros acc Hacc Hl; simpl.
  - exact Hacc.
  - inversion Hl as [ | ? ? Hx Hl' ]; subst.
    apply IH; [ | exact Hl' ].
    now apply num_add_at_least_zero.
Qed.

Lemma sum_left_at_least_zero (l : list num) :
  Forall at_least_zero l -> at_least_zero (sum_left l).
Proof.
  intros Hl. apply fold_at_least_zero; [ | exact Hl ].
  apply settled_at_least_zero, zero_settled.
Qed.

Lemma finite_not_below_zero (x : num) :
  num_isFinite x = true -> num_ltb x zero = false -> not_negative x.
Proof.
  destruct x as [ | | | d ]; simpl; try discriminate.
  intros _ H. now apply ltb_zero_false.
Qed.

Lemma valid_qty_not_negative (x : num) :
  valid_qty x = true -> not_negative x.
Proof.
  unfold valid_qty. destruct x as [ | | | d ]; simpl; try discriminate.
  intros H. apply gtb_zero_pos in H. lia.
Qed.

Lemma at_least_zero_not_below (x : num) :
  at_least_zero x -> num_ltb x zero = false.
Proof.
  destruct x as [ | | | d ]; simpl; try tauto.
  intros H. apply (ltb_zero_false d). destruct H as [H | ->]; simpl; lia.
Qed.

(** X7. When no item stored with a created order has a negative price,
    the sum over its items of price times quantity, in the arithmetic of
    JavaScript, is not below 0 (it is [+Infinity] when it overflows), and
    the floor at 0 of line 247 does nothing: the total of the order is
    exactly [Math.round] of that sum. *)
Theorem total_without_negative_price (accepts : OrderData -> bool)
  (reads : list string -> bool) (body : value) (db : Db) (o : Order) :
  creates_with accepts reads body db o ->
  (forall it, In it (items (order_data o)) ->
     num_ltb (item_price it) zero = false) ->
  total (order_data o) = Math_round (items_sum (items (order_data o))) /\
  num_ltb (items_sum (items (order_data o))) zero = false.
Proof.
  intros H Hprice. apply creates_with_read in H.
  assert (Hwf : forall it, In it (items (order_data o)) ->
                  valid_qty (item_qty it) = true /\
                  num_isFinite (item_price it) = true).
  { intros it Hit.
    destruct (creates_inv _ _ _ _ H)
      as (c & p & pm & g & norm & _ & _ & _ & E).
    rewrite E in Hit. cbn [order_data] in Hit.
    unfold submitted, make_order in Hit. cbn [items] in Hit.
    apply in_map_iff in Hit. destruct Hit as (i & <- & _).
    apply make_item_well_formed. }
  assert (Ht : total (order_data o) =
               Math_max zero (Math_round (items_sum (items (order_data o))))).
  { destruct (creates_inv _ _ _ _ H)
      as (c & p & pm & g & norm & _ & _ & _ & ->).
    cbn [order_data]. unfold submitted, make_order. cbn [total items].
    now rewrite items_sum_stored. }
  assert (Hs : at_least_zero (items_sum (items (order_data o)))).
  { unfold items_sum. apply sum_left_at_least_zero.
    apply Forall_forall. intros x Hx. apply in_map_iff in Hx.
    destruct Hx as (it & <- & Hit). destruct (Hwf it Hit) as [Hq Hf].
    apply num_mul_at_least_zero.
    - apply finite_not_below_zero; [ exact Hf | now apply Hprice ].
    - now apply valid_qty_not_negative. }
  split.
  - rewrite Ht.
    now apply Math_max_zero_at_least_zero, Math_round_at_least_zero.
  - now apply at_least_zero_not_below.
Qed.

Lemma total_without_negative_price_witness :
  total (submitted demo_db "ADMU" "Gate 2.5" "gcash" "" norm_cents)
  = num_of_Z 14.
Proof.
  refine
    (proj1
       (total_without_negative_price accept_all (fun _ => true)
          payload_cents demo_db
          {| order_id := 0;
             order_data :=
               submitted demo_db "ADMU" "Gate 2.5" "gcash" "" norm_cents |}
          _ _)).
  - reflexivity.
  - intros it [<- | []]. reflexivity.
Defined.

(** ** Order details after checkout *)

Lemma numbered_app (l : list Order) (o : Order) :
  numbered l -> order_id o = List.length l -> numbered (l ++ [o]).
Proof.
  intros Hl Ho k o' Hk.
  destruct (Nat.lt_ge_cases k (List.length l)) as [Hlt | Hge].
  - rewrite nth_error_app1 in Hk by exact Hlt. now apply Hl.
  - rewrite nth_error_app2 in Hk by exact Hge.
    destruct (k - List.length l)%nat as [ | n ] eqn:E; simpl in Hk.
    + injection Hk as <-. lia.
    + destruct n; discriminate.
Qed.

Lemma checkout_numbered (accepts : OrderData -> bool) (body : value)
  (db : Db) :
  numbered (orders db) -> numbered (orders (snd (checkout accepts body db))).
Proof.
  intros Hn.
  destruct (checkout_cases accepts body db)
    as [ [_ E] | [ (c & p & pm & g & _ & E)
       | [ (c & p & pm & g & norm & _ & _ & _ & E)
         | (c & p & pm & g & norm & _ & _ & _ & E) ] ] ];
    rewrite E; cbn [snd orders]; try exact Hn.
  now apply numbered_app.
Qed.

Lemma serve_numbered (accepts : OrderData -> bool) (bodies : list value)
  (db : Db) :
  numbered (orders db) -> numbered (orders (serve accepts bodies db)).
Proof.
  unfold serve. revert db.
  induction bodies as [ | b bodies IH ]; intros db Hn; simpl.
  - exact Hn.
  - apply IH. now apply checkout_numbered.
Qed.

Lemma find_numbered_from (l : list Order) (o : Order) (base : nat) :
  (forall k o', nth_error l k = Some o' -> order_id o' = (base + k)%nat) ->
  In o l ->
  find (fun o' => Nat.eqb (order_id o') (order_id o)) l = Some o.
Proof.
  revert base. induction l as [ | y l IH ]; intros base Hl Hin;
    [ destruct Hin | ].
  simpl. destruct (Nat.eqb (order_id y) (order_id o)) eqn:E.
  - apply Nat.eqb_eq in E. apply In_nth_error in Hin.
    destruct Hin as [k Hk]. pose proof (Hl k o Hk) as Ho.
    pose proof (Hl 0%nat y eq_refl) as Hy.
    assert (Hk0 : k = 0%nat) by lia. rewrite Hk0 in Hk. simpl in Hk.
    exact Hk.
  - destruct Hin as [-> | Hin];
      [ rewrite Nat.eqb_refl in E; discriminate | ].
    apply (IH (S base)); [ | exact Hin ].
    intros k o' Hk. rewrite (Hl (S k) o' Hk). lia.
Qed.

Lemma find_numbered (l : list Order) (o : Order) :
  numbered l -> In o l ->
  find (fun o' => Nat.eqb (order_id o') (order_id o)) l = Some o.
Proof.
  intros Hn Hin. apply (find_numbered_from l o 0%nat); [ | exact Hin ].
  intros k o' Hk. now apply Hn.
Qed.

Lemma serve_empty_numbered (accepts : OrderData -> bool)
  (bodies : list value) (db0 : Db) :
  orders db0 = [] -> numbered (orders (serve accepts bodies db0)).
Proof.
  intros E. apply serve_numbered. rewrite E.
  intros k o Hk. destruct k; discriminate.
Qed.

(** X8. In the store reached from an empty order store by any sequence of
    checkout requests, every stored order is returned, with status 200,
    by the order-details route under its own identifier, and an
    identifier that no stored order carries is answered 404. *)
Theorem stored_orders_retrievable (accepts : OrderData -> bool)
  (bodies : list value) (db0 : Db) :
  orders db0 = [] ->
  (forall o, In o (orders (serve accepts bodies db0)) ->
     get_order (order_id o) (serve accepts bodies db0) =
       {| order_status := 200; order_json := OrderFound o |}) /\
  (forall orderId,
     (forall o, In o (orders (serve accepts bodies db0)) ->
                order_id o <> orderId) ->
     get_order orderId (serve accepts bodies db0) =
       {| order_status := 404; order_json := OrderError "Order not found" |}).
Proof.
  intros E. pose proof (serve_empty_numbered accepts bodies db0 E) as Hn.
  split.
  - intros o Hin. unfold get_order, findUnique.
    now rewrite (find_numbered _ _ Hn Hin).
  - intros orderId Hnone. unfold get_order, findUnique.
    destruct (find _ _) as [ o | ] eqn:Ef; [ | reflexivity ].
    apply find_some in Ef. destruct Ef as [Hin Heq].
    apply Nat.eqb_eq in Heq. now elim (Hnone o Hin).
Qed.

Lemma stored_orders_retrievable_witness :
  order_status
    (get_order 1 (serve accept_all [payload_p1; payload_p2] demo_db))
  = 200%nat.
Proof.
  refine
    (f_equal order_status
       (proj1
          (stored_orders_retrievable accept_all [payload_p1; payload_p2]
             demo_db eq_refl)
          {| order_id := 1;
             order_data :=
               submitted demo_db "ADMU" "Gate 2.5" "gcash" ""
                 [ {| productId := "p2"; qty := num_of_Z 3;
                      priceSnap := zero |} ] |} _)).
  right. left. reflexivity.
Defined.

(** X9. After any sequence of checkout requests on an initially empty
    order store, when a further checkout answers 200 with some [orderId],
    the order-details route finds, under that [orderId], an order with the
    total, payment method, pickup point and number of items that the
    checkout response reported. *)
Theorem checkout_then_order_details (accepts : OrderData -> bool)
  (bodies : list value) (db0 : Db) (body : value)
  (orderId : nat) (t : num) (pm p : string) (n : nat) :
  orders db0 = [] ->
  fst (checkout accepts body (serve accepts bodies db0)) =
    {| status := 200; json := Summary orderId t pm p n |} ->
  exists o,
    get_order orderId (snd (checkout accepts body (serve accepts bodies db0)))
      = {| order_status := 200; order_json := OrderFound o |} /\
    order_id o = orderId /\
    total (order_data o) = t /\
    paymentMethod (order_data o) = pm /\
    pickup (order_data o) = p /\
    List.length (items (order_data o)) = n.
Proof.
  intros E Hresp.
  pose proof (serve_empty_numbered accepts bodies db0 E) as Hn.
  pose proof (checkout_numbered accepts body _ Hn) as Hn'.
  set (db := serve accepts bodies db0) in *.
  destruct (checkout_cases accepts body db)
    as [ [_ Ec] | [ (c & p' & pm' & g & _ & Ec)
       | [ (c & p' & pm' & g & norm & _ & _ & _ & Ec)
         | (c & p' & pm' & g & norm & _ & _ & _ & Ec) ] ] ];
    rewrite Ec in Hresp, Hn' |- *; cbn [fst snd] in *;
    try discriminate.
  injection Hresp as <- <- <- <- <-.
  exists {| order_id := List.length (orders db);
            order_data := submitted db c p' pm' g norm |}.
  cbn [order_id order_data]. split.
  - cbn [orders] in Hn'.
    assert (F := find_numbered _
                   {| order_id := List.length (orders db);
                      order_data := submitted db c p' pm' g norm |} Hn').
    cbn [order_id] in F. unfold get_order, findUnique. cbn [orders].
    rewrite F; [ reflexivity | ].
    apply in_or_app. right. left. reflexivity.
  - repeat split; try reflexivity. apply submitted_items_length.
Qed.

Lemma checkout_then_order_details_witness :
  exists o,
    get_order 1
      (snd (checkout accept_all payload_p2
              (serve accept_all [payload_p1] demo_db)))
      = {| order_status := 200; order_json := OrderFound o |} /\
    order_id o = 1%nat /\
    total (order_data o) = num_of_Z 120 /\
    paymentMethod (order_data o) = "gcash" /\
    pickup (order_data o) = "Gate 2.5" /\
    List.length (items (order_data o)) = 1%nat.
Proof.
  apply (checkout_then_order_details accept_all [payload_p1] demo_db
           payload_p2 1 (num_of_Z 120) "gcash" "Gate 2.5" 1).
  - reflexivity.
  - reflexivity.
Defined.

(** ** The CORS origin check *)

Lemma strip_prefix_spec (p s r : string) :
  strip_prefix p s = Some r <-> s = (p ++ r)%string.
Proof.
  revert s. induction p as [ | a p IH ]; intros s; simpl.
  - split; [ now intros [= ->] | now intros -> ].
  - destruct s as [ | b s ]; [ split; discriminate | ].
    destruct (Ascii.eqb a b) eqn:E.
    + apply Ascii.eqb_eq in E. subst b. rewrite IH.
      split; [ now intros -> | now intros [= ->] ].
    + apply Ascii.eqb_neq in E. split; [ discriminate | ].
      intros [= <- _]. now elim E.
Qed.

Lemma append_inv_head (p a b : string) :
  (p ++ a)%string = (p ++ b)%string -> a = b.
Proof.
  induction p as [ | c p IH ]; simpl; [ trivial | ].
  intros [= H]. now apply IH.
Qed.

Lemma all_digits_app (a b : string) :
  all_digits (a ++ b) = (all_digits a && all_digits b)%bool.
Proof.
  induction a as [ | c a IH ]; simpl; [ reflexivity | ].
  now rewrite IH, andb_assoc.
Qed.

(** X10. The origin check lets a request through exactly when it has no
    origin (or an empty one) or when the origin is [http://localhost:]
    followed by a port made of one decimal digit or more and nothing
    else.  Hence an origin with the scheme [https], and a localhost
    origin followed by a path, are refused. *)
Theorem cors_origin_characterised :
  (forall s : string,
     origin_allowed (Some s) = true <->
     s = "" \/
     exists port : string,
       port <> "" /\ all_digits port = true /\
       s = ("http://localhost:" ++ port)%string) /\
  origin_allowed None = true /\
  (forall rest : string,
     origin_allowed (Some ("https://" ++ rest)%string) = false) /\
  (forall port path : string,
     origin_allowed
       (Some ("http://localhost:" ++ port ++ "/" ++ path)%string) = false).
Proof.
  assert (Hchar : forall s : string,
            origin_allowed (Some s) = true <->
            s = "" \/
            exists port : string,
              port <> "" /\ all_digits port = true /\
              s = ("http://localhost:" ++ port)%string).
  { intros s. unfold origin_allowed, localhost_origin.
    destruct (is_empty s) eqn:Es.
    - apply is_empty_spec in Es. tauto.
    - assert (Hs : s <> "")
        by (intros ->; discriminate).
      destruct (strip_prefix "http://localhost:" s) as [ port | ] eqn:Ep.
      + apply strip_prefix_spec in Ep. rewrite andb_true_iff, negb_true_iff.
        split.
        * intros [Hne Hd]. right. exists port. repeat split; auto.
          intros ->. discriminate.
        * intros [-> | (port' & Hne & Hd & E)]; [ now elim Hs | ].
          rewrite E in Ep. apply append_inv_head in Ep. subst port'.
          split; [ | exact Hd ].
          destruct port; [ now elim Hne | reflexivity ].
      + split; [ discriminate | ].
        intros [-> | (port & _ & _ & E)]; [ now elim Hs | ].
        apply strip_prefix_spec in E. congruence. }
  split; [ exact Hchar | ]. split; [ reflexivity | ]. split.
  - intros rest. reflexivity.
  - intros port path.
    destruct (origin_allowed
                (Some ("http://localhost:" ++ port ++ "/" ++ path)%string))
      eqn:E; [ | reflexivity ].
    apply Hchar in E. destruct E as [E | (port' & _ & Hd & E)].
    + discriminate.
    + apply append_inv_head in E. rewrite <- E, all_digits_app in Hd.
      apply andb_true_iff in Hd. destruct Hd as [_ Hd]. discriminate.
Qed.

(** ** Seeding the catalog *)

Lemma createMany_app (new_id : nat -> string) (data : list Seed.ProductData)
  (table : list Seed.Row) :
  exists rows,
    Seed.createMany new_id data table = table ++ rows /\
    map Seed.row_data rows = data /\
    map Seed.row_id rows =
      map new_id (seq (List.length table) (List.length data)).
Proof.
  revert table. induction data as [ | d data IH ]; intros table; simpl.
  - exists []. rewrite app_nil_r. auto.
  - destruct (IH (table ++
                  [ {| Seed.row_id := new_id (List.length table);
                       Seed.row_data := d |} ]))
      as (rows & E & Hd & Hi).
    exists ({| Seed.row_id := new_id (List.length table);
               Seed.row_data := d |} :: rows).
    rewrite E, <- app_assoc. simpl. split; [ reflexivity | ].
    split; [ now rewrite Hd | ].
    rewrite Hi, length_app. simpl.
    now replace (List.length table + 1)%nat with (S (List.length table))
      by lia.
Qed.

(** X11. Seeding is idempotent and never touches a catalog that has
    products: on an empty catalog it stores the six products of the
    source, in their order; on any other catalog it changes nothing and
    reports the number of products; and a second call after a first one
    always finds the catalog seeded and leaves it as it is. *)
Theorem seed_idempotent (new_id : nat -> string) (table : list Seed.Row) :
  map Seed.row_data (snd (Seed.seed new_id [])) = Seed.seed_data /\
  (table <> [] ->
   Seed.seed new_id table =
     (Seed.AlreadySeeded true (List.length table) "Products already seeded",
      table)) /\
  Seed.seed new_id (snd (Seed.seed new_id table)) =
    (Seed.AlreadySeeded true (List.length (snd (Seed.seed new_id table)))
       "Products already seeded",
     snd (Seed.seed new_id table)).
Proof.
  assert (Hfull : forall t : list Seed.Row, t <> [] ->
            Seed.seed new_id t =
              (Seed.AlreadySeeded true (List.length t) "Products already seeded",
               t)).
  { intros t Ht. unfold Seed.seed. destruct t; [ congruence | reflexivity ]. }
  split; [ | split ].
  - unfold Seed.seed. cbn [List.length Nat.ltb Nat.leb snd].
    destruct (createMany_app new_id Seed.seed_data []) as (rows & E & Hd & _).
    rewrite E. exact Hd.
  - apply Hfull.
  - apply Hfull. destruct table as [ | r table ].
    + unfold Seed.seed. cbn [List.length Nat.ltb Nat.leb snd].
      destruct (createMany_app new_id Seed.seed_data [])
        as (rows & E & Hd & _).
      rewrite E. simpl. intros Hnil. rewrite Hnil in Hd. discriminate.
    + discriminate.
Qed.

(** ** The delivery estimate *)

Import Estimate.

Lemma own_point_In (k : string) (l : list (string * (num * num))) :
  own_point k l = None <-> ~ In k (map fst l).
Proof.
  induction l as [ | [k' xy] l IH ]; simpl; [ tauto | ].
  destruct (String.eqb k k') eqn:E.
  - apply String.eqb_eq in E. subst. split; [ discriminate | tauto ].
  - apply String.eqb_neq in E. rewrite IH. split.
    + intros H [H' | H']; [ now elim E | now elim H ].
    + tauto.
Qed.

Lemma COORDS_at_absent (k : string) :
  COORDS_at k = Absent <->
  ~ In k (map fst COORDS) /\
  ~ In k object_prototype_names.
Proof.
  unfold COORDS_at.
  destruct (own_point_In k COORDS) as [H1 H2].
  destruct (own_point k COORDS) as [ [lon lat] | ].
  - split; [ discriminate | ]. intros [H _]. specialize (H2 H). discriminate.
  - specialize (H1 eq_refl).
    destruct (mem k object_prototype_names) eqn:Em.
    + apply mem_In in Em. split; [ discriminate | tauto ].
    + split; [ | reflexivity ]. intros _. split; [ exact H1 | ].
      intros Hin. apply mem_In in Hin. congruence.
Qed.

Lemma falsy_absent (e : Entry) :
  falsy e = true <-> e = Absent.
Proof. destruct e; simpl; split; congruence. Qed.

(** X13. Let [from] and [to] have the strings [kf] and [kt] as property
    keys (a missing query parameter has the key ["undefined"]).  The
    estimate route answers 400 exactly when one of the two keys is neither
    one of the ten pickup points of [COORDS] nor a property name of
    [Object.prototype], and then it answers "Unknown pickup point"
    without calling OpenRouteService.  A name such as ["constructor"],
    which [COORDS] inherits, passes the check. *)
Theorem unknown_pickup_rejected (api_key : option string)
  (fetch : Entry -> Entry -> FetchOutcome)
  (from to : value) (kf kt : string) :
  ToString from = Ok kf ->
  ToString to = Ok kt ->
  (est_status (fst (estimate api_key fetch from to))
     = 400%nat <->
   (~ In kf (map fst COORDS) /\
    ~ In kf object_prototype_names) \/
   (~ In kt (map fst COORDS) /\
    ~ In kt object_prototype_names)) /\
  (est_status (fst (estimate api_key fetch from to))
     = 400%nat ->
   estimate api_key fetch from to =
     ({| est_status := 400;
         est_json := EstimateError "Unknown pickup point" |},
      [])).
Proof.
  intros Hf Ht. unfold estimate. rewrite Hf, Ht. cbn [bind].
  rewrite <- !COORDS_at_absent, <- !falsy_absent, <- orb_true_iff.
  destruct (falsy (COORDS_at kf)
            || falsy (COORDS_at kt))%bool.
  - cbn [fst est_status]. split; [ tauto | reflexivity ].
  - destruct (has_key api_key);
      [ destruct (fetch _ _) as [ | [ | ] [ data | ] ];
        [ | destruct (figures data) as [ [[m mi] fe] | ] | | | ] | ];
      cbn [fst est_status fallbackEstimates];
      (split; [ split; discriminate | discriminate ]).
Qed.

Lemma unknown_pickup_rejected_witness :
  estimate (Some "key") (fun _ _ => NetworkFailure)
    VUndefined (VStr "Regis") =
    ({| est_status := 400;
        est_json := EstimateError "Unknown pickup point" |},
     []).
Proof.
  apply (proj2
           (unknown_pickup_rejected (Some "key")
              (fun _ _ => NetworkFailure)
              VUndefined (VStr "Regis") "undefined" "Regis"
              eq_refl eq_refl)).
  reflexivity.
Defined.

Lemma known_point_truthy (k : string) :
  In k (map fst COORDS) -> falsy (COORDS_at k) = false.
Proof.
  intros Hin. destruct (falsy (COORDS_at k)) eqn:E; [ | reflexivity ].
  apply falsy_absent, COORDS_at_absent in E. tauto.
Qed.

(** X14. For two of the ten pickup points of [COORDS], the estimate route
    always answers 200, whatever OpenRouteService does, and calls it at
    most once.  Without an API key it does not call it and answers the
    fallback estimate (500 m, 10 min, fee 20).  With a key it answers the
    figures read from the reply when the reply is [ok] with a body they
    can be read from, and the fallback estimate in every other case: a
    network failure, a reply that is not [ok], a body that is not JSON,
    a body that makes the reading throw. *)
Theorem known_pickup_always_answered (api_key : option string)
  (fetch : Entry -> Entry -> FetchOutcome) (kf kt : string) :
  In kf (map fst COORDS) ->
  In kt (map fst COORDS) ->
  est_status (fst (estimate api_key fetch (VStr kf) (VStr kt))) = 200%nat /\
  (List.length (snd (estimate api_key fetch (VStr kf) (VStr kt))) <= 1)%nat /\
  (has_key api_key = false ->
   estimate api_key fetch (VStr kf) (VStr kt) = (fallbackEstimates, [])) /\
  (forall data meters minutes fee,
     has_key api_key = true ->
     fetch (COORDS_at kf) (COORDS_at kt) = Reply true (Ok data) ->
     figures data = Ok (meters, minutes, fee) ->
     estimate api_key fetch (VStr kf) (VStr kt) =
       ({| est_status := 200; est_json := Figures meters minutes fee |},
        [(COORDS_at kf, COORDS_at kt)])) /\
  ((forall data x,
      fetch (COORDS_at kf) (COORDS_at kt) = Reply true (Ok data) ->
      figures data <> Ok x) ->
   fst (estimate api_key fetch (VStr kf) (VStr kt)) = fallbackEstimates).
Proof.
  intros Hf Ht. unfold estimate. cbn [ToString bind].
  rewrite (known_point_truthy kf Hf), (known_point_truthy kt Ht).
  cbn [orb].
  destruct (has_key api_key).
  - destruct (fetch (COORDS_at kf) (COORDS_at kt))
      as [ | [ | ] [ data | ] ] eqn:Efetch.
    + repeat split; try reflexivity; try (simpl; lia); discriminate.
    + destruct (figures data) as [ [[m mi] fe] | ] eqn:Efig.
      * split; [ reflexivity | ]. split; [ simpl; lia | ].
        split; [ discriminate | ]. split.
        -- intros data' m' mi' fe' _ [= <-] E'. rewrite Efig in E'.
           now injection E' as <- <- <-.
        -- intros Hno. now elim (Hno data (m, mi, fe) eq_refl).
      * split; [ reflexivity | ]. split; [ simpl; lia | ].
        split; [ discriminate | ]. split; [ | reflexivity ].
        intros data' m' mi' fe' _ [= <-] E'. congruence.
    + repeat split; try reflexivity; try (simpl; lia); discriminate.
    + repeat split; try reflexivity; try (simpl; lia); discriminate.
    + repeat split; try reflexivity; try (simpl; lia); discriminate.
  - repeat split; try reflexivity; try (simpl; lia); discriminate.
Qed.

Lemma known_pickup_always_answered_witness :
  estimate None (fun _ _ => NetworkFailure) (VStr "Regis") (VStr "Gate 2.5")
  = (fallbackEstimates, []).
Proof.
  refine
    (proj1
       (proj2
          (proj2
             (known_pickup_always_answered None (fun _ _ => NetworkFailure)
                "Regis" "Gate 2.5" _ _)))
       eq_refl).
  - simpl. tauto.
  - simpl. tauto.
Defined.

(** ** The estimate: the fee and the minutes *)






(** ** Seeding, then checkout *)

Lemma seeded_rows (new_id : nat -> string) :
  exists rows,
    snd (Seed.seed new_id []) = rows /\
    map Seed.row_data rows = Seed.seed_data /\
    map Seed.row_id rows = map new_id (seq 0 6).
Proof.
  unfold Seed.seed. cbn [List.length Nat.ltb Nat.leb snd].
  destruct (createMany_app new_id Seed.seed_data []) as (rows & E & Hd & Hi).
  exists rows. rewrite E. auto.
Qed.

(** X12. Seed an empty catalog, the store giving the six products
    distinct, non-empty identifiers.  Then for every seeded product and
    every normalised list, an item that carries the identifier of the
    product is resolved to the seeded price of that product, whatever
    price snapshot the client sent, and that price is the one stored on
    the order item. *)
Theorem seeded_price_charged (new_id : nat -> string) (row : Seed.Row)
  (stored : list Order) (log_ : list Call) (norm : list NormItem)
  (i : NormItem) :
  NoDup (map new_id (seq 0 6)) ->
  (forall k, (k < 6)%nat -> new_id k <> "") ->
  In row (snd (Seed.seed new_id [])) ->
  In i norm ->
  productId i = Seed.row_id row ->
  unit_price
    (priceMap_of
       {| products := map Seed.to_product (snd (Seed.seed new_id []));
          orders := stored; calls := log_ |} norm) i
  = num_of_Z (Seed.price (Seed.row_data row)) /\
  item_price
    (make_item
       (priceMap_of
          {| products := map Seed.to_product (snd (Seed.seed new_id []));
             orders := stored; calls := log_ |} norm) i)
  = num_of_Z (Seed.price (Seed.row_data row)).
Proof.
  intros Hnd Hne Hrow Hi Hid.
  destruct (seeded_rows new_id) as (rows & E & _ & Hids).
  rewrite E in *.
  set (db := {| products := map Seed.to_product rows;
                orders := stored; calls := log_ |}).
  assert (Hkeys : map product_id (products db) = map Seed.row_id rows).
  { unfold db. cbn [products]. rewrite map_map. reflexivity. }
  assert (Hu : unit_price (priceMap_of db norm) i =
               num_of_Z (Seed.price (Seed.row_data row))).
  { unfold priceMap_of.
    apply (unit_price_matched (fetched db norm) i (Seed.to_product row)).
    - apply findMany_NoDup. now rewrite Hkeys, Hids.
    - apply fetched_In. split; [ | split ].
      + unfold db. cbn [products]. now apply in_map.
      + cbn [Seed.to_product product_id].
        assert (Hin : In (Seed.row_id row) (map new_id (seq 0 6)))
          by (rewrite <- Hids; now apply in_map).
        apply in_map_iff in Hin. destruct Hin as (k & <- & Hk).
        apply in_seq in Hk. apply Hne. lia.
      + exists i. split; [ exact Hi | exact Hid ].
    - symmetry. exact Hid. }
  split; [ exact Hu | ].
  unfold make_item. cbn [item_price]. now rewrite stored_price_unit.
Qed.

Lemma seeded_price_charged_witness :
  unit_price
    (priceMap_of
       {| products := map Seed.to_product (snd (Seed.seed demo_id []));
          orders := []; calls := [] |}
       [ {| productId := "a"; qty := one; priceSnap := one |} ])
    {| productId := "a"; qty := one; priceSnap := one |}
  = num_of_Z 120.
Proof.
  refine
    (proj1
       (seeded_price_charged demo_id
          {| Seed.row_id := "a";
             Seed.row_data :=
               {| Seed.name := "GE Book: Ethics";
                  Seed.description :=
                    "Lightly used GE book. Minimal highlights. Perfect for Term 2.";
                  Seed.price := 120; Seed.campus := "ADMU";
                  Seed.category := "Books";
                  Seed.imageUrl := "https://picsum.photos/seed/book/400/300" |} |}
          [] []
          [ {| productId := "a"; qty := one; priceSnap := one |} ]
          {| productId := "a"; qty := one; priceSnap := one |} _ _ _ _ _)).
  - repeat constructor; simpl; intuition discriminate.
  - intros k _. discriminate.
  - left. reflexivity.
  - left. reflexivity.
  - reflexivity.
Defined.

Lemma seed_idempotent_witness :
  Seed.seed demo_id (snd (Seed.seed demo_id [])) =
    (Seed.AlreadySeeded true 6 "Products already seeded",
     snd (Seed.seed demo_id [])).
Proof. exact (proj2 (proj2 (seed_idempotent demo_id []))). Defined.

Lemma cors_origin_characterised_witness :
  origin_allowed (Some "http://localhost:5173") = true.
Proof.
  apply (proj1 cors_origin_characterised "http://localhost:5173").
  right. exists "5173". repeat split. discriminate.
Defined.

(** ** White space around an identifier *)

Ltac bool_hyps :=
  repeat match goal with
  | H : (_ && _)%bool = true |- _ => apply andb_true_iff in H; destruct H
  | H : (_ || _)%bool = true |- _ => apply orb_true_iff in H; destruct H
  | H : (_ =? _)%N = true |- _ => apply N.eqb_eq in H
  | H : (_ <=? _)%N = true |- _ => apply N.leb_le in H
  end.

Ltac no_space :=
  match goal with
  | |- ?b = false =>
      let E := fresh "E" in
      destruct b eqn:E; [ exfalso; bool_hyps; lia | reflexivity ]
  end.

Lemma is_space_lead (c : ascii) : is_space c = true -> lead_byte c.
Proof.
  unfold is_space, lead_byte. cbv zeta. intros H. bool_hyps; lia.
Qed.

Lemma is_space2_lead (a b : ascii) : is_space2 a b = true -> lead_byte a.
Proof.
  unfold is_space2, lead_byte. cbv zeta. intros H. bool_hyps; lia.
Qed.

Lemma is_space3_lead (a b c : ascii) :
  is_space3 a b c = true -> lead_byte a.
Proof.
  unfold is_space3, lead_byte. cbv zeta. intros H. bool_hyps; lia.
Qed.

(** The first byte of a white-space character is neither the second nor
    the third byte of one. *)
Lemma lead_not_second (a c : ascii) : lead_byte c -> is_space2 a c = false.
Proof. unfold lead_byte, is_space2. cbv zeta. intros H. no_space. Qed.

Lemma lead_not_second3 (a c b : ascii) :
  lead_byte c -> is_space3 a c b = false.
Proof. unfold lead_byte, is_space3. cbv zeta. intros H. no_space. Qed.

Lemma lead_not_third (a b c : ascii) :
  lead_byte c -> is_space3 a b c = false.
Proof. unfold lead_byte, is_space3. cbv zeta. intros H. no_space. Qed.

Lemma is_space2_second (a b : ascii) :
  is_space2 a b = true -> is_space b = false.
Proof. unfold is_space2, is_space. cbv zeta. intros H. no_space. Qed.

Lemma is_space3_third (a b c : ascii) :
  is_space3 a b c = true -> is_space c = false.
Proof. unfold is_space3, is_space. cbv zeta. intros H. no_space. Qed.

Lemma is_space3_second (a b c : ascii) :
  is_space3 a b c = true -> is_space2 b c = false.
Proof. unfold is_space3, is_space2. cbv zeta. intros H. no_space. Qed.

Lemma all_space_starts_lead (s : string) :
  all_space s = true -> starts_lead s.
Proof.
  destruct s as [ | a r ]; simpl; [ trivial | ].
  destruct (is_space a) eqn:Ea; [ intros _; now apply is_space_lead | ].
  destruct r as [ | b r2 ]; [ discriminate | ].
  destruct (is_space2 a b) eqn:Eb;
    [ intros _; now apply (is_space2_lead a b) | ].
  destruct r2 as [ | c r3 ]; [ discriminate | ].
  intros H. apply andb_true_iff in H. destruct H as [H _].
  now apply (is_space3_lead a b c).
Qed.

Lemma trimStart_spaces (pre s : string) :
  all_space pre = true -> trimStart (pre ++ s) = trimStart s.
Proof.
  induction pre as [ pre IH ] using string_length_ind.
  destruct pre as [ | a r ]; [ reflexivity | ].
  cbn [all_space]. destruct (is_space a) eqn:Ea.
  { intros H. cbn [append trimStart]. rewrite Ea. apply IH; simpl; [ lia | exact H ]. }
  destruct r as [ | b r2 ]; [ discriminate | ].
  destruct (is_space2 a b) eqn:Eb.
  { intros H. cbn [append trimStart]. rewrite Ea, Eb.
    apply IH; simpl; [ lia | exact H ]. }
  destruct r2 as [ | c r3 ]; [ discriminate | ].
  intros H. apply andb_true_iff in H. destruct H as [Ec H].
  cbn [append trimStart]. rewrite Ea, Eb, Ec.
  apply IH; simpl; [ lia | exact H ].
Qed.

Lemma trimEnd_all_space (s : string) :
  all_space s = true -> trimEnd s = "".
Proof.
  induction s as [ s IH ] using string_length_ind.
  destruct s as [ | a r ]; [ reflexivity | ].
  cbn [all_space]. destruct (is_space a) eqn:Ea.
  { intros H. rewrite trimEnd_cons, (IH r) by (simpl; auto; lia).
    cbn [white_space]. now rewrite Ea. }
  destruct r as [ | b r2 ]; [ discriminate | ].
  destruct (is_space2 a b) eqn:Eb.
  { intros H. rewrite !trimEnd_cons, (IH r2) by (simpl; auto; lia).
    cbn [white_space]. rewrite (is_space2_second a b Eb).
    cbn [white_space]. now rewrite Eb. }
  destruct r2 as [ | c r3 ]; [ discriminate | ].
  intros H. apply andb_true_iff in H. destruct H as [Ec H].
  rewrite !trimEnd_cons, (IH r3) by (simpl; auto; lia).
  cbn [white_space]. rewrite (is_space3_third a b c Ec).
  cbn [white_space]. rewrite (is_space3_second a b c Ec).
  cbn [white_space]. now rewrite Ec.
Qed.

Lemma trimEnd_spaces (s post : string) :
  all_space post = true -> trimEnd (s ++ post) = trimEnd s.
Proof.
  intros Hp. induction s as [ | c s IH ]; cbn [append].
  - now apply trimEnd_all_space.
  - now rewrite !trimEnd_cons, IH.
Qed.

Lemma trimStart_app_clean (s post : string) :
  starts_lead post ->
  trimStart s <> "" -> trimStart (s ++ post) = (trimStart s ++ post)%string.
Proof.
  intros Hp. induction s as [ s IH ] using string_length_ind.
  destruct s as [ | a r ]; [ simpl; congruence | ].
  cbn [append trimStart]. destruct (is_space a) eqn:Ea.
  { apply IH. simpl. lia. }
  destruct r as [ | b r2 ].
  { intros _. destruct post as [ | p1 post' ]; [ reflexivity | ].
    cbn [append]. cbn [starts_lead] in Hp.
    rewrite (lead_not_second a p1 Hp).
    destruct post' as [ | p2 post'' ]; [ reflexivity | ].
    now rewrite (lead_not_second3 a p1 p2 Hp). }
  cbn [append]. destruct (is_space2 a b) eqn:Eb.
  { apply IH. simpl. lia. }
  destruct r2 as [ | c r3 ].
  { intros _. destruct post as [ | p1 post' ]; [ reflexivity | ].
    cbn [append]. cbn [starts_lead] in Hp.
    now rewrite (lead_not_third a b p1 Hp). }
  cbn [append]. destruct (is_space3 a b c) eqn:Ec.
  { apply IH. simpl. lia. }
  reflexivity.
Qed.

Lemma trimStart_all_space (s : string) :
  trimStart s = "" <-> all_space s = true.
Proof.
  induction s as [ s IH ] using string_length_ind.
  destruct s as [ | a r ]; [ simpl; tauto | ].
  cbn [trimStart all_space]. destruct (is_space a).
  { apply IH. simpl. lia. }
  destruct r as [ | b r2 ]; [ split; discriminate | ].
  destruct (is_space2 a b).
  { apply IH. simpl. lia. }
  destruct r2 as [ | c r3 ]; [ split; discriminate | ].
  destruct (is_space3 a b c); [ | split; discriminate ].
  apply IH. simpl. lia.
Qed.

Lemma all_space_app (a b : string) :
  all_space a = true -> all_space b = true -> all_space (a ++ b) = true.
Proof.
  intros Ha Hb. apply trimStart_all_space.
  rewrite (trimStart_spaces a b Ha). now apply trimStart_all_space.
Qed.

Lemma trim_padded (pre s post : string) :
  all_space pre = true -> all_space post = true ->
  trim (pre ++ s ++ post) = trim s.
Proof.
  intros Hpre Hpost. unfold trim. rewrite (trimStart_spaces _ _ Hpre).
  destruct (trimStart s) as [ | c r ] eqn:E.
  - apply trimStart_all_space in E.
    assert (Ha : all_space (s ++ post) = true) by now apply all_space_app.
    apply trimStart_all_space in Ha. now rewrite Ha.
  - rewrite trimStart_app_clean;
      [ | now apply all_space_starts_lead | rewrite E; discriminate ].
    rewrite E. now apply trimEnd_spaces.
Qed.

(** X16. White space around an identifier does not matter: a raw item
    whose [productId] is a non-empty string normalises to the same item
    when white-space characters, those of ASCII as well as U+00A0,
    U+2028, U+FEFF and the other ones [trim] strips, are added before and
    after that string, so that a padded catalog identifier still matches
    its product. *)
Theorem identifier_padding_ignored (pre s post : string)
  (rest : list (string * value)) :
  s <> "" ->
  all_space pre = true ->
  all_space post = true ->
  normalize_item
    (VObj (("productId", VStr (pre ++ s ++ post)%string) :: rest))
  = normalize_item (VObj (("productId", VStr s) :: rest)).
Proof.
  intros Hs Hpre Hpost.
  assert (Ht : forall x : string, x <> "" -> truthy (VStr x) = true)
    by (intros [ | c x ] Hx; [ congruence | reflexivity ]).
  assert (Hne : (pre ++ s ++ post)%string <> "").
  { destruct pre; simpl; [ | discriminate ].
    destruct s; [ congruence | discriminate ]. }
  unfold normalize_item. cbn [get assoc String.eqb Ascii.eqb Bool.eqb bind].
  unfold or_else.
  destruct (assoc "id" rest), (assoc "name" rest); cbn [bind];
    repeat (progress (rewrite ?(Ht _ Hs), ?(Ht _ Hne); cbv beta iota));
    cbn [ToString bind]; now rewrite (trim_padded _ _ _ Hpre Hpost).
Qed.

Lemma identifier_padding_ignored_witness :
  normalize_item
    (VObj [("productId",
            VStr ((nbsp ++ "  " ++ byte_order_mark) ++ "p2" ++
                  (" " ++ line_separator))%string);
           ("qty", js_int 2)])
  = normalize_item (VObj [("productId", VStr "p2"); ("qty", js_int 2)]).
Proof.
  apply (identifier_padding_ignored (nbsp ++ "  " ++ byte_order_mark) "p2"
           (" " ++ line_separator) [("qty", js_int 2)]).
  - discriminate.
  - reflexivity.
  - reflexivity.
Defined.
